(** * Build steps of the UTM Packer plugin: a shallow embedding

    The development follows the Go sources of [builder/utm/common]:
    - [QemuConfig.Prepare]               (validation of [qemuargs]),
    - [StepConfigureQemuArgs]            (Run / Cleanup),
    - [StepDownloadGuestAdditions]       (Run / Cleanup),
    - [StepAttachISOs]                   (Run / Cleanup).

    A step is a Go method with a pointer receiver that reads and writes the
    [multistep.StateBag], talks to the [Driver] and to the [Ui], and leaves
    through [return multistep.ActionContinue], [return multistep.ActionHalt]
    or a run-time panic (a failed type assertion on a state value).  It is
    embedded as a function from the receiver and the world to a control-flow
    result, the receiver and the world.  Every effect is appended to a
    chronological trace, so that "which driver calls were made, in which
    order" is a statement about a list. *)

From Stdlib Require Import Ascii String NArith.
From stdpp Require Import gmap strings list pretty.

Open Scope string_scope.
Open Scope list_scope.

(** ** Go values *)

(** A Go [(T, error)] pair; an [error] is represented by its message. *)
Inductive result (A : Type) : Type :=
| Ok (a : A)
| Err (msg : string).
Arguments Ok {A} a.
Arguments Err {A} msg.

(** [multistep.StepAction] *)
Inductive StepAction : Type :=
| ActionContinue
| ActionHalt.

(** The values found in the state bag.  [VDriver] and [VUi] are the handles
    stored under ["driver"] and ["ui"]; what the objects behind them do is
    given by the environment ([Env]) and recorded in the trace. *)
Inductive Value : Type :=
| VString (s : string)
| VStrings (l : list string)
| VCommands (m : gmap string (list string))
| VError (msg : string)
| VBool (b : bool)
| VDriver
| VUi.

(** [commonsteps.StepDownload], with the fields the plugin sets. *)
Record StepDownload : Type := mkStepDownload {
  Checksum : string;
  Description : string;
  ResultKey : string;
  TargetPath : string;
  Url : list string;
  Extension : string
}.

(** [guestAdditionsUrlTemplate] *)
Record guestAdditionsUrlTemplate : Type := { TemplateVersion : string }.

(** [interpolate.Context]: the step only assigns its [Data] field; the other
    fields are whatever the configuration front end put there. *)
Record interpolate_Context : Type := mkContext {
  Data : option guestAdditionsUrlTemplate;
  UserVariables : list (string * string)
}.

(** ** Effects *)

Inductive Event : Type :=
| EOsa (cmd : list string) (r : result string)   (* driver.ExecuteOsaScript(cmd...) *)
| EVersion (r : result string)                   (* driver.Version() *)
| EGuestToolsIsoPath (r : result string)         (* driver.GuestToolsIsoPath() *)
| EPut (key : string) (v : Value)                (* state.Put(key, v) *)
| EUiSay (msg : string)
| EUiMessage (msg : string)
| EUiError (msg : string)
| ELog (msg : string)                            (* log.Println / log.Printf *)
| EDownload (d : StepDownload).                  (* (&StepDownload{..}).Run *)

Record World : Type := mkWorld {
  bag : gmap string Value;      (* multistep.StateBag *)
  trace : list Event            (* everything done so far, oldest first *)
}.

(** The [Driver] interface.  A driver answers from the outside world; its
    answer may depend on everything that happened before the call. *)
Record Driver : Type := {
  ExecuteOsaScript : list Event -> list string -> result string;
  Version : list Event -> result string;
  GuestToolsIsoPath : list Event -> result string
}.

(** What the steps use and these files do not define: the driver, the Go
    standard library's [path/filepath], the SDK's [interpolate.Render] and
    [StepDownload.Run], the package's own [GetControllerEnumCode] and
    guest-additions mode constants (declared elsewhere in the package), and
    the order in which a [range] over a Go map yields its entries. *)
Class Env : Type := {
  driver : Driver;
  filepath_IsAbs : string -> bool;
  filepath_Abs : string -> result string;
  filepath_EvalSymlinks : string -> result string;
  interpolate_Render : string -> interpolate_Context -> result string;
  StepDownload_Run : StepDownload -> World -> StepAction * World;
  GetControllerEnumCode : string -> result string;
  GuestAdditionsModeAttach : string;
  GuestAdditionsModeDisable : string;
  map_range : gmap string (list string) -> list (string * list string)
}.

(** ** Control flow of a method body *)

Inductive Flow (A : Type) : Type :=
| Next (a : A)                 (* fall through to the next statement *)
| Return (act : StepAction)    (* [return act] *)
| Panic.                       (* run-time panic *)
Arguments Next {A} a.
Arguments Return {A} act.
Arguments Panic {A}.

(** [T] is the type of the receiver. *)
Definition M (T A : Type) : Type := T -> World -> Flow A * T * World.

Definition ret {T A} (a : A) : M T A := fun s w => (Next a, s, w).

Definition bind {T A B} (m : M T A) (k : A -> M T B) : M T B :=
  fun s w =>
    match m s w with
    | (Next a, s', w') => k a s' w'
    | (Return act, s', w') => (Return act, s', w')
    | (Panic, s', w') => (Panic, s', w')
    end.

Declare Scope step_scope.
Delimit Scope step_scope with step.
Notation "x <- m ;; k" := (bind m (fun x => k))
  (at level 100, m at next level, right associativity) : step_scope.
Notation "m ;; k" := (bind m (fun _ => k))
  (at level 100, right associativity) : step_scope.
Open Scope step_scope.

Definition return_ {T A} (act : StepAction) : M T A :=
  fun s w => (Return act, s, w).

Definition panic {T A} : M T A := fun s w => (Panic, s, w).

Definition self {T} : M T T := fun s w => (Next s, s, w).

Definition set_self {T} (s' : T) : M T unit := fun _ w => (Next tt, s', w).

Definition emit {T} (e : Event) : M T unit :=
  fun s w => (Next tt, s, mkWorld (bag w) (trace w ++ [e])).

(** [for _, x := range l { body }] over a slice *)
Fixpoint for_each {T X} (l : list X) (body : X -> M T unit) : M T unit :=
  match l with
  | [] => ret tt
  | x :: l' => body x ;; for_each l' body
  end.

(** How a call of [Run] ends. *)
Inductive Outcome : Type :=
| Returned (act : StepAction)
| Panicked.

Definition exec {T} (m : M T StepAction) (s : T) (w : World)
  : Outcome * T * World :=
  match m s w with
  | (Next act, s', w') => (Returned act, s', w')
  | (Return act, s', w') => (Returned act, s', w')
  | (Panic, s', w') => (Panicked, s', w')
  end.

(** How a call of [Cleanup] (no result value) ends: [true] when it returns. *)
Definition exec_unit {T} (m : M T unit) (s : T) (w : World)
  : bool * T * World :=
  match m s w with
  | (Next _, s', w') => (true, s', w')
  | (Return _, s', w') => (true, s', w')
  | (Panic, s', w') => (false, s', w')
  end.

(** ** The state bag, the UI, the log and the driver *)

Section Primitives.
Context {T : Type}.

(** [state.Put(key, v)] *)
Definition state_Put (key : string) (v : Value) : M T unit :=
  fun s w => (Next tt, s, mkWorld (<[key := v]> (bag w)) (trace w ++ [EPut key v])).

(** [state.GetOk(key)] *)
Definition state_GetOk (key : string) : M T (option Value) :=
  fun s w => (Next (bag w !! key), s, w).

(** [state.Get(key).(string)]: panics on an absent key (nil interface) and
    on a value of another type. *)
Definition state_Get_string (key : string) : M T string :=
  fun s w =>
    match bag w !! key with
    | Some (VString v) => (Next v, s, w)
    | _ => (Panic, s, w)
    end.

(** [state.Get("driver").(Driver)] *)
Definition state_Get_driver : M T unit :=
  fun s w =>
    match bag w !! "driver" with
    | Some VDriver => (Next tt, s, w)
    | _ => (Panic, s, w)
    end.

(** [state.Get("ui").(packersdk.Ui)] *)
Definition state_Get_ui : M T unit :=
  fun s w =>
    match bag w !! "ui" with
    | Some VUi => (Next tt, s, w)
    | _ => (Panic, s, w)
    end.

(** [cdPathRaw.(string)] *)
Definition assert_string (v : Value) : M T string :=
  match v with
  | VString p => ret p
  | _ => panic
  end.

Definition ui_Say (msg : string) : M T unit := emit (EUiSay msg).
Definition ui_Message (msg : string) : M T unit := emit (EUiMessage msg).
Definition ui_Error (msg : string) : M T unit := emit (EUiError msg).
Definition log_Print (msg : string) : M T unit := emit (ELog msg).

Context {E : Env}.

Definition driver_ExecuteOsaScript (cmd : list string) : M T (result string) :=
  fun s w =>
    let r := ExecuteOsaScript driver (trace w) cmd in
    (Next r, s, mkWorld (bag w) (trace w ++ [EOsa cmd r])).

Definition driver_Version : M T (result string) :=
  fun s w =>
    let r := Version driver (trace w) in
    (Next r, s, mkWorld (bag w) (trace w ++ [EVersion r])).

Definition driver_GuestToolsIsoPath : M T (result string) :=
  fun s w =>
    let r := GuestToolsIsoPath driver (trace w) in
    (Next r, s, mkWorld (bag w) (trace w ++ [EGuestToolsIsoPath r])).

(** [return downStep.Run(ctx, state)] *)
Definition downStep_Run (d : StepDownload) : M T StepAction :=
  fun s w =>
    let '(act, w') := StepDownload_Run d (mkWorld (bag w) (trace w ++ [EDownload d])) in
    (Return act, s, w').
End Primitives.

(** ** Reading a trace *)

Definition is_driver_call (e : Event) : bool :=
  match e with
  | EOsa _ _ | EVersion _ | EGuestToolsIsoPath _ => true
  | _ => false
  end.

Definition is_download (e : Event) : bool :=
  match e with EDownload _ => true | _ => false end.

(** The commands given to [driver.ExecuteOsaScript], oldest first. *)
Fixpoint osa_calls (t : list Event) : list (list string) :=
  match t with
  | [] => []
  | EOsa cmd _ :: t' => cmd :: osa_calls t'
  | _ :: t' => osa_calls t'
  end.

(** All calls of a driver method. *)
Definition driver_calls (t : list Event) : list Event :=
  List.filter is_driver_call t.

(** The keys written with [state.Put]. *)
Fixpoint put_keys (t : list Event) : list string :=
  match t with
  | [] => []
  | EPut k _ :: t' => k :: put_keys t'
  | _ :: t' => put_keys t'
  end.

Definition downloads (t : list Event) : list Event :=
  List.filter is_download t.

(** ** Go standard library: [strings.Join] *)

Fixpoint strings_Join (elems : list string) (sep : string) : string :=
  match elems with
  | [] => ""
  | [a] => a
  | a :: rest => a +:+ sep +:+ strings_Join rest sep
  end.

(** ** Go standard library: [strings.TrimSpace]

    A Go string is a sequence of bytes; [strings.TrimSpace] removes the
    leading and trailing white space "as defined by Unicode", decoding the
    bytes as UTF-8.  [TrimSpace s] is [TrimFunc s unicode.IsSpace] (the
    library's ASCII fast path computes the same slice), and [TrimFunc] is
    transcribed below with the decoders of [unicode/utf8]. *)

Definition byte_val (c : ascii) : N := N_of_ascii c.

Definition RuneError : N := 0xFFFD.

(** [utf8.RuneStart] *)
Definition RuneStart (b : N) : bool := negb (N.land b 0xC0 =? 0x80)%N.

(** A continuation byte, [locb <= b <= hicb]. *)
Definition is_cont (b : N) : bool := ((0x80 <=? b) && (b <=? 0xBF))%N.

(** [utf8.DecodeRuneInString]: the first rune of [s] and its width in bytes;
    [(RuneError, 0)] on the empty string, [(RuneError, 1)] on an encoding
    that is invalid, too short, overlong or out of range. *)
Definition DecodeRuneInString (s : string) : N * nat :=
  match s with
  | EmptyString => (RuneError, 0)
  | String c0 s1 =>
    let b0 := byte_val c0 in
    if (b0 <? 0x80)%N then (b0, 1)
    else if ((b0 <? 0xC2) || (0xF4 <? b0))%N then (RuneError, 1)
    else
      match s1 with
      | EmptyString => (RuneError, 1)
      | String c1 s2 =>
        let b1 := byte_val c1 in
        let lo := (if b0 =? 0xE0 then 0xA0 else if b0 =? 0xF0 then 0x90 else 0x80)%N in
        let hi := (if b0 =? 0xED then 0x9F else if b0 =? 0xF4 then 0x8F else 0xBF)%N in
        if ((b1 <? lo) || (hi <? b1))%N then (RuneError, 1)
        else if (b0 <? 0xE0)%N then
          (N.lor (N.shiftl (N.land b0 0x1F) 6) (N.land b1 0x3F), 2)
        else
          match s2 with
          | EmptyString => (RuneError, 1)
          | String c2 s3 =>
            let b2 := byte_val c2 in
            if negb (is_cont b2) then (RuneError, 1)
            else if (b0 <? 0xF0)%N then
              (N.lor (N.shiftl (N.land b0 0x0F) 12)
                 (N.lor (N.shiftl (N.land b1 0x3F) 6) (N.land b2 0x3F)), 3)
            else
              match s3 with
              | EmptyString => (RuneError, 1)
              | String c3 _ =>
                let b3 := byte_val c3 in
                if negb (is_cont b3) then (RuneError, 1)
                else
                  (N.lor (N.shiftl (N.land b0 0x07) 18)
                     (N.lor (N.shiftl (N.land b1 0x3F) 12)
                        (N.lor (N.shiftl (N.land b2 0x3F) 6) (N.land b3 0x3F))), 4)
              end
          end
      end
  end.

(** [s[i:]] and [s[:i]] *)
Fixpoint string_drop (n : nat) (s : string) : string :=
  match n, s with
  | S n', String _ s' => string_drop n' s'
  | _, _ => s
  end.

Fixpoint string_take (n : nat) (s : string) : string :=
  match n, s with
  | S n', String c s' => String c (string_take n' s')
  | _, _ => ""
  end.

(** [s[i]], 0 out of range (never used out of range below) *)
Definition byte_at (s : string) (i : nat) : N :=
  match String.get i s with Some c => byte_val c | None => 0%N end.

(** The loop of [utf8.DecodeLastRuneInString] that walks back from
    [start] to the first byte [>= lim] that starts a rune; [None] stands for
    an index that ran below [lim = 0]. *)
Fixpoint rune_start_back (s : string) (lim : nat) (start : nat) (steps : nat)
    {struct steps} : option nat :=
  match steps with
  | 0 => if decide (lim = 0) then None else Some (lim - 1)
  | S steps' =>
    if RuneStart (byte_at s start) then Some start
    else
      match start with
      | 0 => None
      | S start' => rune_start_back s lim start' steps'
      end
  end.

(** [utf8.DecodeLastRuneInString] *)
Definition DecodeLastRuneInString (s : string) : N * nat :=
  let end_ := String.length s in
  match end_ with
  | 0 => (RuneError, 0)
  | S start =>
    let r := byte_at s start in
    if (r <? 0x80)%N then (r, 1)
    else
      let lim := end_ - 4 in
      (* for start--; start >= lim; start-- { if RuneStart(s[start]) { break } } *)
      let start' :=
        match start with
        | 0 => None
        | S st => rune_start_back s lim st (S st - lim)
        end in
      (* if start < 0 { start = 0 } *)
      let start'' := default 0 start' in
      let '(r', size) := DecodeRuneInString (string_drop start'' s) in
      if decide (start'' + size = end_) then (r', size) else (RuneError, 1)
  end.

(** [unicode.IsSpace] *)
Definition IsSpace (r : N) : bool :=
  if (r <=? 0xFF)%N then
    ((r =? 0x09) || (r =? 0x0A) || (r =? 0x0B) || (r =? 0x0C) || (r =? 0x0D)
     || (r =? 0x20) || (r =? 0x85) || (r =? 0xA0))%N
  else
    ((r =? 0x1680) || ((0x2000 <=? r) && (r <=? 0x200A)) || (r =? 0x2028)
     || (r =? 0x2029) || (r =? 0x202F) || (r =? 0x205F) || (r =? 0x3000))%N.

(** [indexFunc(s, f, false)]: the byte index of the first rune that does not
    satisfy [f]; [None] is Go's -1.  [i] is the index of [s] in the whole
    string. *)
Fixpoint indexFunc_not (f : N -> bool) (fuel : nat) (i : nat) (s : string)
  : option nat :=
  match fuel with
  | 0 => None
  | S fuel' =>
    match s with
    | EmptyString => None
    | _ =>
      let '(r, size) := DecodeRuneInString s in
      if f r then indexFunc_not f fuel' (i + size) (string_drop size s)
      else Some i
    end
  end.

(** [lastIndexFunc(s, f, false)]: the loop [for i := len(s); i > 0;] *)
Fixpoint lastIndexFunc_not (f : N -> bool) (fuel : nat) (i : nat) (s : string)
  : option nat :=
  match fuel with
  | 0 => None
  | S fuel' =>
    match i with
    | 0 => None
    | _ =>
      let '(r, size) := DecodeLastRuneInString (string_take i s) in
      let i' := i - size in
      if f r then lastIndexFunc_not f fuel' i' s else Some i'
    end
  end.

Definition TrimLeftFunc (s : string) (f : N -> bool) : string :=
  match indexFunc_not f (String.length s) 0 s with
  | None => ""
  | Some i => string_drop i s
  end.

Definition TrimRightFunc (s : string) (f : N -> bool) : string :=
  match lastIndexFunc_not f (String.length s) (String.length s) s with
  | Some i =>
    if (0x80 <=? byte_at s i)%N then
      let '(_, wid) := DecodeRuneInString (string_drop i s) in
      string_take (i + wid) s
    else string_take (i + 1) s
  | None => string_take 0 s        (* i = -1; i++ *)
  end.

Definition TrimFunc (s : string) (f : N -> bool) : string :=
  TrimRightFunc (TrimLeftFunc s f) f.

Definition strings_TrimSpace (s : string) : string := TrimFunc s IsSpace.

(** ** [QemuConfig] (validation of the [qemuargs] option) *)

Module QemuConfig.

Record t : Type := { QemuArgs : list (list string) }.

(** The body of [for i, args := range c.QemuArgs], from index [i] on, with
    the errors collected so far. *)
Fixpoint Prepare_range (i : nat) (groups : list (list string)) (errs : list string)
  : list string :=
  match groups with
  | [] => errs
  | args :: groups' =>
    if decide (length args = 0) then
      Prepare_range (S i) groups'
        (errs ++ ["qemuargs[" +:+ pretty i +:+ "]: empty argument list"])
    else
      let joined := strings_Join args " " in
      if decide (strings_TrimSpace joined = "") then
        Prepare_range (S i) groups'
          (errs ++ ["qemuargs[" +:+ pretty i +:+ "]: argument resolves to empty string"])
      else Prepare_range (S i) groups' errs
  end.

(** [func (c *QemuConfig) Prepare(ctx *interpolate.Context) []error]; the
    context is not used. *)
Definition Prepare (c : t) : list string :=
  Prepare_range 0 (QemuArgs c) [].

End QemuConfig.

(** ** [StepConfigureQemuArgs] *)

Module StepConfigureQemuArgs.

Record t : Type := { QemuArgs : list (list string) }.

Section Step.
Context {E : Env}.

Definition Run : M t StepAction :=
  s <- self ;;
  if decide (length (QemuArgs s) = 0) then
    log_Print "[INFO] No user QEMU args to configure, skipping..." ;;
    return_ ActionContinue
  else
    state_Get_driver ;;
    state_Get_ui ;;
    vmId <- state_Get_string "vmId" ;;
    (* Join each inner []string into a single QEMU arg string *)
    let qemuArgStrings :=
      foldl (fun acc args => acc ++ [strings_Join args " "]) [] (QemuArgs s) in
    ui_Say ("Adding " +:+ pretty (length qemuArgStrings)
            +:+ " user QEMU additional argument(s)...") ;;
    for_each qemuArgStrings (fun arg => log_Print ("[INFO] QEMU arg: " +:+ arg)) ;;
    let addQemuArgsCommand :=
      ["add_qemu_additional_args.applescript"; vmId; "--args"] ++ qemuArgStrings in
    r <- driver_ExecuteOsaScript addQemuArgsCommand ;;
    match r with
    | Err e =>
      let err := "error adding user QEMU additional arguments: " +:+ e in
      state_Put "error" (VError err) ;;
      ui_Error err ;;
      return_ ActionHalt
    | Ok _ =>
      (* Store user args in state bag so later steps can re-include them *)
      state_Put "userQemuArgs" (VStrings qemuArgStrings) ;;
      return_ ActionContinue
    end.

(** No cleanup needed: user-specified QEMU args persist in the exported VM. *)
Definition Cleanup : M t unit := ret tt.

End Step.
End StepConfigureQemuArgs.

(** ** [StepDownloadGuestAdditions] *)

(** UTM version to guest additions version map *)
Definition additionsVersionMap : gmap string string :=
  {[ "4.6.4" := "0.229.2" ]}.

Module StepDownloadGuestAdditions.

Record t : Type := mk {
  GuestAdditionsMode : string;
  GuestAdditionsURL : string;
  GuestAdditionsSHA256 : string;
  GuestAdditionsTargetPath : string;
  Ctx : interpolate_Context
}.

(** [s.Ctx.Data = d] *)
Definition set_Ctx_Data (d : guestAdditionsUrlTemplate) (s : t) : t :=
  mk (GuestAdditionsMode s) (GuestAdditionsURL s) (GuestAdditionsSHA256 s)
     (GuestAdditionsTargetPath s) (mkContext (Some d) (UserVariables (Ctx s))).

Section Step.
Context {E : Env}.

Definition Run : M t StepAction :=
  state_Get_driver ;;
  state_Get_ui ;;
  s <- self ;;
  (* If we've disabled guest additions, don't download *)
  if decide (GuestAdditionsMode s = GuestAdditionsModeDisable) then
    log_Print "Not downloading guest additions since it is disabled." ;;
    return_ ActionContinue
  else
    (* Get UTM version *)
    r <- driver_Version ;;
    match r with
    | Err e =>
      state_Put "error"
        (VError ("error reading version for guest additions download: " +:+ e)) ;;
      return_ ActionHalt
    | Ok version =>
      version <-
        match additionsVersionMap !! version with
        | Some newVersion =>
          log_Print ("Rewriting guest additions version: " +:+ version
                     +:+ " to " +:+ newVersion) ;;
          ret newVersion
        | None => ret version
        end ;;
      let additionsName := "utm-guest-tools-" +:+ "latest" +:+ ".iso" in
      let checksum := "" in
      let checksumType := "sha256" in
      (* Initialize the template context so we can interpolate some variables.. *)
      set_self (set_Ctx_Data {| TemplateVersion := version |} s) ;;
      s <- self ;;
      (* Interpolate any user-variables specified within the guest_additions_url *)
      match interpolate_Render (GuestAdditionsURL s) (Ctx s) with
      | Err e =>
        let err := "error preparing guest additions url: " +:+ e in
        state_Put "error" (VError err) ;;
        ui_Error err ;;
        return_ ActionHalt
      | Ok url =>
        (* If this resulted in an empty url, then ask the driver about it. *)
        p <-
          (if decide (url = "") then
             log_Print "guest_additions_url is blank; querying driver for iso." ;;
             r <- driver_GuestToolsIsoPath ;;
             match r with
             | Ok path => ret (path, "none")
             | Err e =>
               ui_Error e ;;
               ret ("https://getutm.app/downloads/" +:+ additionsName, checksumType)
             end
           else ret (url, checksumType)) ;;
        let '(url, checksumType) := p in
        (* The driver couldn't even figure it out, so fail hard. *)
        if decide (url = "") then
          let err := "couldn't detect guest additions URL." +:+ String "010" ""
                     +:+ "Please specify `guest_additions_url` manually" in
          state_Put "error" (VError err) ;;
          ui_Error err ;;
          return_ ActionHalt
        else
          (* Figure out a default checksum here *)
          p <-
            (if decide (checksumType <> "none") then
               if decide (GuestAdditionsSHA256 s <> "") then
                 ret (GuestAdditionsSHA256 s, checksumType)
               else
                 log_Print "Skipping checksum verification for default guest additions ISO" ;;
                 ret (checksum, "none")
             else ret (checksum, checksumType)) ;;
          let '(checksum, checksumType) := p in
          log_Print ("Guest additions URL: " +:+ url) ;;
          (* Build checksum string with type prefix *)
          let checksumWithType :=
            if decide (checksumType <> "none" /\ checksum <> "") then
              checksumType +:+ ":" +:+ checksum
            else checksum in
          (* We're good, so let's go ahead and download this thing.. *)
          let downStep := {|
            Checksum := checksumWithType;
            Description := "Guest additions";
            ResultKey := "guest_additions_path";
            TargetPath := GuestAdditionsTargetPath s;
            Url := [url];
            Extension := "iso"
          |} in
          downStep_Run downStep
      end
    end.

Definition Cleanup : M t unit := ret tt.

End Step.
End StepDownloadGuestAdditions.

(** ** [StepAttachISOs] *)

(** The regular expression [[0-9a-fA-F-]{36}] used to capture the drive
    identifier.  All characters of the class are ASCII, so matching on
    bytes is matching on runes. *)
Definition uuid_class (c : ascii) : bool :=
  let n := byte_val c in
  (((0x30 <=? n) && (n <=? 0x39))        (* 0-9 *)
   || ((0x61 <=? n) && (n <=? 0x66))     (* a-f *)
   || ((0x41 <=? n) && (n <=? 0x46))     (* A-F *)
   || (n =? 0x2D))%N.                    (* - *)

(** The regular expression anchored at the start of [s], [n] repetitions. *)
Fixpoint match_class_prefix (n : nat) (s : string) : option string :=
  match n with
  | 0 => Some ""
  | S n' =>
    match s with
    | EmptyString => None
    | String c s' =>
      if uuid_class c then String c <$> match_class_prefix n' s' else None
    end
  end.

(** [re.FindStringSubmatch(output)]: the leftmost match, [None] for the nil
    slice; the expression has no group, so a match is the one-element slice
    [matches[0]]. *)
Fixpoint FindStringSubmatch (s : string) : option string :=
  match match_class_prefix 36 s with
  | Some m => Some m
  | None =>
    match s with
    | EmptyString => None
    | String _ s' => FindStringSubmatch s'
    end
  end.

(** diskToMount represents an ISO to mount with its category and path *)
Record diskToMount : Type := { category : string; isoPath : string }.

Module StepAttachISOs.

Record t : Type := mk {
  AttachBootISO : bool;
  ISOInterface : string;
  GuestAdditionsMode : string;
  GuestAdditionsInterface : string;
  diskUnmountCommands : gmap string (list string)
}.

(** [s.diskUnmountCommands = m] *)
Definition set_diskUnmountCommands (m : gmap string (list string)) (s : t) : t :=
  mk (AttachBootISO s) (ISOInterface s) (GuestAdditionsMode s)
     (GuestAdditionsInterface s) m.

Section Step.
Context {E : Env}.

(** The block the source repeats for [iso_path], [cd_path] and
    [guest_additions_path]: convert to an absolute path if it is not one
    already; [key] only appears in the error message. *)
Definition absolute (key : string) (path : string) : M t string :=
  if negb (filepath_IsAbs path) then
    match filepath_Abs path with
    | Err e =>
      let err := "error converting " +:+ key +:+ " to absolute path: " +:+ e in
      state_Put "error" (VError err) ;;
      ui_Error err ;;
      return_ ActionHalt
    | Ok absPath => ret absPath
    end
  else ret path.

(** The three [if] blocks that fill [disksToMount], each appending to the
    slice built so far. *)

(** [if s.AttachBootISO { ... }] *)
Definition add_boot_iso (disksToMount : list diskToMount) : M t (list diskToMount) :=
  s <- self ;;
  if AttachBootISO s then
    isoPath <- state_Get_string "iso_path" ;;
    isoPath <- absolute "iso_path" isoPath ;;
    ret (disksToMount ++ [{| category := "boot_iso"; isoPath := isoPath |}])
  else ret disksToMount.

(** [if cdPathRaw, ok := state.GetOk("cd_path"); ok { ... }] *)
Definition add_cd_files (disksToMount : list diskToMount) : M t (list diskToMount) :=
  cdPathRaw <- state_GetOk "cd_path" ;;
  match cdPathRaw with
  | Some cdPathRaw =>
    cdFilesPath <- assert_string cdPathRaw ;;
    cdFilesPath <- absolute "cd_path" cdFilesPath ;;
    ret (disksToMount ++ [{| category := "cd_files"; isoPath := cdFilesPath |}])
  | None => ret disksToMount
  end.

(** [if s.GuestAdditionsMode != GuestAdditionsModeAttach { ... } else { ... }] *)
Definition add_guest_additions (disksToMount : list diskToMount)
  : M t (list diskToMount) :=
  s <- self ;;
  if decide (GuestAdditionsMode s <> GuestAdditionsModeAttach) then
    log_Print "Not attaching guest additions since we're uploading." ;;
    ret disksToMount
  else
    guestAdditionsPath <- state_Get_string "guest_additions_path" ;;
    guestAdditionsPath <- absolute "guest_additions_path" guestAdditionsPath ;;
    ret (disksToMount
         ++ [{| category := "guest_additions"; isoPath := guestAdditionsPath |}]).

(** Boot ISO first, cd_files second, guest additions last. *)
Definition collect_disks : M t (list diskToMount) :=
  disksToMount <- add_boot_iso [] ;;
  disksToMount <- add_cd_files disksToMount ;;
  add_guest_additions disksToMount.

(** The [switch diskCategory]; a category outside the three cases leaves
    [controllerName] at its zero value. *)
Definition controller_of (s : t) (diskCategory : string) : M t string :=
  if decide (diskCategory = "boot_iso") then
    ui_Message "Mounting boot ISO..." ;; ret (ISOInterface s)
  else if decide (diskCategory = "guest_additions") then
    ui_Message "Mounting guest additions ISO..." ;; ret (GuestAdditionsInterface s)
  else if decide (diskCategory = "cd_files") then
    ui_Message "Mounting cd_files ISO..." ;; ret "usb"
  else ret "".

Definition attach_command (vmId controllerEnumCode isoPath : string) : list string :=
  ["attach_iso.applescript"; vmId;
   "--interface"; controllerEnumCode;
   "--source"; isoPath].

Definition unmount_command (vmId uuid : string) : list string :=
  ["remove_drive.applescript"; vmId; uuid].

(** The body of [for _, disk := range disksToMount]. *)
Definition attach_disk (vmId : string) (disk : diskToMount) : M t unit :=
  let diskCategory := category disk in
  let isoPath := isoPath disk in
  (* If it's a symlink, resolve it to its target. *)
  match filepath_EvalSymlinks isoPath with
  | Err e =>
    let err := "error resolving symlink for ISO: " +:+ e in
    state_Put "error" (VError err) ;;
    ui_Error err ;;
    return_ ActionHalt
  | Ok resolvedIsoPath =>
    let isoPath := resolvedIsoPath in
    s <- self ;;
    controllerName <- controller_of s diskCategory ;;
    (* Convert controllerName to the corresponding enum code *)
    match GetControllerEnumCode controllerName with
    | Err e =>
      state_Put "error" (VError e) ;;
      ui_Error e ;;
      return_ ActionHalt
    | Ok controllerEnumCode =>
      (* Attach the ISO *)
      let command := attach_command vmId controllerEnumCode isoPath in
      r <- driver_ExecuteOsaScript command ;;
      match r with
      | Err e =>
        let err := "error attaching ISO: " +:+ e in
        state_Put "error" (VError err) ;;
        ui_Error err ;;
        return_ ActionHalt
      | Ok output =>
        (* Track the disks we've mounted so we can remove them *)
        match FindStringSubmatch output with
        | Some uuid =>
          let unmountCommand := unmount_command vmId uuid in
          s <- self ;;
          set_self (set_diskUnmountCommands
                      (<[diskCategory := unmountCommand]> (diskUnmountCommands s)) s)
        | None =>
          let err := "error extracting UUID from output: " +:+ output in
          state_Put "error" (VError err) ;;
          ui_Error err ;;
          return_ ActionHalt
        end
      end
    end
  end.

Definition Run : M t StepAction :=
  state_Get_ui ;;
  ui_Say "Mounting ISOs..." ;;
  s <- self ;;
  set_self (set_diskUnmountCommands ∅ s) ;;
  disksToMount <- collect_disks ;;
  if decide (length disksToMount = 0) then
    ui_Message "No ISOs to mount; continuing..." ;;
    return_ ActionContinue
  else
    state_Get_driver ;;
    vmId <- state_Get_string "vmId" ;;
    (* Iterate over the ISOs to attach in the specified order *)
    for_each disksToMount (attach_disk vmId) ;;
    s <- self ;;
    state_Put "disk_unmount_commands" (VCommands (diskUnmountCommands s)) ;;
    return_ ActionContinue.

Definition Cleanup : M t unit :=
  s <- self ;;
  if decide (size (diskUnmountCommands s) = 0) then ret tt
  else
    state_Get_driver ;;
    detached <- state_GetOk "detached_isos" ;;
    match detached with
    | None =>
      for_each (map_range (diskUnmountCommands s))
        (fun entry =>
           r <- driver_ExecuteOsaScript entry.2 ;;
           match r with
           | Err e => log_Print ("error detaching iso: " +:+ e)
           | Ok _ => ret tt
           end)
    | Some _ => ret tt
    end.

End Step.
End StepAttachISOs.

(** * Vocabulary of the properties *)

(** ** Download step *)

(** The halt message of the download step. *)
Definition no_url_error : string :=
  "couldn't detect guest additions URL." +:+ String "010" ""
  +:+ "Please specify `guest_additions_url` manually".

(** The constructed default: fixed vendor host, fixed file name. *)
Definition default_url : string :=
  "https://getutm.app/downloads/utm-guest-tools-latest.iso".

(** An operator-supplied checksum with the fixed algorithm tag; the empty
    string when there is none. *)
Definition checksum_with_type (sha256 : string) : string :=
  if decide (sha256 = "") then "" else "sha256:" +:+ sha256.

Section DownloadVocabulary.
Context {E : Env}.
Import StepDownloadGuestAdditions.

(** The download the step asks for, given the URL and the checksum string. *)
Definition request (s : t) (url checksum : string) : StepDownload := {|
  Checksum := checksum;
  Description := "Guest additions";
  ResultKey := "guest_additions_path";
  TargetPath := GuestAdditionsTargetPath s;
  Url := [url];
  Extension := "iso"
|}.

(** [Run] ends by handing over to the download [d]: up to there it made
    exactly the driver calls [calls], started no other download and wrote
    nothing into the state bag; its result is the download's. *)
Definition hands_over (s : t) (w : World) (s1 : t) (calls : list Event)
    (d : StepDownload) : Prop :=
  exists w1 evs,
    exec Run s w = exec (downStep_Run d) s1 w1
    /\ trace w1 = trace w ++ evs
    /\ bag w1 = bag w
    /\ driver_calls evs = calls
    /\ downloads evs = []
    /\ put_keys evs = [].

(** [Run] halts with the error [msg] recorded under ["error"], having made
    exactly the driver calls [calls] and started no download. *)
Definition halts_with (s : t) (w : World) (s1 : t) (calls : list Event)
    (msg : string) : Prop :=
  exists w1 evs,
    exec Run s w = (Returned ActionHalt, s1, w1)
    /\ trace w1 = trace w ++ evs
    /\ bag w1 = <["error" := VError msg]> (bag w)
    /\ driver_calls evs = calls
    /\ downloads evs = []
    /\ put_keys evs = ["error"].

End DownloadVocabulary.

(** ** Attachment step *)

(** The canonical textual form of a UUID: 8-4-4-4-12 hexadecimal digits
    separated by hyphens.  [true] stands for a digit, [false] for a hyphen. *)
Definition uuid_shape : list bool :=
  replicate 8 true ++ [false] ++ replicate 4 true ++ [false]
  ++ replicate 4 true ++ [false] ++ replicate 4 true ++ [false]
  ++ replicate 12 true.

Definition is_hex (c : ascii) : bool :=
  let n := byte_val c in
  (((0x30 <=? n) && (n <=? 0x39))
   || ((0x61 <=? n) && (n <=? 0x66))
   || ((0x41 <=? n) && (n <=? 0x46)))%N.

Definition is_hyphen (c : ascii) : bool := (byte_val c =? 0x2D)%N.

(** [s] starts with a text of the given shape. *)
Fixpoint has_shape (shape : list bool) (s : string) : bool :=
  match shape, s with
  | [], _ => true
  | _ :: _, EmptyString => false
  | h :: shape', String c s' =>
    (if h then is_hex c else is_hyphen c) && has_shape shape' s'
  end.

(** A canonical UUID occurs somewhere in [s]. *)
Fixpoint contains_uuid (s : string) : bool :=
  has_shape uuid_shape s
  || match s with
     | EmptyString => false
     | String _ s' => contains_uuid s'
     end.

(** The driver call answered without error and with an output in which the
    step finds a drive identifier: what the step takes for a successful
    attachment. *)
Definition successful (e : Event) : bool :=
  match e with
  | EOsa _ (Ok output) => bool_decide (is_Some (FindStringSubmatch output))
  | _ => false
  end.

Section AttachVocabulary.
Context {E : Env}.
Import StepAttachISOs.

(** Where the path of a media category comes from. *)
Definition source_key (cat : string) : string :=
  if decide (cat = "boot_iso") then "iso_path"
  else if decide (cat = "cd_files") then "cd_path"
  else "guest_additions_path".

(** The interface designation of a media category: operator-configured for
    the boot image and the guest tools, fixed for the supplemental files. *)
Definition interface_of (s : t) (cat : string) : string :=
  if decide (cat = "boot_iso") then ISOInterface s
  else if decide (cat = "guest_additions") then GuestAdditionsInterface s
  else if decide (cat = "cd_files") then "usb"
  else "".

Definition absolute_path (p : string) : option string :=
  if filepath_IsAbs p then Some p
  else match filepath_Abs p with Ok a => Some a | Err _ => None end.

(** The Disk Mount Record of a category: its path in the state bag, made
    absolute. *)
Definition candidate (w : World) (cat : string) : option diskToMount :=
  match bag w !! source_key cat with
  | Some (VString p) =>
    match absolute_path p with
    | Some a => Some {| category := cat; isoPath := a |}
    | None => None
    end
  | _ => None
  end.

(** The attach command for a Disk Mount Record: symbolic links resolved,
    interface designation translated to the controller code. *)
Definition attach_call (s : t) (vmId : string) (d : diskToMount)
  : option (list string) :=
  match filepath_EvalSymlinks (isoPath d),
        GetControllerEnumCode (interface_of s (category d)) with
  | Ok resolved, Ok code => Some (attach_command vmId code resolved)
  | _, _ => None
  end.

(** The attach command of a category in a given world. *)
Definition attach_call_of (s : t) (w : World) (cat : string) (cmd : list string)
  : Prop :=
  exists vmId d,
    bag w !! "vmId" = Some (VString vmId)
    /\ candidate w cat = Some d
    /\ attach_call s vmId d = Some cmd.

(** The applicable media categories, in the fixed order: boot image only if
    the build declares one, supplemental files only if an earlier step left
    [cd_path], guest tools only in mode "attach". *)
Definition applicable (s : t) (w : World) : list string :=
  (if AttachBootISO s then ["boot_iso"] else [])
  ++ match bag w !! "cd_path" with Some _ => ["cd_files"] | None => [] end
  ++ (if decide (GuestAdditionsMode s = GuestAdditionsModeAttach)
      then ["guest_additions"] else []).

End AttachVocabulary.

(** The halt message for a driver output without drive identifier. *)
Definition no_uuid_error (output : string) : string :=
  "error extracting UUID from output: " +:+ output.

Section AttachSummaries.
Context {E : Env}.
Import StepAttachISOs.

(** What the part of [Run] before the loop does: it leaves the receiver
    alone, calls no driver method and does not publish the reversal table;
    it yields a value satisfying [P] with the state bag untouched, or it
    halts or panics, and then [fails] holds. *)
Definition prelude {A} (s : t) (w : World) (r : Flow A * t * World)
    (P : A -> Prop) (fails : Prop) : Prop :=
  r.1.2 = s
  /\ exists evs,
      trace r.2 = trace w ++ evs
      /\ driver_calls evs = []
      /\ match r.1.1 with
         | Next a => bag r.2 = bag w /\ put_keys evs = [] /\ P a
         | Return act => act = ActionHalt /\ put_keys evs = ["error"] /\ fails
         | Panic => put_keys evs = [] /\ fails
         end.

(** What a call of [Run] that ended with [out], the reversal table [tbl']
    and the world [w'] has done, [evs] being its events and [cats] the
    categories for which the driver was called. *)
Definition Run_summary (s : t) (w : World) (out : Outcome)
    (tbl' : gmap string (list string)) (w' : World) (evs : list Event)
    (cats : list string) : Prop :=
  trace w' = trace w ++ evs
  /\ cats `prefix_of` applicable s w
  /\ Forall2 (attach_call_of s w) cats (osa_calls evs)
  /\ length (driver_calls evs) = length (osa_calls evs)
  /\ (out = Returned ActionContinue -> cats = applicable s w)
  /\ ("disk_unmount_commands" ∈ put_keys evs <->
      applicable s w <> []
      /\ length (List.filter successful evs) = length (applicable s w))
  /\ ("disk_unmount_commands" ∈ put_keys evs <->
      applicable s w <> [] /\ out = Returned ActionContinue)
  /\ ("disk_unmount_commands" ∈ put_keys evs ->
      bag w' = <["disk_unmount_commands" := VCommands tbl']> (bag w))
  /\ (out = Returned ActionHalt -> tbl' <> ∅ ->
      (exists msg, bag w' = <["error" := VError msg]> (bag w))
      /\ bag w !! "driver" = Some VDriver)
  /\ (forall cmd output uuid,
        EOsa cmd (Ok output) ∈ evs ->
        FindStringSubmatch output = Some uuid ->
        exists cat vmId,
          cat ∈ applicable s w
          /\ attach_call_of s w cat cmd
          /\ bag w !! "vmId" = Some (VString vmId)
          /\ tbl' !! cat = Some (unmount_command vmId uuid))
  /\ (forall cmd output,
        EOsa cmd (Ok output) ∈ evs ->
        FindStringSubmatch output = None ->
        out = Returned ActionHalt
        /\ bag w' = <["error" := VError (no_uuid_error output)]> (bag w)).

End AttachSummaries.

(** ** Validation of [qemuargs] *)
(** The runes of a string, as [for _, r := range s] yields them. *)
Fixpoint runes_fuel (fuel : nat) (s : string) : list N :=
  match fuel with
  | 0 => []
  | S fuel' =>
    match s with
    | EmptyString => []
    | _ =>
      let '(r, size) := DecodeRuneInString s in
      r :: runes_fuel fuel' (string_drop size s)
    end
  end.

Definition runes (s : string) : list N := runes_fuel (String.length s) s.

(** [s] contains a character that is not white space. *)
Definition has_non_space (s : string) : Prop :=
  Exists (fun r => IsSpace r = false) (runes s).

(** A group that [Prepare] rejects: empty, or joining to a string that trims
    to the empty string. *)
Definition rejected (args : list string) : Prop :=
  args = [] \/ strings_TrimSpace (strings_Join args " ") = "".

#[global] Instance rejected_dec (args : list string) : Decision (rejected args).
Proof. unfold rejected. apply _. Defined.

(** * A test double

    An environment in the manner of the package's [DriverMock]: the driver
    answers by a fixed table, paths starting with [/] are absolute, other
    paths are taken below [/cwd], there are no symbolic links, the URL
    template has no variables, the download succeeds and publishes its
    target path, and a Go map is ranged over in key order. *)

(** Modelled from the spec: the values of the constants
    [GuestAdditionsModeAttach] and [GuestAdditionsModeDisable], which the
    package declares elsewhere; the spec names the modes "disabled",
    "upload" and "attach".  The steps themselves are stated for any values
    ([Env]); these are used in the examples only. *)
Definition spec_ModeAttach : string := "attach".
Definition spec_ModeDisable : string := "disabled".

Definition mock_IsAbs (p : string) : bool :=
  match p with
  | String "/" _ => true
  | _ => false
  end.

(** A stand-in for the package's [GetControllerEnumCode]: three known
    interface designations, an error for any other. *)
Definition mock_GetControllerEnumCode (name : string) : result string :=
  if decide (name = "ide") then Ok "QdIi"
  else if decide (name = "usb") then Ok "QdIu"
  else if decide (name = "virtio") then Ok "QdIv"
  else Err ("invalid controller name: " +:+ name).

Definition mockEnv (osa : list string -> result string)
    (version toolsPath : result string) : Env := {|
  driver := {|
    ExecuteOsaScript := fun _ cmd => osa cmd;
    Version := fun _ => version;
    GuestToolsIsoPath := fun _ => toolsPath
  |};
  filepath_IsAbs := mock_IsAbs;
  filepath_Abs := fun p => Ok ("/cwd/" +:+ p);
  filepath_EvalSymlinks := fun p => Ok p;
  interpolate_Render := fun tpl _ => Ok tpl;
  StepDownload_Run := fun d w =>
    (ActionContinue,
     mkWorld (<[ResultKey d := VString (TargetPath d)]> (bag w))
             (trace w ++ [EPut (ResultKey d) (VString (TargetPath d))]));
  GetControllerEnumCode := mock_GetControllerEnumCode;
  GuestAdditionsModeAttach := spec_ModeAttach;
  GuestAdditionsModeDisable := spec_ModeDisable;
  map_range := map_to_list
|}.

(** The state bag a builder hands to its steps. *)
Definition mock_bag : gmap string Value :=
  <["driver" := VDriver]> (<["ui" := VUi]> (<["vmId" := VString "test-vm-id"]> ∅)).

Definition mock_world : World := mkWorld mock_bag [].


(** ** Concrete builds for the examples *)

Definition uuid_boot : string := "A1B2C3D4-0000-1111-2222-333344445555".
Definition uuid_cd : string := "deadbeef-0000-1111-2222-333344445555".
Definition uuid_tools : string := "0f1e2d3c-4b5a-6978-8796-a5b4c3d2e1f0".

(** 36 hexadecimal digits and no hyphen: not a UUID in canonical form. *)
Definition hex36 : string := "aaaaaaaaaaaaaaaaaaaaaaaaaaaaaaaaaaaa".

(** The source path of an attach command, the last of its six arguments. *)
Definition source_of (cmd : list string) : string :=
  match cmd with
  | [_; _; _; _; _; path] => path
  | _ => ""
  end.

(** A driver that attaches every image and answers with its identifier. *)
Definition osa_ok (cmd : list string) : result string :=
  if decide (source_of cmd = "/isos/boot.iso") then
    Ok ("drive " +:+ uuid_boot +:+ " attached")
  else if decide (source_of cmd = "/cwd/cd.iso") then Ok uuid_cd
  else if decide (source_of cmd = "/ga.iso") then Ok uuid_tools
  else Ok "".

(** A driver whose every command fails. *)
Definition osa_fails (cmd : list string) : result string := Err "boom".

(** A driver that fails to attach the guest tools only. *)
Definition osa_tools_fail (cmd : list string) : result string :=
  if decide (source_of cmd = "/ga.iso") then Err "boom" else osa_ok cmd.

(** A driver that answers an attach command with [hex36]. *)
Definition osa_hex (cmd : list string) : result string := Ok hex36.

Definition env_ok : Env := mockEnv osa_ok (Ok "4.6.4") (Err "no tools").
Definition env_fails : Env := mockEnv osa_fails (Ok "4.6.4") (Err "no tools").
Definition env_tools_fail : Env :=
  mockEnv osa_tools_fail (Ok "4.6.4") (Ok "/Applications/UTM.app/tools.iso").
Definition env_hex : Env := mockEnv osa_hex (Ok "4.6.4") (Ok "").

(** A state bag with the three media paths. *)
Definition media_world : World :=
  mkWorld
    (<["iso_path" := VString "/isos/boot.iso"]>
       (<["cd_path" := VString "cd.iso"]>
          (<["guest_additions_path" := VString "/ga.iso"]> mock_bag)))
    [].

(** The same, after a later step set the ["detached_isos"] marker. *)
Definition marked_world : World :=
  mkWorld (<["detached_isos" := VBool true]> (bag media_world)) [].

(** All three categories: boot ISO declared, mode "attach". *)
Definition attach_all : StepAttachISOs.t :=
  StepAttachISOs.mk true "usb" "attach" "ide" ∅.

(** Boot ISO only. *)
Definition attach_boot : StepAttachISOs.t :=
  StepAttachISOs.mk true "usb" "upload" "ide" ∅.

(** Nothing to attach: no boot ISO, mode "upload" (and no [cd_path] in
    [mock_world]). *)
Definition attach_none : StepAttachISOs.t :=
  StepAttachISOs.mk false "usb" "upload" "ide" ∅.

(** A step after two successful attachments. *)
Definition attached_two : StepAttachISOs.t :=
  StepAttachISOs.mk true "usb" "attach" "ide"
    (<["cd_files" := StepAttachISOs.unmount_command "test-vm-id" uuid_cd]>
       (<["boot_iso" := StepAttachISOs.unmount_command "test-vm-id" uuid_boot]> ∅)).

Definition download_step (mode url sha256 : string) : StepDownloadGuestAdditions.t :=
  StepDownloadGuestAdditions.mk mode url sha256 "/tmp/tools.iso" (mkContext None []).

(** ** Attachment step: when everything is there to attach *)

Section AttachReadiness.
Context {E : Env}.
Import StepAttachISOs.

(** The state bag holds what [Run] reads: the UI, the driver, the VM
    identifier, and for every applicable category its path, which could be
    made absolute. *)
Definition ready (s : t) (w : World) : Prop :=
  bag w !! "ui" = Some VUi
  /\ bag w !! "driver" = Some VDriver
  /\ (exists vmId, bag w !! "vmId" = Some (VString vmId))
  /\ Forall (fun cat => is_Some (candidate w cat)) (applicable s w).

End AttachReadiness.

Section AttachProgress.
Context {E : Env}.
Import StepAttachISOs.


End AttachProgress.
(** * Vocabulary of the further properties *)

(** ** Validation of [qemuargs] *)

(** The error that [Prepare] reports for the group at position [i], if it
    reports one. *)
Definition Prepare_error (i : nat) (args : list string) : option string :=
  if decide (args = []) then
    Some ("qemuargs[" +:+ pretty i +:+ "]: empty argument list")
  else if decide (strings_TrimSpace (strings_Join args " ") = "") then
    Some ("qemuargs[" +:+ pretty i +:+ "]: argument resolves to empty string")
  else None.

(** A token made of white space only (the empty token included). *)
Definition blank (token : string) : Prop :=
  Forall (fun r => IsSpace r = true) (runes token).

#[global] Instance blank_dec (token : string) : Decision (blank token).
Proof. unfold blank. apply _. Defined.

(** ** QEMU-argument step *)

Section QemuArgsVocabulary.
Import StepConfigureQemuArgs.

(** One string per group: its tokens joined by single spaces. *)
Definition joined_args (s : t) : list string :=
  map (fun args => strings_Join args " ") (QemuArgs s).

(** The command that adds the arguments to the virtual machine [vmId]. *)
Definition add_args_command (s : t) (vmId : string) : list string :=
  ["add_qemu_additional_args.applescript"; vmId; "--args"] ++ joined_args s.

(** What [Run] does before it calls the driver: the announcement on the UI
    and one log line per argument. *)
Definition announcement (s : t) : list Event :=
  EUiSay ("Adding " +:+ pretty (length (QemuArgs s))
          +:+ " user QEMU additional argument(s)...")
  :: map (fun arg => ELog ("[INFO] QEMU arg: " +:+ arg)) (joined_args s).

(** The state values that [Run] reads when there are arguments. *)
Definition has_handles (w : World) : Prop :=
  bag w !! "driver" = Some VDriver
  /\ bag w !! "ui" = Some VUi
  /\ exists vmId, bag w !! "vmId" = Some (VString vmId).

End QemuArgsVocabulary.

#[global] Instance has_handles_dec (w : World) : Decision (has_handles w).
Proof.
  unfold has_handles.
  destruct (bag w !! "driver") as [[]|];
    try (right; intros ([=] & _); done).
  destruct (bag w !! "ui") as [[]|];
    try (right; intros (_ & [=] & _); done).
  destruct (bag w !! "vmId") as [[v| | | | | |]|];
    try (right; intros (_ & _ & ? & [=]); done).
  left. eauto.
Defined.

(** ** Download step *)

Section DownloadRequests.
Context {E : Env}.
Import StepDownloadGuestAdditions.

(** The version that the URL template is given: the driver's, rewritten by
    [additionsVersionMap]. *)
Definition template_version (version : string) : string :=
  default version (additionsVersionMap !! version).

(** A request for the guest tools as the step makes them: one URL, not
    empty, and a checksum string that is empty or the operator's checksum
    behind its tag. *)
Definition guest_tools_request (s : t) (d : StepDownload) : Prop :=
  exists url,
    url <> ""
    /\ (d = request s url ""
        \/ (GuestAdditionsSHA256 s <> ""
            /\ d = request s url ("sha256:" +:+ GuestAdditionsSHA256 s))).

End DownloadRequests.

(** ** Attachment step: failures and the drives attached *)

Section AttachFailures.
Context {E : Env}.
Import StepAttachISOs.

(** The message of [Run] for a path that cannot be made absolute;
    [key] is the state key the path was read from. *)
Definition conversion_error (key e : string) : string :=
  "error converting " +:+ key +:+ " to absolute path: " +:+ e.

(** The world after [state.Put("error", err); ui.Error(err.Error())], the
    two statements before every [return multistep.ActionHalt] of [Run]. *)
Definition halted (w : World) (msg : string) : World :=
  mkWorld (<["error" := VError msg]> (bag w))
          (trace w ++ [EPut "error" (VError msg); EUiError msg]).

(** Why the attachment of the record [d] halted with the message [msg],
    [calls] being the driver calls of that attachment. *)
Definition attach_failure (s : t) (d : diskToMount) (calls : list Event)
    (msg : string) : Prop :=
  (exists e,
     filepath_EvalSymlinks (isoPath d) = Err e
     /\ msg = "error resolving symlink for ISO: " +:+ e
     /\ calls = [])
  \/ (exists resolved e,
        filepath_EvalSymlinks (isoPath d) = Ok resolved
        /\ GetControllerEnumCode (interface_of s (category d)) = Err e
        /\ msg = e
        /\ calls = [])
  \/ (exists cmd e,
        calls = [EOsa cmd (Err e)]
        /\ msg = "error attaching ISO: " +:+ e)
  \/ (exists cmd output,
        calls = [EOsa cmd (Ok output)]
        /\ FindStringSubmatch output = None
        /\ msg = no_uuid_error output).

(** Why a run with the events [evs] halted with the message [msg]: a path
    that could not be made absolute (before any driver call), or the
    attachment of the first category not yet attached. *)
Definition halt_reason (s : t) (w : World) (evs : list Event) (msg : string)
  : Prop :=
  (exists cat p e,
     cat ∈ applicable s w
     /\ bag w !! source_key cat = Some (VString p)
     /\ filepath_IsAbs p = false
     /\ filepath_Abs p = Err e
     /\ msg = conversion_error (source_key cat) e
     /\ driver_calls evs = [])
  \/ (exists n cat d calls,
        applicable s w !! n = Some cat
        /\ candidate w cat = Some d
        /\ length (List.filter successful evs) = n
        /\ driver_calls evs = List.filter successful evs ++ calls
        /\ attach_failure s d calls msg).

(** The drive identifiers in the driver's answers, oldest first. *)
Definition attached_drives (evs : list Event) : list string :=
  omap (fun e =>
          match e with
          | EOsa _ (Ok output) => FindStringSubmatch output
          | _ => None
          end) evs.

End AttachFailures.

(** ** Reading more of a trace *)

(** The errors among the driver's answers to [ExecuteOsaScript], oldest
    first. *)
Definition driver_errors (evs : list Event) : list string :=
  omap (fun e => match e with EOsa _ (Err m) => Some m | _ => None end) evs.

(** The lines written to the log, oldest first. *)
Definition log_lines (evs : list Event) : list string :=
  omap (fun e => match e with ELog m => Some m | _ => None end) evs.

(** ** The drive identifier *)

(** A text of 36 characters, each a hexadecimal digit or a hyphen: what
    the regular expression of [Run] matches. *)
Definition identifier_text (m : string) : Prop :=
  String.length m = 36
  /\ Forall (fun c => uuid_class c = true) (list_ascii_of_string m).

(** ** More test doubles *)

(** A driver that cannot tell its version. *)
Definition env_no_version : Env :=
  mockEnv osa_ok (Err "UTM is not installed") (Err "no tools").

(** An environment in which the URL template cannot be rendered. *)
Definition env_bad_template : Env := {|
  driver := driver (Env := env_ok);
  filepath_IsAbs := mock_IsAbs;
  filepath_Abs := fun p => Ok ("/cwd/" +:+ p);
  filepath_EvalSymlinks := fun p => Ok p;
  interpolate_Render := fun tpl _ => Err "template: unexpected EOF";
  StepDownload_Run := StepDownload_Run (Env := env_ok);
  GetControllerEnumCode := mock_GetControllerEnumCode;
  GuestAdditionsModeAttach := spec_ModeAttach;
  GuestAdditionsModeDisable := spec_ModeDisable;
  map_range := map_to_list
|}.

(** The step of the test [TestStepConfigureQemuArgs_driverError]. *)
Definition one_arg : StepConfigureQemuArgs.t :=
  {| StepConfigureQemuArgs.QemuArgs := [["-cpu"; "host"]] |}.

(** A state bag without the driver. *)
Definition bare_world : World := mkWorld (<["ui" := VUi]> ∅) [].

(** * Proof automation *)

Ltac unfold_step :=
  unfold exec, exec_unit, bind, self, set_self, state_Get_driver, state_Get_ui,
    state_Get_string, state_GetOk, assert_string, driver_Version,
    driver_GuestToolsIsoPath, driver_ExecuteOsaScript, downStep_Run, state_Put,
    ui_Error, ui_Say, ui_Message, log_Print, emit, ret, return_, panic.

(** Closes [trace w1 = trace w ++ ?evs] once [w1] is known. *)
Ltac trace_eq := simpl; fold (@app Event); rewrite <- ?app_assoc; reflexivity.

(** Closes [hands_over] and [halts_with] goals after the body of [Run] has
    been evaluated along one path. *)
Ltac close_run :=
  eexists (mkWorld _ _), _; split_and!;
  [ reflexivity | trace_eq | reflexivity .. ].

(** Case analysis on every remaining test of the body; impossible
    branches are closed on the spot. *)
Ltac decide_all :=
  repeat (match goal with
          | |- context [decide ?P] => destruct (decide P)
          end; simpl;
          try (exfalso;
               first [ congruence | tauto
                     | match goal with
                       | Hn : ~ (_ /\ _) |- _ =>
                         apply Hn; split; [discriminate | assumption]
                       end ])).

(** The part of [Run] up to the rendering of the URL template. *)
Ltac run_to_render Hd Hu Hver Hrender :=
  unfold hands_over, halts_with, request, checksum_with_type,
    StepDownloadGuestAdditions.Run; unfold_step;
  simpl; rewrite Hd, Hu; simpl;
  destruct (decide (_ = GuestAdditionsModeDisable)); [done|];
  simpl; rewrite Hver; simpl;
  destruct (additionsVersionMap !! _) as [nv|];
  simpl in *; rewrite Hrender; simpl.

(** * Properties *)

(** ** Traces *)

Lemma osa_calls_app (t1 t2 : list Event) :
  osa_calls (t1 ++ t2) = osa_calls t1 ++ osa_calls t2.
Proof.
  induction t1 as [|e t1 IH]; [done|].
  destruct e; simpl; by rewrite ?IH.
Qed.

Lemma put_keys_app (t1 t2 : list Event) :
  put_keys (t1 ++ t2) = put_keys t1 ++ put_keys t2.
Proof.
  induction t1 as [|e t1 IH]; [done|].
  destruct e; simpl; by rewrite ?IH.
Qed.

Lemma driver_calls_app (t1 t2 : list Event) :
  driver_calls (t1 ++ t2) = driver_calls t1 ++ driver_calls t2.
Proof. apply List.filter_app. Qed.

Lemma downloads_app (t1 t2 : list Event) :
  downloads (t1 ++ t2) = downloads t1 ++ downloads t2.
Proof. apply List.filter_app. Qed.

Lemma osa_calls_driver_calls (t : list Event) :
  osa_calls (driver_calls t) = osa_calls t.
Proof.
  induction t as [|e t IH]; [done|].
  destruct e; simpl; by rewrite ?IH.
Qed.

Lemma successful_driver_calls (t : list Event) :
  List.filter successful (driver_calls t) = List.filter successful t.
Proof.
  induction t as [|e t IH]; [done|].
  destruct e as [cmd [o|m]| | | | | | | |]; simpl; rewrite ?IH; done.
Qed.

Lemma elem_of_driver_calls (e : Event) (t : list Event) :
  is_driver_call e = true -> e ∈ t -> e ∈ driver_calls t.
Proof.
  intros He Hin. apply list_elem_of_In, filter_In.
  split; [by apply list_elem_of_In|done].
Qed.

(** A loop that only logs. *)
Lemma for_each_log {T} (f : string -> string) (l : list string) (s : T) (w : World) :
  for_each l (fun x => log_Print (f x)) s w
  = (Next tt, s, mkWorld (bag w) (trace w ++ map (fun x => ELog (f x)) l)).
Proof.
  revert w. induction l as [|x l IH]; intros w; simpl.
  - rewrite app_nil_r. by destruct w.
  - unfold bind at 1. simpl. rewrite IH. simpl. by rewrite <- app_assoc.
Qed.

Lemma driver_calls_logs (f : string -> string) (l : list string) :
  driver_calls (map (fun x => ELog (f x)) l) = [].
Proof. induction l; simpl; auto. Qed.

(** The accumulation [qemuArgStrings = append(qemuArgStrings, ...)] is a map. *)
Lemma foldl_snoc_map {A B} (f : A -> B) (l : list A) (acc : list B) :
  foldl (fun acc x => acc ++ [f x]) acc l = acc ++ map f l.
Proof.
  revert acc. induction l as [|x l IH]; intros acc; simpl.
  - by rewrite app_nil_r.
  - rewrite IH. by rewrite <- app_assoc.
Qed.

(** ** [StepConfigureQemuArgs] *)

Section ConfigureQemuArgs.
Context {E : Env}.
Import StepConfigureQemuArgs.

(** C8. With an empty argument-group list [Run] returns continue; the
    receiver and the state bag are unchanged, and everything the run did
    (one log line) contains no driver call and no [state.Put]: in particular
    neither ["error"] nor ["userQemuArgs"] is written. *)
Theorem Run_no_args (s : t) (w : World) :
  length (QemuArgs s) = 0 ->
  exists evs,
    exec Run s w = (Returned ActionContinue, s, mkWorld (bag w) (trace w ++ evs))
    /\ driver_calls evs = []
    /\ put_keys evs = [].
Proof.
  intros Hlen.
  exists [ELog "[INFO] No user QEMU args to configure, skipping..."].
  split; [|done].
  unfold exec, Run, bind, self. simpl.
  destruct (decide (length (QemuArgs s) = 0)) as [_|Hne]; [done|].
  by destruct Hne.
Qed.

(** C7. With a non-empty argument-group list (and the driver, the UI and the
    VM identifier in the state bag) [Run] makes exactly one driver call,
    whose arguments are the script name, the VM identifier, [--args] and
    then, group by group in the original order, the tokens of each group
    joined by single spaces.  When that call succeeds, [Run] returns
    continue and the same list of joined strings is stored under
    ["userQemuArgs"]. *)
Theorem Run_with_args (s : t) (w : World) (vmId : string) :
  QemuArgs s <> [] ->
  bag w !! "driver" = Some VDriver ->
  bag w !! "ui" = Some VUi ->
  bag w !! "vmId" = Some (VString vmId) ->
  let joined := map (fun args => strings_Join args " ") (QemuArgs s) in
  let command := ["add_qemu_additional_args.applescript"; vmId; "--args"] ++ joined in
  exists out w' evs r,
    exec Run s w = (out, s, w')
    /\ trace w' = trace w ++ evs
    /\ driver_calls evs = [EOsa command r]
    /\ (forall output, r = Ok output ->
          out = Returned ActionContinue
          /\ bag w' = <["userQemuArgs" := VStrings joined]> (bag w)).
Proof.
  intros Hne Hd Hu Hv joined command.
  unfold exec, Run, bind, self, state_Get_driver, state_Get_ui, state_Get_string.
  simpl.
  destruct (decide (length (QemuArgs s) = 0)) as [H0|_].
  { destruct (QemuArgs s); [done|discriminate]. }
  rewrite Hd, Hu, Hv. simpl.
  rewrite foldl_snoc_map. simpl. fold joined.
  rewrite for_each_log. simpl.
  match goal with
  | |- context [ExecuteOsaScript driver ?t ?c] =>
    destruct (ExecuteOsaScript driver t c) as [output|e] eqn:Hr
  end; simpl.
  - eexists _, _, _, (Ok output). split; [reflexivity|]. simpl.
    repeat rewrite <- app_assoc.
    split; [reflexivity|].
    split; [|done].
    rewrite !driver_calls_app, driver_calls_logs. done.
  - eexists _, _, _, (Err e). split; [reflexivity|]. simpl.
    repeat rewrite <- app_assoc.
    split; [reflexivity|].
    split; [|done].
    rewrite !driver_calls_app, driver_calls_logs. done.
Qed.

End ConfigureQemuArgs.

(** ** [StepDownloadGuestAdditions] *)

Section DownloadGuestAdditions.
Context {E : Env}.
Import StepDownloadGuestAdditions.

(** C9. In mode "disabled" (the constant [GuestAdditionsModeDisable]) [Run]
    returns continue; the receiver and the state bag are unchanged, and
    everything the run did (one log line) contains no driver call, hence no
    version query, no download and no [state.Put]. *)
Theorem Run_disabled (s : t) (w : World) :
  GuestAdditionsMode s = GuestAdditionsModeDisable ->
  bag w !! "driver" = Some VDriver ->
  bag w !! "ui" = Some VUi ->
  exists evs,
    exec Run s w = (Returned ActionContinue, s, mkWorld (bag w) (trace w ++ evs))
    /\ driver_calls evs = []
    /\ downloads evs = []
    /\ put_keys evs = [].
Proof.
  intros Hmode Hd Hu.
  exists [ELog "Not downloading guest additions since it is disabled."].
  split; [|done].
  unfold exec, Run, bind, self, state_Get_driver, state_Get_ui. simpl.
  rewrite Hd, Hu. simpl.
  destruct (decide (GuestAdditionsMode s = GuestAdditionsModeDisable)); done.
Qed.


(** C5. When the rendered URL template is empty, [Run] asks the driver for
    the default guest-tools path (the second and last driver call, after the
    version query).  If the driver fails, the URL is the constructed default
    on the vendor host and the download is started with it; if the driver
    returns a non-empty path, the download is started with that path; and
    [Run] records the error "couldn't detect guest additions URL" and halts,
    without any download, exactly in the remaining case: the driver call
    succeeded and returned the empty path. *)
Theorem Run_blank_url (s : t) (w : World) (version : string) :
  bag w !! "driver" = Some VDriver ->
  bag w !! "ui" = Some VUi ->
  GuestAdditionsMode s <> GuestAdditionsModeDisable ->
  Version driver (trace w) = Ok version ->
  let s1 := set_Ctx_Data
              {| TemplateVersion := default version (additionsVersionMap !! version) |} s in
  interpolate_Render (GuestAdditionsURL s) (Ctx s1) = Ok "" ->
  exists r,
    let calls := [EVersion (Ok version); EGuestToolsIsoPath r] in
    match r with
    | Ok "" => halts_with s w s1 calls no_url_error
    | Ok path => exists d, Url d = [path] /\ hands_over s w s1 calls d
    | Err _ => exists d, Url d = [default_url] /\ hands_over s w s1 calls d
    end.
Proof.
  intros Hd Hu Hmode Hver s1 Hrender. subst s1.
  run_to_render Hd Hu Hver Hrender.
  all: match goal with
    | |- context [GuestToolsIsoPath driver ?t] =>
      destruct (GuestToolsIsoPath driver t) as [[|c path]|e] eqn:Hr
    end; simpl.
  all: try (destruct (decide (GuestAdditionsSHA256 s <> "")); simpl).
  all: match goal with Hr : GuestToolsIsoPath driver _ = ?r |- _ => exists r end.
  all: cbv zeta iota.
  all: first [ close_run | eexists; split; [|close_run]; reflexivity ].
Qed.

(** C6. The checksum handed to the download.  With a URL that came from the
    driver's default-path resolution the checksum is empty (no
    verification), whatever the operator supplied; with an operator URL, or
    with the constructed default after a failed resolution, it is the
    operator's checksum prefixed with ["sha256:"], and empty when the
    operator supplied none. *)
Theorem Run_checksum (s : t) (w : World) (version url0 : string) :
  bag w !! "driver" = Some VDriver ->
  bag w !! "ui" = Some VUi ->
  GuestAdditionsMode s <> GuestAdditionsModeDisable ->
  Version driver (trace w) = Ok version ->
  let s1 := set_Ctx_Data
              {| TemplateVersion := default version (additionsVersionMap !! version) |} s in
  interpolate_Render (GuestAdditionsURL s) (Ctx s1) = Ok url0 ->
  let operator := checksum_with_type (GuestAdditionsSHA256 s) in
  if decide (url0 = "") then
    exists r,
      let calls := [EVersion (Ok version); EGuestToolsIsoPath r] in
      match r with
      | Ok "" => halts_with s w s1 calls no_url_error
      | Ok path => hands_over s w s1 calls (request s path "")
      | Err _ => hands_over s w s1 calls (request s default_url operator)
      end
  else
    hands_over s w s1 [EVersion (Ok version)] (request s url0 operator).
Proof.
  intros Hd Hu Hmode Hver s1 Hrender operator. subst s1 operator.
  destruct (decide (url0 = "")) as [->|Hurl].
  - run_to_render Hd Hu Hver Hrender.
    all: match goal with
      | |- context [GuestToolsIsoPath driver ?t] =>
        destruct (GuestToolsIsoPath driver t) as [[|c path]|e] eqn:Hr
      end; simpl.
    all: decide_all.
    all: match goal with Hr : GuestToolsIsoPath driver _ = ?r |- _ => exists r end.
    all: cbv zeta iota.
    all: try match goal with Hs : GuestAdditionsSHA256 _ = "" |- _ => rewrite Hs end.
    all: close_run.
  - run_to_render Hd Hu Hver Hrender.
    all: decide_all.
    all: try match goal with Hs : GuestAdditionsSHA256 _ = "" |- _ => rewrite Hs end.
    all: close_run.
Qed.

End DownloadGuestAdditions.

(** ** [StepAttachISOs] *)

Section AttachISOs.
Context {E : Env}.
Import StepAttachISOs.

Lemma absolute_ok (key p a : string) (s : t) (w : World) :
  absolute_path p = Some a -> absolute key p s w = (Next a, s, w).
Proof.
  unfold absolute_path, absolute. intros Habs.
  destruct (filepath_IsAbs p); simpl; [by simplify_eq|].
  destruct (filepath_Abs p); by simplify_eq.
Qed.

Lemma absolute_fail (key p : string) (s : t) (w : World) :
  absolute_path p = None ->
  exists msg,
    absolute key p s w
    = (Return ActionHalt, s,
       mkWorld (<["error" := VError msg]> (bag w))
               (trace w ++ [EPut "error" (VError msg); EUiError msg])).
Proof.
  unfold absolute_path, absolute. intros Habs.
  destruct (filepath_IsAbs p); simpl; [done|].
  destruct (filepath_Abs p) as [|e]; [done|].
  eexists. unfold_step. simpl. by rewrite <- app_assoc.
Qed.

(** The tail common to the three blocks: make the path absolute, append the
    record.  [w0] is the world at the start of [Run]; the state bag has not
    changed since. *)
Lemma append_disk (cat key p : string) (ds : list diskToMount) (s : t)
    (w0 w : World) (fails : Prop) :
  bag w = bag w0 ->
  bag w0 !! source_key cat = Some (VString p) ->
  fails ->
  prelude s w
    ((isoPath <- absolute key p ;;
      ret (ds ++ [{| category := cat; isoPath := isoPath |}])) s w)
    (fun ds' => exists d, candidate w0 cat = Some d /\ ds' = ds ++ [d])
    fails.
Proof.
  intros Hb Hp Hf. unfold candidate. rewrite Hp.
  destruct (absolute_path p) as [a|] eqn:Habs.
  - unfold bind. rewrite (absolute_ok _ _ a) by done. simpl.
    split; [done|]. exists []. rewrite app_nil_r. unfold ret. simpl. eauto 10.
  - destruct (absolute_fail key p s w Habs) as [msg Hm].
    unfold bind. rewrite Hm. simpl.
    split; [done|]. eexists. split; [done|]. done.
Qed.

(** A part of the prelude that does nothing but yield [a]. *)
Lemma prelude_ret {A} (a : A) (s : t) (w : World) (P : A -> Prop) (fails : Prop) :
  P a -> prelude s w (Next a, s, w) P fails.
Proof. intros HP. split; [done|]. exists []. by rewrite app_nil_r. Qed.

(** A part of the prelude that panics on the spot. *)
Lemma prelude_panic {A} (s : t) (w : World) (P : A -> Prop) (fails : Prop) :
  fails -> prelude s w (Panic, s, w) P fails.
Proof. intros Hf. split; [done|]. exists []. by rewrite app_nil_r. Qed.

Lemma add_boot_iso_spec (ds : list diskToMount) (s : t) (w0 w : World) :
  bag w = bag w0 ->
  prelude s w (add_boot_iso ds s w)
    (fun ds' =>
       if AttachBootISO s
       then exists d, candidate w0 "boot_iso" = Some d /\ ds' = ds ++ [d]
       else ds' = ds)
    (AttachBootISO s = true).
Proof.
  intros Hb. unfold add_boot_iso. unfold bind at 1. unfold self.
  destruct (AttachBootISO s) eqn:Hbo.
  - unfold bind at 1, state_Get_string. rewrite Hb.
    destruct (bag w0 !! "iso_path") as [[p| | | | | |]|] eqn:Hp;
      try by apply prelude_panic.
    by apply (append_disk "boot_iso").
  - by apply prelude_ret.
Qed.

Lemma add_cd_files_spec (ds : list diskToMount) (s : t) (w0 w : World) :
  bag w = bag w0 ->
  prelude s w (add_cd_files ds s w)
    (fun ds' =>
       match bag w0 !! "cd_path" with
       | Some _ => exists d, candidate w0 "cd_files" = Some d /\ ds' = ds ++ [d]
       | None => ds' = ds
       end)
    (is_Some (bag w0 !! "cd_path")).
Proof.
  intros Hb. unfold add_cd_files. unfold bind at 1. unfold state_GetOk. rewrite Hb.
  destruct (bag w0 !! "cd_path") as [v|] eqn:Hp.
  - unfold bind at 1.
    destruct v as [p| | | | | |]; try by (apply prelude_panic; eauto).
    simpl. unfold ret at 1. apply (append_disk "cd_files"); eauto.
  - by apply prelude_ret.
Qed.

Lemma add_guest_additions_spec (ds : list diskToMount) (s : t) (w0 w : World) :
  bag w = bag w0 ->
  prelude s w (add_guest_additions ds s w)
    (fun ds' =>
       if decide (GuestAdditionsMode s = GuestAdditionsModeAttach)
       then exists d, candidate w0 "guest_additions" = Some d /\ ds' = ds ++ [d]
       else ds' = ds)
    (GuestAdditionsMode s = GuestAdditionsModeAttach).
Proof.
  intros Hb. unfold add_guest_additions. unfold bind at 1. unfold self.
  destruct (decide (GuestAdditionsMode s <> GuestAdditionsModeAttach)) as [Hm|Hm].
  - destruct (decide (GuestAdditionsMode s = GuestAdditionsModeAttach)); [done|].
    split; [done|]. eexists. unfold_step. simpl. done.
  - apply dec_stable in Hm.
    destruct (decide (GuestAdditionsMode s = GuestAdditionsModeAttach)); [|done].
    unfold bind at 1, state_Get_string. rewrite Hb.
    destruct (bag w0 !! "guest_additions_path") as [[p| | | | | |]|] eqn:Hp;
      try by apply prelude_panic.
    by apply (append_disk "guest_additions").
Qed.

(** Sequencing two parts of the prelude. *)
Lemma prelude_bind {A B} (m : M t A) (k : A -> M t B) (s : t) (w0 w : World)
    (P : A -> Prop) (Q : B -> Prop) (f1 f2 : Prop) :
  prelude s w (m s w) P f1 ->
  (forall a w1, P a -> bag w1 = bag w -> prelude s w1 (k a s w1) Q f2) ->
  prelude s w (bind m k s w) Q (f1 \/ f2).
Proof.
  intros (Hs & evs & Ht & Hd & Hm) Hk. unfold bind.
  destruct (m s w) as [[fl s1] w1]. simpl in *. subst s1.
  destruct fl as [a|act|].
  - destruct Hm as (Hb & Hp & HP).
    destruct (Hk a w1 HP Hb) as (Hs' & evs' & Ht' & Hd' & Hm').
    split; [done|]. exists (evs ++ evs').
    rewrite Ht', Ht, app_assoc. split; [done|].
    rewrite driver_calls_app, Hd, Hd'. split; [done|].
    rewrite put_keys_app, Hp. simpl.
    destruct (k a s w1) as [[fl' s'] w']. simpl in *.
    destruct fl'; [rewrite Hb in Hm'|..]; intuition.
  - split; [done|]. exists evs. simpl. intuition.
  - split; [done|]. exists evs. simpl. intuition.
Qed.

Lemma applicable_nonempty (s : t) (w : World) :
  (AttachBootISO s = true
   \/ is_Some (bag w !! "cd_path")
   \/ GuestAdditionsMode s = GuestAdditionsModeAttach) ->
  applicable s w <> [].
Proof.
  unfold applicable. intros [Hb|[[v Hc]|Hg]].
  - by rewrite Hb.
  - rewrite Hc. by destruct (AttachBootISO s).
  - destruct (decide (GuestAdditionsMode s = GuestAdditionsModeAttach)); [|done].
    destruct (AttachBootISO s), (bag w !! "cd_path"); done.
Qed.

Lemma collect_disks_spec (s : t) (w : World) :
  prelude s w (collect_disks s w)
    (fun ds => Forall2 (fun cat d => candidate w cat = Some d) (applicable s w) ds)
    (applicable s w <> []).
Proof.
  unfold collect_disks.
  cut (prelude s w
         ((disksToMount <- add_boot_iso [] ;;
           disksToMount <- add_cd_files disksToMount ;;
           add_guest_additions disksToMount) s w)
         (fun ds => Forall2 (fun cat d => candidate w cat = Some d) (applicable s w) ds)
         (AttachBootISO s = true
          \/ is_Some (bag w !! "cd_path")
          \/ GuestAdditionsMode s = GuestAdditionsModeAttach)).
  { intros (Hs & evs & Ht & Hd & Hm). split; [done|]. exists evs.
    split; [done|]. split; [done|].
    pose proof (applicable_nonempty s w) as Hne.
    destruct ((_ <- _ ;; _) s w).1.1; intuition. }
  eapply (prelude_bind _ _ _ w); [by apply (add_boot_iso_spec _ _ w)|].
  intros ds1 w1 H1 Hb1.
  eapply (prelude_bind _ _ _ w); [by apply (add_cd_files_spec _ _ w)|].
  intros ds2 w2 H2 Hb2.
  pose proof (add_guest_additions_spec ds2 s w w2) as (Hs & evs & Ht & Hd & Hm);
    [congruence|].
  split; [done|]. exists evs. split; [done|]. split; [done|].
  destruct (add_guest_additions ds2 s w2).1.1 as [ds3| |]; [|done..].
  destruct Hm as (Hb3 & Hp3 & H3). split; [done|]. split; [done|].
  unfold applicable.
  destruct (AttachBootISO s);
    destruct (bag w !! "cd_path");
    destruct (decide (GuestAdditionsMode s = GuestAdditionsModeAttach));
    simpl in *;
    repeat match goal with
           | H : exists _, _ |- _ => destruct H as (? & ? & ?)
           end;
    subst; simpl;
    repeat constructor; done.
Qed.


Lemma set_diskUnmountCommands_id (s : t) :
  set_diskUnmountCommands (diskUnmountCommands s) s = s.
Proof. by destruct s. Qed.

(** One iteration of the loop: either the attachment succeeds, with one
    driver call and the reversal command recorded under the category, or the
    step halts with an error recorded, after at most one driver call, which
    then was not a successful attachment. *)
Lemma attach_disk_spec (vmId : string) (d : diskToMount) (s : t) (w : World) :
  exists fl tbl' w' evs,
    attach_disk vmId d s w = (fl, set_diskUnmountCommands tbl' s, w')
    /\ trace w' = trace w ++ evs
    /\ ((fl = Next tt
         /\ bag w' = bag w
         /\ put_keys evs = []
         /\ exists cmd output uuid,
             attach_call s vmId d = Some cmd
             /\ FindStringSubmatch output = Some uuid
             /\ driver_calls evs = [EOsa cmd (Ok output)]
             /\ tbl' = <[category d := unmount_command vmId uuid]>
                         (diskUnmountCommands s))
        \/ (fl = Return ActionHalt
            /\ put_keys evs = ["error"]
            /\ tbl' = diskUnmountCommands s
            /\ exists msg,
                bag w' = <["error" := VError msg]> (bag w)
                /\ (driver_calls evs = []
                    \/ exists cmd r,
                        attach_call s vmId d = Some cmd
                        /\ driver_calls evs = [EOsa cmd r]
                        /\ successful (EOsa cmd r) = false
                        /\ (forall output, r = Ok output ->
                              msg = no_uuid_error output)))).
Proof.
  unfold attach_disk, attach_call, controller_of, interface_of.
  destruct (filepath_EvalSymlinks (isoPath d)) as [p|e].
  2: { eexists _, _, (mkWorld _ _), _. rewrite set_diskUnmountCommands_id.
       unfold_step. simpl. split; [reflexivity|]. split; [trace_eq|].
       right. split_and!; [reflexivity..|]. eexists. split; [reflexivity|]. by left. }
  unfold_step. simpl.
  decide_all.
  all: match goal with
       | |- context [GetControllerEnumCode ?c] =>
         destruct (GetControllerEnumCode c) as [code|?]
       end; simpl.
  all: try match goal with
       | |- context [ExecuteOsaScript driver ?t ?c] =>
         destruct (ExecuteOsaScript driver t c) as [output|?] eqn:Hr
       end; simpl.
  all: try match goal with
       | |- context [FindStringSubmatch ?o] =>
         destruct (FindStringSubmatch o) as [uuid|] eqn:Hu
       end; simpl.
  all: first
    [ eexists _, _, (mkWorld _ _), _; split; [reflexivity|]
    | eexists _, (diskUnmountCommands s), (mkWorld _ _), _;
      rewrite set_diskUnmountCommands_id; split; [reflexivity|] ].
  all: (split; [trace_eq|]).
  all: first
    [ left; split_and!; [reflexivity..|];
      eexists _, _, _; split_and!; [reflexivity|eassumption|reflexivity..]
    | right; split_and!; [reflexivity..|];
      eexists; split; [reflexivity|];
      first [ left; reflexivity
            | right; eexists _, _; split_and!; [reflexivity..| |];
              [ simpl; try rewrite Hu; reflexivity
              | intros ? [=]; by subst ] ] ].
Qed.


(** The loop over the candidates.  [done] are the candidates for which the
    driver was called. *)
Lemma attach_loop_spec (vmId : string) (disks : list diskToMount) (s : t)
    (w : World) :
  exists fl tbl' w' evs done,
    for_each disks (attach_disk vmId) s w = (fl, set_diskUnmountCommands tbl' s, w')
    /\ trace w' = trace w ++ evs
    /\ done `prefix_of` disks
    /\ Forall2 (fun d cmd => attach_call s vmId d = Some cmd) done (osa_calls evs)
    /\ length (driver_calls evs) = length (osa_calls evs)
    /\ (forall k, k ∉ map category disks ->
          tbl' !! k = diskUnmountCommands s !! k)
    /\ (NoDup (map category disks) ->
        forall cmd output uuid,
          EOsa cmd (Ok output) ∈ evs ->
          FindStringSubmatch output = Some uuid ->
          exists d,
            d ∈ disks
            /\ attach_call s vmId d = Some cmd
            /\ tbl' !! category d = Some (unmount_command vmId uuid))
    /\ (forall cmd output,
          EOsa cmd (Ok output) ∈ evs ->
          FindStringSubmatch output = None ->
          fl = Return ActionHalt
          /\ bag w' = <["error" := VError (no_uuid_error output)]> (bag w))
    /\ match fl with
       | Next _ =>
         done = disks /\ bag w' = bag w /\ put_keys evs = []
         /\ length (List.filter successful evs) = length disks
       | Return act =>
         act = ActionHalt
         /\ (exists msg, bag w' = <["error" := VError msg]> (bag w))
         /\ put_keys evs = ["error"]
         /\ length (List.filter successful evs) < length disks
       | Panic => False
       end.
Proof.
  revert s w. induction disks as [|d disks IH]; intros s w.
  - exists (Next tt), (diskUnmountCommands s), w, [], [].
    rewrite set_diskUnmountCommands_id, app_nil_r. simpl.
    split_and!; try done.
    + intros _ cmd output uuid Hin. by apply elem_of_nil in Hin.
    + intros cmd output Hin. by apply elem_of_nil in Hin.
  - simpl. unfold bind at 1.
    destruct (attach_disk_spec vmId d s w) as (fl1 & tbl1 & w1 & evs1 & -> & Ht1 & Hcase).
    destruct Hcase as
      [(-> & Hb1 & Hp1 & cmd1 & out1 & uuid1 & Hcall1 & Hfind1 & Hd1 & ->)
      |(-> & Hp1 & -> & msg1 & Hb1 & Hd1)].
    + (* the attachment of [d] succeeded *)
      destruct (IH (set_diskUnmountCommands
                      (<[category d := unmount_command vmId uuid1]>
                         (diskUnmountCommands s)) s) w1)
        as (fl & tbl' & w' & evs2 & done2 & -> & Ht2 & Hpre & Hall & Hlen & Hkeep
            & Hcover & Hnone & Hfl).
      simpl in Hkeep.
      assert (osa_calls evs1 = [cmd1]) as Hosa1.
      { by rewrite <- osa_calls_driver_calls, Hd1. }
      assert (List.filter successful evs1 = [EOsa cmd1 (Ok out1)]) as Hsucc1.
      { rewrite <- successful_driver_calls, Hd1. simpl. rewrite Hfind1.
        rewrite bool_decide_eq_true_2; [done|by eexists]. }
      exists fl, tbl', w', (evs1 ++ evs2), (d :: done2).
      split; [done|]. split; [by rewrite Ht2, Ht1, app_assoc|].
      split; [by apply prefix_cons|].
      split; [rewrite osa_calls_app, Hosa1; by constructor|].
      split; [rewrite driver_calls_app, osa_calls_app, !length_app, Hlen, Hd1, Hosa1;
              done|].
      split.
      { intros k Hk. simpl in Hk. apply not_elem_of_cons in Hk as [Hkd Hk].
        rewrite Hkeep by done. by rewrite lookup_insert_ne. }
      split.
      { intros Hnd cmd output uuid Hin Hfind.
        simpl in Hnd. apply NoDup_cons in Hnd as [Hd Hnd].
        apply elem_of_app in Hin as [Hin|Hin].
        - apply elem_of_driver_calls in Hin; [|done].
          rewrite Hd1 in Hin. apply list_elem_of_singleton in Hin.
          injection Hin as -> ->. rewrite Hfind1 in Hfind. injection Hfind as <-.
          exists d. split; [apply elem_of_cons; by left|]. split; [done|].
          rewrite Hkeep by done. by rewrite lookup_insert_eq.
        - destruct (Hcover Hnd cmd output uuid Hin Hfind) as (d' & Hd' & Hc' & Ht').
          exists d'. split; [apply elem_of_cons; by right|]. done. }
      split.
      { intros cmd output Hin Hfind.
        apply elem_of_app in Hin as [Hin|Hin].
        - apply elem_of_driver_calls in Hin; [|done].
          rewrite Hd1 in Hin. apply list_elem_of_singleton in Hin.
          injection Hin as -> ->. congruence.
        - rewrite <- Hb1. by eapply Hnone. }
      rewrite put_keys_app, Hp1, List.filter_app, Hsucc1, length_app. simpl.
      destruct fl as [[]|act|]; [| |done].
      * destruct Hfl as (-> & Hb2 & Hp2 & Hl2). split_and!; try done; congruence.
      * destruct Hfl as (-> & [msg Hb2] & Hp2 & Hl2).
        split_and!; try done; [|lia]. exists msg. by rewrite Hb2, Hb1.
    + (* the attachment of [d] failed *)
      assert (List.filter successful evs1 = []) as Hsucc1.
      { rewrite <- successful_driver_calls.
        destruct Hd1 as [->|(cmd & r & _ & -> & Hns & _)]; [done|].
        simpl in *. by rewrite Hns. }
      exists (Return ActionHalt), (diskUnmountCommands s), w1, evs1,
        (if osa_calls evs1 is [] then [] else [d]).
      rewrite set_diskUnmountCommands_id.
      split; [done|]. split; [done|].
      split; [destruct (osa_calls evs1); [apply prefix_nil|by apply prefix_cons, prefix_nil]|].
      split.
      { rewrite <- osa_calls_driver_calls.
        destruct Hd1 as [->|(cmd & r & Hcall & -> & Hns & _)]; simpl; [constructor|].
        by repeat constructor. }
      split.
      { rewrite <- (osa_calls_driver_calls evs1).
        by destruct Hd1 as [->|(cmd & r & Hcall & -> & Hns & _)]. }
      split; [done|].
      split.
      { intros _ cmd output uuid Hin Hfind.
        apply elem_of_driver_calls in Hin; [|done].
        destruct Hd1 as [Hd1|(cmd' & r & _ & Hd1 & Hns & _)]; rewrite Hd1 in Hin.
        - by apply elem_of_nil in Hin.
        - apply list_elem_of_singleton in Hin. injection Hin as <- <-.
          simpl in Hns. rewrite Hfind in Hns.
          rewrite bool_decide_eq_true_2 in Hns; [done|by eexists]. }
      split.
      { intros cmd output Hin Hfind. split; [done|].
        apply elem_of_driver_calls in Hin; [|done].
        destruct Hd1 as [Hd1|(cmd' & r & _ & Hd1 & _ & Hmsg)]; rewrite Hd1 in Hin.
        - by apply elem_of_nil in Hin.
        - apply list_elem_of_singleton in Hin. injection Hin as <- <-.
          by rewrite Hb1, (Hmsg output). }
      rewrite Hsucc1. simpl. split_and!; try done; [by exists msg1|lia].
Qed.


Lemma Forall2_compose {A B C} (P : A -> B -> Prop) (Q : B -> C -> Prop)
    (la : list A) (lb : list B) (lc : list C) :
  Forall2 P la lb -> Forall2 Q lb lc ->
  Forall2 (fun a c => exists b, P a b /\ Q b c) la lc.
Proof.
  intros HP. revert lc. induction HP as [|a b la lb Hab HP IH]; intros lc HQ.
  - apply Forall2_nil_inv_l in HQ as ->. constructor.
  - apply Forall2_cons_inv_l in HQ as (c & lc' & Hbc & HQ & ->).
    constructor; eauto.
Qed.

(** The candidates for which the driver was called are the first
    categories of the applicable ones. *)
Lemma done_categories {A B C} (P : A -> B -> Prop) (Q : B -> C -> Prop)
    (la : list A) (lb done : list B) (lc : list C) :
  Forall2 P la lb -> done `prefix_of` lb -> Forall2 Q done lc ->
  exists la',
    la' `prefix_of` la
    /\ (done = lb -> la' = la)
    /\ Forall2 (fun a c => exists b, P a b /\ Q b c) la' lc.
Proof.
  intros HP [rest ->] HQ.
  apply Forall2_app_inv_r in HP as (la1 & la2 & HP1 & HP2 & ->).
  exists la1. split; [by eexists|]. split.
  - intros Heq. assert (rest = []) as -> by (by eapply app_inv_head; rewrite app_nil_r).
    apply Forall2_nil_inv_r in HP2 as ->. by rewrite app_nil_r.
  - by eapply Forall2_compose.
Qed.

Lemma candidate_category (w : World) (cat : string) (d : diskToMount) :
  candidate w cat = Some d -> category d = cat.
Proof.
  unfold candidate. intros Hc.
  destruct (bag w !! source_key cat) as [[p| | | | | |]|]; try done.
  destruct (absolute_path p); by simplify_eq.
Qed.

Lemma candidates_categories (w : World) (cats : list string)
    (disks : list diskToMount) :
  Forall2 (fun cat d => candidate w cat = Some d) cats disks ->
  map category disks = cats.
Proof.
  induction 1 as [|cat d cats disks Hc _ IH]; [done|].
  simpl. by rewrite IH, (candidate_category w cat d).
Qed.

Lemma applicable_NoDup (s : t) (w : World) : NoDup (applicable s w).
Proof.
  unfold applicable.
  destruct (AttachBootISO s), (bag w !! "cd_path"),
    (decide (GuestAdditionsMode s = GuestAdditionsModeAttach)); simpl;
    apply (bool_decide_unpack _); vm_compute; exact I.
Qed.


(** A call that ended without any driver call. *)
Lemma Run_summary_quiet (s : t) (w : World) (out : Outcome)
    (tbl' : gmap string (list string)) (w' : World) (evs : list Event) :
  trace w' = trace w ++ evs ->
  driver_calls evs = [] ->
  "disk_unmount_commands" ∉ put_keys evs ->
  (out = Returned ActionContinue -> applicable s w = []) ->
  (out = Returned ActionHalt -> tbl' = ∅) ->
  Run_summary s w out tbl' w' evs [].
Proof.
  intros Ht Hd Hp Hc Hh.
  assert (osa_calls evs = []) as Ho by (by rewrite <- osa_calls_driver_calls, Hd).
  assert (List.filter successful evs = []) as Hs
    by (by rewrite <- successful_driver_calls, Hd).
  unfold Run_summary. rewrite Ho, Hd, Hs. simpl.
  split_and!; try done.
  - apply prefix_nil.
  - intros Hout. symmetry. auto.
  - split; [done|]. intros [Hne Hl]. by destruct (applicable s w).
  - split; [done|]. intros [Hne Hl]. exfalso. auto.
  - intros Hout Hne. by destruct Hne; auto.
  - intros cmd output uuid Hin.
    apply elem_of_driver_calls in Hin; [|done]. rewrite Hd in Hin.
    by apply elem_of_nil in Hin.
  - intros cmd output Hin.
    apply elem_of_driver_calls in Hin; [|done]. rewrite Hd in Hin.
    by apply elem_of_nil in Hin.
Qed.

Lemma Run_spec (s : t) (w : World) :
  exists out tbl' w' evs cats,
    exec Run s w = (out, set_diskUnmountCommands tbl' s, w')
    /\ Run_summary s w out tbl' w' evs cats.
Proof.
  unfold exec, Run. unfold bind at 1. unfold state_Get_ui.
  destruct (bag w !! "ui") as [[]|] eqn:Hui;
    try (exists Panicked, (diskUnmountCommands s), w, [], [];
         rewrite set_diskUnmountCommands_id; split; [done|];
         apply Run_summary_quiet; rewrite ?app_nil_r; try done; apply not_elem_of_nil).
  unfold bind at 1. unfold ui_Say, emit. unfold bind at 1. unfold self.
  unfold bind at 1. unfold set_self. unfold bind at 1.
  set (s0 := set_diskUnmountCommands ∅ s).
  set (w1 := mkWorld (bag w) (trace w ++ [EUiSay "Mounting ISOs..."])).
  pose proof (collect_disks_spec s0 w1) as (Hs1 & evs0 & Ht0 & Hd0 & Hfl).
  change (applicable s0 w1) with (applicable s w) in Hfl.
  change (candidate w1) with (candidate w) in Hfl.
  destruct (collect_disks s0 w1) as [[fl s1] w2]. simpl in Hs1, Ht0, Hfl. subst s1.
  assert (trace w2 = trace w ++ EUiSay "Mounting ISOs..." :: evs0) as Ht0'.
  { rewrite Ht0. subst w1. simpl. by rewrite <- app_assoc. }
  destruct fl as [disks|act|].
  2: { destruct Hfl as (-> & Hp0 & Hne).
       exists (Returned ActionHalt), ∅, w2, (EUiSay "Mounting ISOs..." :: evs0), [].
       split; [done|]. apply Run_summary_quiet; try done.
       simpl. rewrite Hp0. by intros ?%list_elem_of_singleton. }
  2: { destruct Hfl as (Hp0 & Hne).
       exists Panicked, ∅, w2, (EUiSay "Mounting ISOs..." :: evs0), [].
       split; [done|]. apply Run_summary_quiet; try done.
       simpl. rewrite Hp0. apply not_elem_of_nil. }
  destruct Hfl as (Hb0 & Hp0 & Hcand).
  change (bag w1) with (bag w) in Hb0.
  destruct (decide (length disks = 0)) as [Hlen|Hlen].
  { apply length_zero_iff_nil in Hlen as ->.
    apply Forall2_nil_inv_r in Hcand.
    eexists (Returned ActionContinue), ∅, (mkWorld _ _),
      (EUiSay "Mounting ISOs..."
       :: evs0 ++ [EUiMessage "No ISOs to mount; continuing..."]), [].
    unfold_step. simpl. split; [reflexivity|].
    apply Run_summary_quiet; try done.
    - simpl. rewrite Ht0'. by rewrite <- app_assoc.
    - simpl. by rewrite driver_calls_app, Hd0.
    - simpl. rewrite put_keys_app, Hp0. apply not_elem_of_nil. }
  assert (applicable s w <> []) as Hne.
  { intros Heq. rewrite Heq in Hcand. apply Forall2_nil_inv_l in Hcand. by subst. }
  unfold bind at 1. unfold state_Get_driver. rewrite Hb0.
  destruct (bag w !! "driver") as [[]|] eqn:Hdrv;
    try (exists Panicked, ∅, w2, (EUiSay "Mounting ISOs..." :: evs0), [];
         split; [done|]; apply Run_summary_quiet; try done;
         simpl; rewrite Hp0; apply not_elem_of_nil).
  unfold bind at 1. unfold state_Get_string. rewrite Hb0.
  destruct (bag w !! "vmId") as [[vmId| | | | | |]|] eqn:Hvm;
    try (exists Panicked, ∅, w2, (EUiSay "Mounting ISOs..." :: evs0), [];
         split; [done|]; apply Run_summary_quiet; try done;
         simpl; rewrite Hp0; apply not_elem_of_nil).
  unfold bind at 1.
  destruct (attach_loop_spec vmId disks s0 w2)
    as (fl & tbl' & w3 & evsl & done & -> & Htl & Hpre & Hall & Hlenl & Hkeep
        & Hcover & Hnone & Hfl).
  change (set_diskUnmountCommands tbl' s0) with (set_diskUnmountCommands tbl' s).
  destruct (done_categories _ _ _ _ _ _ Hcand Hpre Hall) as (cats & Hcpre & Hcfull & Hcall).
  assert (Forall2 (attach_call_of s w) cats (osa_calls evsl)) as Hcall'.
  { eapply Forall2_impl; [exact Hcall|]. intros cat cmd (d & Hc & Ha).
    by exists vmId, d. }
  pose proof (candidates_categories _ _ _ Hcand) as Hmap.
  pose proof (Forall2_length _ _ _ Hcand) as Hlen2.
  assert (osa_calls evs0 = []) as Ho0 by (by rewrite <- osa_calls_driver_calls, Hd0).
  assert (List.filter successful evs0 = []) as Hs0
    by (by rewrite <- successful_driver_calls, Hd0).
  assert (forall cmd output uuid,
            EOsa cmd (Ok output) ∈ EUiSay "Mounting ISOs..." :: evs0 ++ evsl ->
            FindStringSubmatch output = Some uuid ->
            exists cat vmId0,
              cat ∈ applicable s w
              /\ attach_call_of s w cat cmd
              /\ bag w !! "vmId" = Some (VString vmId0)
              /\ tbl' !! cat = Some (unmount_command vmId0 uuid)) as Hcov.
  { intros cmd output uuid Hin Hfind.
    apply elem_of_cons in Hin as [Hin|Hin]; [done|].
    apply elem_of_app in Hin as [Hin|Hin].
    - apply elem_of_driver_calls in Hin; [|done]. rewrite Hd0 in Hin.
      by apply elem_of_nil in Hin.
    - destruct (Hcover (eq_ind_r NoDup (applicable_NoDup s w) Hmap)
                  cmd output uuid Hin Hfind) as (d & Hd & Hc & Htbl).
      apply list_elem_of_lookup in Hd as [i Hi].
      destruct (Forall2_lookup_r _ _ _ _ _ Hcand Hi) as (cat & Hcat & Hcd).
      rewrite (candidate_category w cat d Hcd) in Htbl.
      exists cat, vmId. split; [by eapply list_elem_of_lookup_2|].
      split; [by exists vmId, d|]. done. }
  assert (forall cmd output,
            EOsa cmd (Ok output) ∈ EUiSay "Mounting ISOs..." :: evs0 ++ evsl ->
            FindStringSubmatch output = None ->
            fl = Return ActionHalt
            /\ bag w3 = <["error" := VError (no_uuid_error output)]> (bag w))
    as Hnone'.
  { intros cmd output Hin Hfind.
    apply elem_of_cons in Hin as [Hin|Hin]; [done|].
    apply elem_of_app in Hin as [Hin|Hin].
    - apply elem_of_driver_calls in Hin; [|done]. rewrite Hd0 in Hin.
      by apply elem_of_nil in Hin.
    - rewrite <- Hb0. by eapply Hnone. }
  destruct fl as [[]|act|]; [| |done].
  - destruct Hfl as (-> & Hb3 & Hp3 & Hcount).
    exists (Returned ActionContinue), tbl',
      (mkWorld (<["disk_unmount_commands" := VCommands tbl']> (bag w3))
               (trace w3 ++ [EPut "disk_unmount_commands" (VCommands tbl')])),
      (EUiSay "Mounting ISOs..."
       :: evs0 ++ evsl ++ [EPut "disk_unmount_commands" (VCommands tbl')]),
      cats.
    split; [done|]. unfold Run_summary. simpl.
    rewrite !osa_calls_app, !driver_calls_app, !put_keys_app, !List.filter_app,
      Ho0, Hd0, Hp0, Hp3, Hs0. simpl. rewrite !app_nil_r.
    split_and!; try done.
    + rewrite Htl, Ht0'. simpl. by rewrite <- !app_assoc.
    + auto.
    + split; [|intros _; apply list_elem_of_singleton; done].
      intros _. split; [done|]. congruence.
    + split; [done|]. intros _. by apply list_elem_of_singleton.
    + intros _. by rewrite Hb3, Hb0.
    + intros cmd output uuid Hin. apply (Hcov cmd output uuid).
      apply elem_of_cons in Hin as [Hin|Hin]; [done|].
      apply elem_of_cons. right.
      rewrite app_assoc in Hin. apply elem_of_app in Hin as [Hin|Hin]; [done|].
      by apply list_elem_of_singleton in Hin.
    + intros cmd output Hin Hfind. exfalso.
      assert (EOsa cmd (Ok output) ∈ EUiSay "Mounting ISOs..." :: evs0 ++ evsl) as Hin'.
      { apply elem_of_cons in Hin as [Hin|Hin]; [done|].
        apply elem_of_cons. right.
        rewrite app_assoc in Hin. apply elem_of_app in Hin as [Hin|Hin]; [done|].
        by apply list_elem_of_singleton in Hin. }
      by destruct (Hnone' cmd output Hin' Hfind).
  - destruct Hfl as (-> & [msg Hb3] & Hp3 & Hcount).
    exists (Returned ActionHalt), tbl', w3,
      (EUiSay "Mounting ISOs..." :: evs0 ++ evsl), cats.
    split; [done|]. unfold Run_summary. simpl.
    rewrite !osa_calls_app, !driver_calls_app, !put_keys_app, !List.filter_app,
      Ho0, Hd0, Hp0, Hp3, Hs0. simpl.
    split_and!; try done.
    + rewrite Htl, Ht0'. simpl. by rewrite <- !app_assoc.
    + split; [by intros ?%list_elem_of_singleton|]. intros [_ Hc]. lia.
    + split; [by intros ?%list_elem_of_singleton|]. by intros [_ ?].
    + by intros ?%list_elem_of_singleton.
    + intros _ _. split; [|done]. exists msg. by rewrite Hb3, Hb0.
    + intros cmd output Hin Hfind. split; [done|].
      by destruct (Hnone' cmd output Hin Hfind).
Qed.


(** *** Progress of the attachments *)


Lemma successful_no_driver_calls (evs : list Event) :
  driver_calls evs = [] -> List.filter successful evs = [].
Proof. intros Hd. by rewrite <- successful_driver_calls, Hd. Qed.









(** The loop of [Cleanup]: one driver call per entry, in the order of the
    range, whatever the driver answers. *)
Lemma detach_loop (l : list (string * list string)) (s : t) (w : World) :
  exists evs,
    for_each l
      (fun entry =>
         r <- driver_ExecuteOsaScript entry.2 ;;
         match r with
         | Err e => log_Print ("error detaching iso: " +:+ e)
         | Ok _ => ret tt
         end) s w
    = (Next tt, s, mkWorld (bag w) (trace w ++ evs))
    /\ osa_calls evs = l.*2
    /\ length (driver_calls evs) = length l
    /\ put_keys evs = []
    /\ downloads evs = [].
Proof.
  revert w. induction l as [|[cat cmd] l IH]; intros w.
  - exists []. rewrite app_nil_r. by destruct w.
  - simpl. unfold bind at 1. unfold bind at 1. unfold driver_ExecuteOsaScript at 1.
    set (r := ExecuteOsaScript driver (trace w) cmd).
    set (w1 := mkWorld (bag w) (trace w ++ [EOsa cmd r])).
    assert (exists evs1,
              match r with
              | Ok _ => ret tt
              | Err e => log_Print ("error detaching iso: " +:+ e)
              end s w1
              = (Next tt, s, mkWorld (bag w) (trace w ++ EOsa cmd r :: evs1))
              /\ osa_calls evs1 = [] /\ driver_calls evs1 = []
              /\ put_keys evs1 = [] /\ downloads evs1 = [])
      as (evs1 & -> & Ho1 & Hd1 & Hp1 & Hdl1).
    { destruct r as [o|e].
      - exists []. by rewrite <- (app_nil_r (trace w ++ _)), <- app_assoc.
      - eexists [_]. unfold_step. simpl. by rewrite <- app_assoc. }
    cbv beta iota.
    destruct (IH (mkWorld (bag w) (trace w ++ EOsa cmd r :: evs1)))
      as (evs2 & Hloop & Ho2 & Hl2 & Hp2 & Hdl2).
    rewrite Hloop.
    exists (EOsa cmd r :: evs1 ++ evs2). simpl.
    rewrite <- app_assoc. split; [done|].
    rewrite osa_calls_app, driver_calls_app, put_keys_app, downloads_app,
      length_app, Ho1, Hd1, Hp1, Hdl1, Ho2, Hl2, Hp2, Hdl2.
    done.
Qed.

Lemma Cleanup_spec (s : t) (w : World) :
  (diskUnmountCommands s <> ∅ -> bag w !! "driver" = Some VDriver) ->
  exists evs,
    exec_unit Cleanup s w = (true, s, mkWorld (bag w) (trace w ++ evs))
    /\ put_keys evs = []
    /\ downloads evs = []
    /\ if decide (diskUnmountCommands s = ∅) then evs = []
       else match bag w !! "detached_isos" with
            | Some _ => evs = []
            | None =>
              osa_calls evs = (map_range (diskUnmountCommands s)).*2
              /\ length (driver_calls evs)
                 = length (map_range (diskUnmountCommands s))
            end.
Proof.
  intros Hdrv. unfold exec_unit, Cleanup. unfold bind at 1. unfold self.
  destruct (decide (size (diskUnmountCommands s) = 0)) as [Hz|Hnz].
  - apply map_size_empty_iff in Hz.
    destruct (decide (diskUnmountCommands s = ∅)); [|done].
    exists []. rewrite app_nil_r. by destruct w.
  - rewrite map_size_empty_iff in Hnz.
    destruct (decide (diskUnmountCommands s = ∅)); [done|].
    unfold bind at 1. unfold state_Get_driver. rewrite (Hdrv Hnz).
    unfold bind at 1. unfold state_GetOk.
    destruct (bag w !! "detached_isos") as [v|].
    + exists []. rewrite app_nil_r. by destruct w.
    + destruct (detach_loop (map_range (diskUnmountCommands s)) s w)
        as (evs & -> & Ho & Hl & Hp & Hdl).
      by exists evs.
Qed.



(** The canonical form is one of the texts matched by the regular
    expression. *)
Lemma has_shape_match (shape : list bool) (s : string) :
  has_shape shape s = true -> is_Some (match_class_prefix (length shape) s).
Proof.
  revert s. induction shape as [|h shape IH]; intros s; simpl; [by eexists|].
  destruct s as [|c s]; [done|].
  intros [Hc Hs]%andb_true_iff.
  assert (uuid_class c = true) as ->.
  { unfold uuid_class, is_hex, is_hyphen in *.
    destruct h; rewrite Hc; [done|]. by rewrite !orb_true_r. }
  destruct (IH s Hs) as [m ->]. by eexists.
Qed.

Lemma contains_uuid_found (output : string) :
  contains_uuid output = true -> is_Some (FindStringSubmatch output).
Proof.
  induction output as [|c output IH].
  - vm_compute. by intros [=].
  - cbn [contains_uuid FindStringSubmatch]. intros [Hs|Hc]%orb_true_iff.
    + apply (has_shape_match uuid_shape) in Hs as [m Hm].
      change (length uuid_shape) with 36 in Hm. rewrite Hm. by eexists.
    + destruct (match_class_prefix 36 (String c output)); [by eexists|auto].
Qed.

(** C2 (amended).  For every attach command that the driver answered
    without error during a run: if the output contains no run of 36
    characters that are hexadecimal digits or hyphens (the step's
    [[0-9a-fA-F-]{36}]), the run returns halt and the error naming the output
    is recorded in the state bag; if it contains such a run, the reversal
    command for the leftmost one is recorded under the category of that
    attachment.  An output that contains a UUID in canonical form always
    contains such a run. *)
Theorem Run_needs_identifier (s : t) (w : World) :
  exists out s' w' evs,
    exec Run s w = (out, s', w')
    /\ trace w' = trace w ++ evs
    /\ forall cmd output,
        EOsa cmd (Ok output) ∈ evs ->
        (contains_uuid output = true -> is_Some (FindStringSubmatch output))
        /\ match FindStringSubmatch output with
           | None =>
             out = Returned ActionHalt
             /\ bag w' = <["error" := VError (no_uuid_error output)]> (bag w)
           | Some uuid =>
             exists cat vmId,
               cat ∈ applicable s w
               /\ attach_call_of s w cat cmd
               /\ bag w !! "vmId" = Some (VString vmId)
               /\ diskUnmountCommands s' !! cat
                  = Some (unmount_command vmId uuid)
           end.
Proof.
  destruct (Run_spec s w) as (out & tbl' & w' & evs & cats & Hrun & Hsum).
  destruct Hsum as (Ht & _ & _ & _ & _ & _ & _ & _ & _ & Hcov & Hnone).
  exists out, (set_diskUnmountCommands tbl' s), w', evs.
  split; [done|]. split; [done|].
  intros cmd output Hin. split; [apply contains_uuid_found|].
  destruct (FindStringSubmatch output) as [uuid|] eqn:Hfind.
  - by apply (Hcov cmd output uuid).
  - by apply (Hnone cmd output).
Qed.

(** C3 (amended).  [Run] writes the reversal table under
    ["disk_unmount_commands"] if and only if there is at least one
    applicable category and every one of them was attached successfully,
    which is the case exactly when the candidate list is not empty and the
    run returns continue: never on a halting run, and not on a run without
    candidates.  What is written is the table of the receiver.  After a run
    that halted, and unless the ["detached_isos"] marker is set, the step's
    [Cleanup] returns and issues the detach command of every attachment that
    had succeeded. *)
Theorem Run_publishes_table (s : t) (w : World) :
  exists out s' w' evs,
    exec Run s w = (out, s', w')
    /\ trace w' = trace w ++ evs
    /\ ("disk_unmount_commands" ∈ put_keys evs <->
        applicable s w <> []
        /\ length (List.filter successful evs) = length (applicable s w))
    /\ ("disk_unmount_commands" ∈ put_keys evs <->
        applicable s w <> [] /\ out = Returned ActionContinue)
    /\ ("disk_unmount_commands" ∈ put_keys evs ->
        bag w' = <["disk_unmount_commands" := VCommands (diskUnmountCommands s')]>
                   (bag w))
    /\ (out = Returned ActionHalt ->
        bag w !! "detached_isos" = None ->
        map_range (diskUnmountCommands s') ≡ₚ map_to_list (diskUnmountCommands s') ->
        exists evs_c,
          exec_unit Cleanup s' w' = (true, s', mkWorld (bag w') (trace w' ++ evs_c))
          /\ forall cmd output uuid,
              EOsa cmd (Ok output) ∈ evs ->
              FindStringSubmatch output = Some uuid ->
              exists vmId,
                bag w !! "vmId" = Some (VString vmId)
                /\ unmount_command vmId uuid ∈ osa_calls evs_c).
Proof.
  destruct (Run_spec s w) as (out & tbl' & w' & evs & cats & Hrun & Hsum).
  destruct Hsum as (Ht & _ & _ & _ & _ & Hw1 & Hw2 & Hw3 & Hhalt & Hcov & _).
  exists out, (set_diskUnmountCommands tbl' s), w', evs.
  split_and!; try done.
  intros Hout Hmark Hperm. simpl in *.
  destruct (Cleanup_spec (set_diskUnmountCommands tbl' s) w')
    as (evs_c & Hc & _ & _ & Hcalls).
  { simpl. intros Hne. destruct (Hhalt Hout Hne) as [[msg ->] Hdrv].
    by rewrite lookup_insert_ne. }
  exists evs_c. split; [done|].
  intros cmd output uuid Hin Hfind.
  destruct (Hcov cmd output uuid Hin Hfind) as (cat & vmId & _ & _ & Hvm & Htbl).
  exists vmId. split; [done|]. simpl in Hcalls.
  destruct (decide (tbl' = ∅)) as [->|Hne]; [by rewrite lookup_empty in Htbl|].
  destruct (Hhalt Hout Hne) as [[msg Hb] _].
  rewrite Hb, lookup_insert_ne, Hmark in Hcalls by done.
  destruct Hcalls as [-> _].
  apply list_elem_of_fmap. exists (cat, unmount_command vmId uuid).
  split; [done|]. rewrite Hperm. by apply elem_of_map_to_list.
Qed.

(** C4.  [Cleanup] never panics, never halts and writes nothing into the
    state bag.  With no reversal command recorded it makes no driver call;
    with the ["detached_isos"] marker in the state bag it makes no driver
    call; otherwise its driver calls are exactly the recorded commands, one
    call for every recorded category, whatever the driver answers to each of
    them. *)
Theorem Cleanup_detaches (s : t) (w : World) :
  (diskUnmountCommands s <> ∅ -> bag w !! "driver" = Some VDriver) ->
  map_range (diskUnmountCommands s) ≡ₚ map_to_list (diskUnmountCommands s) ->
  exists evs,
    exec_unit Cleanup s w = (true, s, mkWorld (bag w) (trace w ++ evs))
    /\ put_keys evs = []
    /\ if decide (diskUnmountCommands s = ∅) then driver_calls evs = []
       else match bag w !! "detached_isos" with
            | Some _ => driver_calls evs = []
            | None =>
              osa_calls evs ≡ₚ (map_to_list (diskUnmountCommands s)).*2
              /\ length (driver_calls evs) = size (diskUnmountCommands s)
              /\ forall cat command,
                  diskUnmountCommands s !! cat = Some command ->
                  command ∈ osa_calls evs
            end.
Proof.
  intros Hdrv Hperm.
  destruct (Cleanup_spec s w Hdrv) as (evs & Hc & Hp & _ & Hcalls).
  exists evs. split; [done|]. split; [done|].
  destruct (decide (diskUnmountCommands s = ∅)); [by subst|].
  destruct (bag w !! "detached_isos"); [by subst|].
  destruct Hcalls as [Ho Hl]. rewrite Ho, Hl.
  split; [by rewrite Hperm|]. split; [by rewrite Hperm, length_map_to_list|].
  intros cat command Hcat. apply list_elem_of_fmap. exists (cat, command).
  split; [done|]. rewrite Hperm. by apply elem_of_map_to_list.
Qed.

End AttachISOs.

(** ** [strings.TrimSpace]: what it leaves is empty only for white space *)

Lemma string_drop_drop (n m : nat) (s : string) :
  string_drop m (string_drop n s) = string_drop (n + m) s.
Proof.
  revert s. induction n as [|n IH]; intros s; [done|].
  destruct s as [|c s]; simpl; [by destruct m|]. apply IH.
Qed.

Lemma string_take_length (n : nat) (s : string) :
  n <= String.length s -> String.length (string_take n s) = n.
Proof.
  revert s. induction n as [|n IH]; intros s Hn; [done|].
  destruct s as [|c s]; simpl in *; [lia|]. rewrite IH; lia.
Qed.

Lemma string_take_nonempty (n : nat) (s : string) :
  s <> "" -> string_take (S n) s <> "".
Proof. by destruct s. Qed.

Lemma string_drop_nonempty (n : nat) (s : string) :
  n < String.length s -> string_drop n s <> "".
Proof.
  revert s. induction n as [|n IH]; intros s Hn.
  - destruct s; simpl in *; [lia|done].
  - destruct s as [|c s]; simpl in *; [lia|]. apply IH. lia.
Qed.

Lemma DecodeRuneInString_size (s : string) :
  s <> "" -> 1 <= (DecodeRuneInString s).2.
Proof.
  intros Hs. unfold DecodeRuneInString.
  repeat (case_match; simpl; try lia; try done).
Qed.

(** The leading runes are white space exactly when the forward search for
    a rune that is not finds nothing. *)
Lemma indexFunc_not_None (f : N -> bool) (fuel i : nat) (s : string) :
  indexFunc_not f fuel i s = None <-> Forall (fun r => f r = true) (runes_fuel fuel s).
Proof.
  revert i s. induction fuel as [|fuel IH]; intros i s; cbn [indexFunc_not runes_fuel]; [done|].
  destruct s as [|c s]; [done|].
  destruct (DecodeRuneInString (String c s)) as [r size].
  destruct (f r) eqn:Hf.
  - rewrite IH. split; [by constructor|by intros [_ ?]%Forall_cons].
  - split; [done|]. intros [? _]%Forall_cons. congruence.
Qed.

Lemma indexFunc_not_Some (f : N -> bool) (fuel i j : nat) (s : string) :
  indexFunc_not f fuel i s = Some j ->
  exists k,
    j = i + k
    /\ string_drop k s <> ""
    /\ f (DecodeRuneInString (string_drop k s)).1 = false.
Proof.
  revert i s. induction fuel as [|fuel IH]; intros i s; cbn [indexFunc_not runes_fuel]; [done|].
  destruct s as [|c s]; [done|].
  destruct (DecodeRuneInString (String c s)) as [r size] eqn:Hdec.
  destruct (f r) eqn:Hf.
  - intros (k & -> & Hne & Hk)%IH. exists (size + k).
    rewrite <- string_drop_drop. split; [lia|done].
  - intros [= <-]. exists 0. cbn [string_drop]. rewrite Hdec. split; [lia|done].
Qed.

Lemma IsSpace_RuneError : IsSpace RuneError = false.
Proof. reflexivity. Qed.

(** A white-space rune decoded from a prefix of [t] is the first rune
    of [t]. *)
Lemma DecodeRuneInString_take (i : nat) (t : string) (r : N) :
  DecodeRuneInString (string_take i t) = (r, i) ->
  IsSpace r = true ->
  DecodeRuneInString t = (r, i).
Proof.
  intros Hdec Hsp.
  assert (r <> RuneError) as Hr by (intros ->; by rewrite IsSpace_RuneError in Hsp).
  clear Hsp. revert Hdec.
  destruct t as [|c0 [|c1 [|c2 [|c3 t]]]];
    destruct i as [|[|[|[|[|i]]]]]; cbn [string_take]; try done;
    unfold DecodeRuneInString;
    repeat (case_match; try done); intros; simplify_eq; done.
Qed.

Lemma rune_start_back_le (s : string) (lim start steps k : nat) :
  rune_start_back s lim start steps = Some k ->
  steps = S start - lim -> lim <= S start -> k <= start.
Proof.
  revert start. induction steps as [|steps IH]; intros start; cbn [rune_start_back].
  - destruct (decide (lim = 0)); [done|]. intros [= <-]. lia.
  - destruct (RuneStart (byte_at s start)); [intros [= <-]; lia|].
    destruct start as [|start']; [done|].
    intros Hk Hsteps Hlim. apply IH in Hk; lia.
Qed.

(** The last rune of a non-empty string has a width of at least one byte
    and of at most the length of the string. *)
Lemma DecodeLastRuneInString_size (u : string) :
  u <> "" ->
  1 <= (DecodeLastRuneInString u).2 <= String.length u.
Proof.
  intros Hu. unfold DecodeLastRuneInString.
  destruct (String.length u) as [|start] eqn:Hlen; [by destruct u|].
  destruct (byte_at u start <? 128)%N; [simpl; lia|].
  set (start' := match start with
                 | 0 => None
                 | S st => rune_start_back u (S start - 4) st (S st - (S start - 4))
                 end).
  assert (default 0 start' <= start) as Hle.
  { subst start'. destruct start as [|st]; [done|].
    destruct (rune_start_back u (S (S st) - 4) st (S st - (S (S st) - 4)))
      as [k|] eqn:Hk; simpl; [|lia].
    apply rune_start_back_le in Hk; lia. }
  destruct (DecodeRuneInString (string_drop (default 0 start') u)) as [r size].
  destruct (decide (default 0 start' + size = S start)); simpl; lia.
Qed.

(** A white-space rune that [DecodeLastRuneInString] takes from the whole
    of [u] is the first rune of [u]. *)
Lemma DecodeLastRuneInString_whole (u : string) (r : N) :
  DecodeLastRuneInString u = (r, String.length u) ->
  IsSpace r = true ->
  DecodeRuneInString u = (r, String.length u).
Proof.
  intros Hdec Hsp.
  assert (r <> RuneError) as Hr by (intros ->; by rewrite IsSpace_RuneError in Hsp).
  revert Hdec. unfold DecodeLastRuneInString.
  destruct (String.length u) as [|start] eqn:Hlen; [by intros [= <-]|].
  destruct (byte_at u start <? 128)%N eqn:Hascii.
  - intros [= <- <-].
    destruct u as [|c [|c' u]]; try done.
    unfold byte_at in *. simpl in *. by rewrite Hascii.
  - set (start' := match start with
                   | 0 => None
                   | S st => rune_start_back u (S start - 4) st (S st - (S start - 4))
                   end).
    destruct (DecodeRuneInString (string_drop (default 0 start') u))
      as [r' size] eqn:Hd.
    destruct (decide (default 0 start' + size = S start)) as [Heq|Hne];
      [|by intros [= <-]].
    intros [= -> ->].
    assert (default 0 start' = 0) as H0 by lia.
    by rewrite H0 in Hd.
Qed.

(** Walking back from the end of a string whose first rune is not white
    space, the search for such a rune succeeds. *)
Lemma lastIndexFunc_not_Some (fuel i : nat) (t : string) :
  IsSpace (DecodeRuneInString t).1 = false ->
  1 <= i <= String.length t ->
  i <= fuel ->
  exists j, lastIndexFunc_not IsSpace fuel i t = Some j /\ j < i.
Proof.
  intros Hfirst. revert i. induction fuel as [|fuel IH]; intros i Hi Hfuel; [lia|].
  cbn [lastIndexFunc_not]. destruct i as [|i']; [lia|].
  set (i := S i') in *.
  assert (string_take i t <> "") as Hne.
  { subst i. destruct t; simpl in *; [lia|done]. }
  pose proof (DecodeLastRuneInString_size _ Hne) as Hsize.
  rewrite string_take_length in Hsize by lia.
  destruct (DecodeLastRuneInString (string_take i t)) as [r size] eqn:Hdec.
  simpl in Hsize.
  destruct (IsSpace r) eqn:Hsp; [|exists (i - size); split; [done|lia]].
  destruct (decide (size = i)) as [->|Hlt].
  - exfalso.
    rewrite <- (string_take_length i t) in Hdec at 2 by lia.
    apply DecodeLastRuneInString_whole in Hdec; [|done].
    rewrite string_take_length in Hdec by lia.
    apply DecodeRuneInString_take in Hdec; [|done].
    rewrite Hdec in Hfirst. simpl in Hfirst. congruence.
  - destruct (IH (i - size)) as (j & Hj & Hlt'); [lia..|].
    exists j. split; [done|lia].
Qed.

Lemma TrimRightFunc_nonempty (t : string) :
  t <> "" ->
  IsSpace (DecodeRuneInString t).1 = false ->
  TrimRightFunc t IsSpace <> "".
Proof.
  intros Hne Hfirst. unfold TrimRightFunc.
  assert (1 <= String.length t) as Hlen by (destruct t; simpl; [done|lia]).
  destruct (lastIndexFunc_not_Some (String.length t) (String.length t) t)
    as (j & -> & Hj); [done|lia..|].
  destruct (128 <=? byte_at t j)%N.
  - pose proof (DecodeRuneInString_size (string_drop j t)
                  (string_drop_nonempty j t Hj)) as Hwid.
    destruct (DecodeRuneInString (string_drop j t)) as [r wid]. simpl in Hwid.
    replace (j + wid) with (S (j + wid - 1)) by lia.
    by apply string_take_nonempty.
  - replace (j + 1) with (S j) by lia. by apply string_take_nonempty.
Qed.

(** What [strings.TrimSpace] leaves of [s] is empty exactly when every rune
    of [s] is white space. *)
Lemma TrimSpace_empty (s : string) :
  strings_TrimSpace s = "" <-> Forall (fun r => IsSpace r = true) (runes s).
Proof.
  unfold strings_TrimSpace, TrimFunc, TrimLeftFunc, runes.
  rewrite <- (indexFunc_not_None IsSpace (String.length s) 0 s).
  destruct (indexFunc_not IsSpace (String.length s) 0 s) as [j|] eqn:Hi.
  - apply indexFunc_not_Some in Hi as (k & -> & Hne & Hfirst).
    split; [|done]. intros Hempty. by apply TrimRightFunc_nonempty in Hempty.
  - done.
Qed.

Lemma not_all_space (l : list N) :
  ~ Forall (fun r => IsSpace r = true) l <-> Exists (fun r => IsSpace r = false) l.
Proof.
  split.
  - intros Hn. induction l as [|r l IH]; [destruct Hn; constructor|].
    destruct (IsSpace r) eqn:Hr; [|by left].
    right. apply IH. intros Hall. apply Hn. by constructor.
  - induction 1 as [r l Hr|r l _ IH]; intros [Hr' Hall]%Forall_cons;
      [congruence|auto].
Qed.

(** What [strings.TrimSpace] leaves of [s] is not empty exactly when [s]
    contains a character that is not white space. *)
Lemma TrimSpace_nonempty (s : string) :
  strings_TrimSpace s <> "" <-> has_non_space s.
Proof. rewrite TrimSpace_empty. apply not_all_space. Qed.

(** ** [QemuConfig.Prepare] *)

(** The loop of [Prepare] appends one error per rejected group. *)
Lemma Prepare_range_spec (i : nat) (groups : list (list string)) (errs : list string) :
  exists new,
    QemuConfig.Prepare_range i groups errs = errs ++ new
    /\ length new = length (filter rejected groups)
    /\ (new = [] <-> Forall (fun args => ~ rejected args) groups).
Proof.
  revert i errs. induction groups as [|args groups IH]; intros i errs.
  - exists []. by rewrite app_nil_r.
  - cbn [QemuConfig.Prepare_range].
    destruct (decide (length args = 0)) as [Hlen|Hlen].
    { apply length_zero_iff_nil in Hlen as ->.
      edestruct IH as (new & -> & Hl & Hn).
      eexists (_ :: new). rewrite <- app_assoc. split; [done|].
      rewrite filter_cons_True by (by left). simpl. split; [by rewrite Hl|].
      split; [done|]. intros [Hr _]%Forall_cons. destruct Hr. by left. }
    destruct (decide (strings_TrimSpace (strings_Join args " ") = "")) as [Htrim|Htrim].
    { edestruct IH as (new & -> & Hl & Hn).
      eexists (_ :: new). rewrite <- app_assoc. split; [done|].
      rewrite filter_cons_True by (by right). simpl. split; [by rewrite Hl|].
      split; [done|]. intros [Hr _]%Forall_cons. destruct Hr. by right. }
    assert (~ rejected args) as Hok.
    { intros [->|?]; done. }
    edestruct IH as (new & -> & Hl & Hn).
    exists new. split; [done|].
    rewrite filter_cons_False by done. split; [done|].
    rewrite Hn. split; [by constructor|by intros [_ ?]%Forall_cons].
Qed.

(** C10.  [Prepare] returns exactly one error for each argument group that
    is empty or whose tokens, joined by single spaces, trim to the empty
    string; it returns no error if and only if every group is non-empty and
    joins to a string that contains a character that is not white space; and
    an empty (or nil) outer list yields no error. *)
Theorem Prepare_errors (c : QemuConfig.t) :
  length (QemuConfig.Prepare c) = length (filter rejected (QemuConfig.QemuArgs c))
  /\ (QemuConfig.Prepare c = [] <->
      Forall (fun args => args <> [] /\ has_non_space (strings_Join args " "))
             (QemuConfig.QemuArgs c))
  /\ (QemuConfig.QemuArgs c = [] -> QemuConfig.Prepare c = []).
Proof.
  unfold QemuConfig.Prepare.
  destruct (Prepare_range_spec 0 (QemuConfig.QemuArgs c) []) as (new & -> & Hl & Hn).
  simpl. split; [done|]. split.
  - rewrite Hn. apply Forall_proper; [|done].
    intros args. rewrite <- TrimSpace_nonempty. unfold rejected. tauto.
  - intros Hnil. apply Hn. rewrite Hnil. constructor.
Qed.
(** * Further properties *)

(** ** [QemuConfig.Prepare]: the messages *)

Lemma Prepare_range_errors (i : nat) (groups : list (list string)) (errs : list string) :
  QemuConfig.Prepare_range i groups errs
  = errs ++ omap id (imap (fun j => Prepare_error (i + j)) groups).
Proof.
  revert i errs. induction groups as [|args groups IH]; intros i errs.
  - by rewrite app_nil_r.
  - cbn [QemuConfig.Prepare_range imap omap]. unfold Prepare_error at 1.
    rewrite Nat.add_0_r.
    assert (imap ((λ j : nat, Prepare_error (i + j)) ∘ S) groups
            = imap (fun j => Prepare_error (S i + j)) groups) as ->.
    { apply imap_ext. intros j x _. simpl. f_equal. lia. }
    destruct (decide (length args = 0)) as [Hlen|Hlen].
    { apply length_zero_iff_nil in Hlen as ->. simpl.
      by rewrite IH, <- app_assoc. }
    destruct (decide (args = [])) as [->|_]; [done|].
    destruct (decide (strings_TrimSpace (strings_Join args " ") = "")); simpl.
    + by rewrite IH, <- app_assoc.
    + apply IH.
Qed.

(** X1.  The errors of [Prepare] come in the order of the groups, one for
    each rejected group, and each names the (zero-based) position of its
    group in [qemuargs]: "empty argument list" for a group without token,
    "argument resolves to empty string" for a group whose tokens join to
    white space only.  Accepted groups contribute nothing. *)
Theorem Prepare_messages (c : QemuConfig.t) :
  QemuConfig.Prepare c = omap id (imap Prepare_error (QemuConfig.QemuArgs c))
  /\ (forall msg,
        msg ∈ QemuConfig.Prepare c <->
        exists i args,
          QemuConfig.QemuArgs c !! i = Some args /\ Prepare_error i args = Some msg).
Proof.
  assert (QemuConfig.Prepare c = omap id (imap Prepare_error (QemuConfig.QemuArgs c)))
    as Heq.
  { unfold QemuConfig.Prepare. by rewrite Prepare_range_errors. }
  split; [done|]. intros msg. rewrite Heq, list_elem_of_omap. split.
  - intros (o & Hin & Ho). simpl in Ho. subst o.
    apply elem_of_lookup_imap in Hin as (i & args & Hm & Hl). eauto.
  - intros (i & args & Hl & Hm). exists (Some msg). split; [|done].
    apply elem_of_lookup_imap. eauto.
Qed.

(** ** [QemuConfig.Prepare]: which groups are rejected *)

(** A space after a token ends the rune that is being decoded: the first
    rune of a token is decoded alike inside the joined string. *)
Lemma DecodeRuneInString_before_space (a rest : string) :
  a <> "" ->
  DecodeRuneInString (a +:+ String " " rest) = DecodeRuneInString a.
Proof.
  intros Ha.
  destruct a as [|c0 [|c1 [|c2 [|c3 a]]]]; [done|..];
    unfold String.append; fold String.append; unfold DecodeRuneInString;
    change (byte_val " ") with 32%N;
    generalize (byte_val c0); intros b0.
  - destruct (b0 <? 128)%N; [done|].
    destruct ((b0 <? 194) || (244 <? b0))%N; [done|].
    by repeat case_match.
  - generalize (byte_val c1); intros b1.
    destruct (b0 <? 128)%N; [done|].
    destruct ((b0 <? 194) || (244 <? b0))%N; [done|].
    repeat (case_match; try done).
  - generalize (byte_val c1) (byte_val c2); intros b1 b2.
    repeat (case_match; try done).
  - done.
Qed.

Lemma string_drop_length (n : nat) (s : string) :
  String.length (string_drop n s) = String.length s - n.
Proof.
  revert s. induction n as [|n IH]; intros s; simpl; [lia|].
  destruct s as [|c s]; simpl; [done|]. apply IH.
Qed.

Lemma DecodeRuneInString_le (s : string) :
  (DecodeRuneInString s).2 <= String.length s.
Proof.
  unfold DecodeRuneInString.
  repeat (case_match; simpl; try lia).
Qed.

Lemma string_drop_app (n : nat) (a b : string) :
  n <= String.length a -> string_drop n (a +:+ b) = string_drop n a +:+ b.
Proof.
  revert a. induction n as [|n IH]; intros a Hn; [done|].
  destruct a as [|c a]; simpl in Hn; [lia|].
  unfold String.append; fold String.append. simpl. apply IH. lia.
Qed.

(** Fuel beyond the length of the string is not used. *)
Lemma runes_fuel_irrel (f1 f2 : nat) (s : string) :
  String.length s <= f1 -> String.length s <= f2 ->
  runes_fuel f1 s = runes_fuel f2 s.
Proof.
  revert f2 s. induction f1 as [|f1 IH]; intros f2 s H1 H2.
  - destruct s; cbn [String.length] in *; [by destruct f2|exfalso; lia].
  - destruct f2 as [|f2]; [destruct s; cbn [String.length] in *; [done|exfalso; lia]|].
    cbn [runes_fuel]. destruct s as [|c s]; [done|].
    pose proof (DecodeRuneInString_size (String c s) ltac:(done)) as Hsz.
    destruct (DecodeRuneInString (String c s)) as [r size]. simpl in Hsz.
    f_equal. apply IH; rewrite string_drop_length; cbn [String.length] in *; lia.
Qed.

Lemma runes_fuel_enough (fuel : nat) (s : string) :
  String.length s <= fuel -> runes_fuel fuel s = runes s.
Proof. intros Hf. by apply runes_fuel_irrel. Qed.

Lemma runes_cons (s : string) :
  s <> "" ->
  runes s
  = (DecodeRuneInString s).1 :: runes (string_drop (DecodeRuneInString s).2 s).
Proof.
  intros Hs. unfold runes at 1.
  destruct s as [|c s]; [done|].
  cbn [String.length runes_fuel].
  pose proof (DecodeRuneInString_size (String c s) ltac:(done)) as Hsz.
  destruct (DecodeRuneInString (String c s)) as [r size]. simpl in *.
  f_equal. apply runes_fuel_enough. rewrite string_drop_length. simpl. lia.
Qed.

(** The runes of two strings joined by a space. *)
Lemma runes_app_space (a rest : string) :
  runes (a +:+ String " " rest) = runes a ++ 32%N :: runes rest.
Proof.
  remember (String.length a) as n eqn:Hn. revert a Hn.
  induction n as [n IH] using lt_wf_ind. intros a ->.
  destruct (decide (a = "")) as [->|Ha].
  - unfold String.append. rewrite runes_cons by done. done.
  - rewrite runes_cons by (by destruct a).
    rewrite DecodeRuneInString_before_space by done.
    rewrite (runes_cons a) by done.
    pose proof (DecodeRuneInString_size a Ha) as Hsz.
    pose proof (DecodeRuneInString_le a) as Hle.
    rewrite string_drop_app by done. simpl. f_equal.
    eapply IH; [|done]. rewrite string_drop_length. lia.
Qed.

(** The joined tokens are white space exactly when every token is. *)
Lemma Join_blank (args : list string) :
  Forall (fun r => IsSpace r = true) (runes (strings_Join args " "))
  <-> Forall blank args.
Proof.
  induction args as [|a [|b args] IH].
  - done.
  - simpl. split; [by repeat constructor|by intros [? _]%Forall_cons].
  - change (strings_Join (a :: b :: args) " ")
      with (a +:+ String " " (strings_Join (b :: args) " ")).
    rewrite runes_app_space, Forall_app, Forall_cons, IH, (Forall_cons _ a).
    unfold blank at 2. intuition.
Qed.

Lemma rejected_blank (args : list string) : rejected args <-> Forall blank args.
Proof.
  unfold rejected. rewrite TrimSpace_empty, Join_blank.
  split; [|tauto]. intros [->|?]; [constructor|done].
Qed.

(** X2.  [Prepare] rejects a group exactly when all its tokens are blank,
    that is, made of white space only: a group without token is the
    special case of no token at all.  So the number of errors is the number
    of groups without a token that is not blank, and [Prepare] accepts the
    configuration exactly when every group has a token that holds a
    character other than white space. *)
Theorem Prepare_rejects_blank_groups (c : QemuConfig.t) :
  length (QemuConfig.Prepare c)
  = length (filter (fun args => Forall blank args) (QemuConfig.QemuArgs c))
  /\ (QemuConfig.Prepare c = [] <->
      Forall (fun args => Exists (fun token => ~ blank token) args)
             (QemuConfig.QemuArgs c))
  /\ (forall i args,
        QemuConfig.QemuArgs c !! i = Some args ->
        is_Some (Prepare_error i args) <-> Forall blank args).
Proof.
  unfold QemuConfig.Prepare.
  destruct (Prepare_range_spec 0 (QemuConfig.QemuArgs c) []) as (new & -> & Hl & Hn).
  simpl. split_and!.
  - rewrite Hl. f_equal. apply list_filter_iff. intros args. apply rejected_blank.
  - rewrite Hn. apply Forall_proper; [|done].
    intros args. rewrite rejected_blank.
    split; [by apply not_Forall_Exists; apply _|by apply Exists_not_Forall].
  - intros i args _. rewrite <- rejected_blank. unfold Prepare_error, rejected.
    repeat case_decide; split; intros Hr; try done; try (by eexists); try tauto.
    all: by destruct Hr.
Qed.

(** ** [StepConfigureQemuArgs]: failure of the driver, missing state *)

Section ConfigureQemuArgsFurther.
Context {E : Env}.
Import StepConfigureQemuArgs.

Lemma put_keys_logs (f : string -> string) (l : list string) :
  put_keys (map (fun x => ELog (f x)) l) = [].
Proof. induction l; simpl; auto. Qed.

(** The run with arguments and with the state values present, up to the
    answer [r] of the driver. *)
Lemma Run_with_handles (s : t) (w : World) (vmId : string) :
  QemuArgs s <> [] ->
  bag w !! "driver" = Some VDriver ->
  bag w !! "ui" = Some VUi ->
  bag w !! "vmId" = Some (VString vmId) ->
  let command := add_args_command s vmId in
  let r := ExecuteOsaScript driver (trace w ++ announcement s) command in
  exec Run s w
  = match r with
    | Ok _ =>
      (Returned ActionContinue, s,
       mkWorld (<["userQemuArgs" := VStrings (joined_args s)]> (bag w))
         (trace w ++ announcement s
          ++ [EOsa command r; EPut "userQemuArgs" (VStrings (joined_args s))]))
    | Err e =>
      let msg := "error adding user QEMU additional arguments: " +:+ e in
      (Returned ActionHalt, s,
       mkWorld (<["error" := VError msg]> (bag w))
         (trace w ++ announcement s
          ++ [EOsa command r; EPut "error" (VError msg); EUiError msg]))
    end.
Proof.
  intros Hne Hd Hu Hv command r. subst command r.
  unfold exec, Run, bind, self, state_Get_driver, state_Get_ui, state_Get_string.
  simpl.
  destruct (decide (length (QemuArgs s) = 0)) as [H0|_].
  { destruct (QemuArgs s); [done|discriminate]. }
  rewrite Hd, Hu, Hv. simpl.
  rewrite foldl_snoc_map. simpl. rewrite for_each_log. simpl.
  unfold announcement, add_args_command, joined_args. rewrite length_map. simpl.
  rewrite <- !app_assoc. simpl.
  match goal with
  | |- context [ExecuteOsaScript driver ?t ?c] =>
    destruct (ExecuteOsaScript driver t c) as [output|e] eqn:Hr
  end; simpl; unfold_step; simpl; fold (@app Event); rewrite <- ?app_assoc;
    do 3 f_equal; simpl; by rewrite <- ?app_assoc.
Qed.

(** The run with arguments when a state value is missing. *)
Lemma Run_without_handles (s : t) (w : World) :
  QemuArgs s <> [] -> ~ has_handles w -> exec Run s w = (Panicked, s, w).
Proof.
  intros Hne Hno.
  unfold exec, Run, bind, self, state_Get_driver, state_Get_ui, state_Get_string.
  simpl.
  destruct (decide (length (QemuArgs s) = 0)) as [H0|_].
  { destruct (QemuArgs s); [done|discriminate]. }
  destruct (bag w !! "driver") as [[]|] eqn:Hd; try done.
  destruct (bag w !! "ui") as [[]|] eqn:Hu; try done.
  destruct (bag w !! "vmId") as [[]|] eqn:Hv; try done.
  destruct Hno. unfold has_handles. rewrite Hd, Hu, Hv. eauto.
Qed.

(** X3.  With arguments to add, [Run] first announces their number on the
    UI and logs each joined argument once, in order, and then calls the
    driver once.  When that call fails with the error [e], [Run] halts, the
    message "error adding user QEMU additional arguments: e" is recorded
    under ["error"] and shown on the UI as the last act, and ["userQemuArgs"]
    is not written. *)
Theorem Run_driver_failure (s : t) (w : World) (vmId : string) :
  QemuArgs s <> [] ->
  bag w !! "driver" = Some VDriver ->
  bag w !! "ui" = Some VUi ->
  bag w !! "vmId" = Some (VString vmId) ->
  exists out w' r rest,
    exec Run s w = (out, s, w')
    /\ trace w' = trace w ++ announcement s ++ EOsa (add_args_command s vmId) r :: rest
    /\ driver_calls (announcement s) = []
    /\ put_keys (announcement s) = []
    /\ forall e, r = Err e ->
         let msg := "error adding user QEMU additional arguments: " +:+ e in
         out = Returned ActionHalt
         /\ rest = [EPut "error" (VError msg); EUiError msg]
         /\ bag w' = <["error" := VError msg]> (bag w).
Proof.
  intros Hne Hd Hu Hv.
  pose proof (Run_with_handles s w vmId Hne Hd Hu Hv) as Hrun. simpl in Hrun.
  assert (driver_calls (announcement s) = [] /\ put_keys (announcement s) = [])
    as [Hdc Hpk].
  { unfold announcement. split.
    - apply (driver_calls_logs _ (joined_args s)).
    - apply (put_keys_logs _ (joined_args s)). }
  destruct (ExecuteOsaScript driver (trace w ++ announcement s)
              (add_args_command s vmId)) as [output|e] eqn:Hr.
  - eexists _, _, (Ok output), _. split; [exact Hrun|]. simpl.
    split; [done|]. split; [done|]. split; [done|]. intros e [=].
  - eexists _, _, (Err e), _. split; [exact Hrun|]. simpl.
    split; [done|]. split; [done|]. split; [done|]. by intros ? [= <-].
Qed.

(** X4.  [Run] panics exactly when there are arguments to add and the state
    bag lacks the driver, the UI or a string under ["vmId"]; the panic comes
    before anything is done: nothing is logged, the driver is not called and
    the state bag is as before. *)
Theorem Run_panics_without_handles (s : t) (w : World) :
  ((exec Run s w).1.1 = Panicked <-> QemuArgs s <> [] /\ ~ has_handles w)
  /\ ((exec Run s w).1.1 = Panicked -> exec Run s w = (Panicked, s, w)).
Proof.
  assert ((exec Run s w).1.1 = Panicked -> QemuArgs s <> [] /\ ~ has_handles w)
    as Hpanic.
  { intros Hp. split.
    - intros Hnil. revert Hp.
      unfold exec, Run, bind, self. simpl. rewrite Hnil. done.
    - intros (Hd & Hu & vmId & Hv).
      destruct (decide (QemuArgs s = [])) as [Hnil|Hne].
      + revert Hp. unfold exec, Run, bind, self. simpl. rewrite Hnil. done.
      + pose proof (Run_with_handles s w vmId Hne Hd Hu Hv) as Hrun.
        simpl in Hrun. rewrite Hrun in Hp. by case_match. }
  split; [split; [done|]|].
  - intros [Hne Hno]. by rewrite Run_without_handles.
  - intros [Hne Hno]%Hpanic. by apply Run_without_handles.
Qed.

Lemma osa_calls_announcement (s : t) : osa_calls (announcement s) = [].
Proof.
  rewrite <- osa_calls_driver_calls. unfold announcement.
  change (driver_calls (?e :: ?l)) with (driver_calls l).
  by rewrite (driver_calls_logs _ (joined_args s)).
Qed.

(** X5.  A configuration that [Prepare] accepts gives the driver no blank
    argument: in every run of the step with the same groups, a command
    given to the driver has one argument per group after [--args], and each
    of them holds a character that is not white space. *)
Theorem Prepare_then_Run (c : QemuConfig.t) (s : t) (w : World) :
  QemuArgs s = QemuConfig.QemuArgs c ->
  QemuConfig.Prepare c = [] ->
  exists out w' evs,
    exec Run s w = (out, s, w')
    /\ trace w' = trace w ++ evs
    /\ forall cmd,
         cmd ∈ osa_calls evs ->
         exists vmId args,
           cmd = ["add_qemu_additional_args.applescript"; vmId; "--args"] ++ args
           /\ length args = length (QemuConfig.QemuArgs c)
           /\ Forall has_non_space args.
Proof.
  intros Hargs Hprep.
  assert (Forall has_non_space (joined_args s)) as Hok.
  { unfold joined_args. rewrite Hargs. apply Forall_fmap.
    unfold QemuConfig.Prepare in Hprep.
    destruct (Prepare_range_spec 0 (QemuConfig.QemuArgs c) [])
      as (new & Heq & _ & Hn).
    rewrite Heq in Hprep. simpl in Hprep. apply Hn in Hprep.
    eapply Forall_impl; [exact Hprep|]. intros args Hrej. simpl.
    apply TrimSpace_nonempty. intros Htrim. apply Hrej. by right. }
  destruct (decide (QemuArgs s = [])) as [Hnil|Hne].
  { eexists (Returned ActionContinue), (mkWorld (bag w) (trace w ++ _)), _.
    split; [|split; [reflexivity|]].
    - unfold exec, Run, bind, self. simpl. rewrite Hnil. simpl. reflexivity.
    - simpl. intros cmd Hin. by apply elem_of_nil in Hin. }
  destruct (decide (has_handles w)) as [(Hd & Hu & vmId & Hv)|Hno].
  - pose proof (Run_with_handles s w vmId Hne Hd Hu Hv) as Hrun.
    cbv zeta in Hrun.
    destruct (ExecuteOsaScript driver (trace w ++ announcement s)
                (add_args_command s vmId)) as [output|e];
      eexists _, (mkWorld _ _), _; (split; [exact Hrun|]); (split; [reflexivity|]);
      intros cmd Hin; rewrite osa_calls_app, osa_calls_announcement in Hin;
      simpl in Hin; apply list_elem_of_singleton in Hin as ->;
      exists vmId, (joined_args s); (split; [done|]); (split; [|done]);
      unfold joined_args; by rewrite length_map, Hargs.
  - exists Panicked, w, []. rewrite app_nil_r.
    split; [by apply Run_without_handles|]. split; [done|].
    intros cmd Hin. by apply elem_of_nil in Hin.
Qed.

End ConfigureQemuArgsFurther.

(** ** [StepDownloadGuestAdditions]: failures before the download *)

Section DownloadGuestAdditionsFurther.
Context {E : Env}.
Import StepDownloadGuestAdditions.

(** The run when the version query fails. *)
Lemma Run_version_failure_eq (s : t) (w : World) (e : string) :
  bag w !! "driver" = Some VDriver ->
  bag w !! "ui" = Some VUi ->
  GuestAdditionsMode s <> GuestAdditionsModeDisable ->
  Version driver (trace w) = Err e ->
  let msg := "error reading version for guest additions download: " +:+ e in
  exec Run s w
  = (Returned ActionHalt, s,
     mkWorld (<["error" := VError msg]> (bag w))
             (trace w ++ [EVersion (Err e); EPut "error" (VError msg)])).
Proof.
  intros Hd Hu Hmode Hver msg. subst msg.
  unfold Run. unfold_step. simpl. rewrite Hd, Hu. simpl.
  destruct (decide (_ = GuestAdditionsModeDisable)); [done|].
  simpl. rewrite Hver. simpl. by rewrite <- app_assoc.
Qed.

(** X6.  When the driver cannot tell the version of UTM, [Run] halts right
    after that call: the message "error reading version for guest additions
    download: e" is recorded under ["error"], nothing is shown on the UI,
    the driver is not asked for the guest-tools path, no download is started
    and the receiver is left as it was. *)
Theorem Run_version_failure (s : t) (w : World) (e : string) :
  bag w !! "driver" = Some VDriver ->
  bag w !! "ui" = Some VUi ->
  GuestAdditionsMode s <> GuestAdditionsModeDisable ->
  Version driver (trace w) = Err e ->
  let msg := "error reading version for guest additions download: " +:+ e in
  exists w' evs,
    exec Run s w = (Returned ActionHalt, s, w')
    /\ trace w' = trace w ++ evs
    /\ evs = [EVersion (Err e); EPut "error" (VError msg)]
    /\ bag w' = <["error" := VError msg]> (bag w).
Proof.
  intros Hd Hu Hmode Hver msg.
  eexists (mkWorld _ _), _.
  split; [exact (Run_version_failure_eq s w e Hd Hu Hmode Hver)|].
  split; [reflexivity|]. split; reflexivity.
Qed.

(** X7.  When the URL template cannot be rendered, [Run] halts after the
    version query, its only driver call: the message "error preparing guest
    additions url: e" is recorded under ["error"] and shown on the UI as the
    last act, and no download is started. *)
Theorem Run_render_failure (s : t) (w : World) (version e : string) :
  bag w !! "driver" = Some VDriver ->
  bag w !! "ui" = Some VUi ->
  GuestAdditionsMode s <> GuestAdditionsModeDisable ->
  Version driver (trace w) = Ok version ->
  let s1 := set_Ctx_Data
              {| TemplateVersion := default version (additionsVersionMap !! version) |} s in
  interpolate_Render (GuestAdditionsURL s) (Ctx s1) = Err e ->
  let msg := "error preparing guest additions url: " +:+ e in
  exists w1 evs,
    exec Run s w = (Returned ActionHalt, s1, w1)
    /\ trace w1 = trace w ++ evs ++ [EPut "error" (VError msg); EUiError msg]
    /\ bag w1 = <["error" := VError msg]> (bag w)
    /\ driver_calls evs = [EVersion (Ok version)]
    /\ downloads evs = []
    /\ put_keys evs = [].
Proof.
  intros Hd Hu Hmode Hver s1 Hrender msg. subst s1 msg.
  unfold Run. unfold_step. simpl. rewrite Hd, Hu. simpl.
  destruct (decide (_ = GuestAdditionsModeDisable)); [done|].
  simpl. rewrite Hver. simpl.
  destruct (additionsVersionMap !! _) as [nv|];
    simpl in *; rewrite Hrender; simpl.
  - eexists (mkWorld _ _), [EVersion (Ok version); ELog _].
    split; [reflexivity|]. simpl. rewrite <- !app_assoc. simpl.
    split; [reflexivity|]. split; [reflexivity|]. split; [reflexivity|].
    split; reflexivity.
  - eexists (mkWorld _ _), [EVersion (Ok version)].
    split; [reflexivity|]. simpl. rewrite <- !app_assoc. simpl.
    split; [reflexivity|]. split; [reflexivity|]. split; [reflexivity|].
    split; reflexivity.
Qed.

(** The download never panics and leaves the receiver alone. *)
Lemma downStep_Run_receiver (d : StepDownload) (s : t) (w : World) :
  exists act w', exec (downStep_Run d) s w = (Returned act, s, w').
Proof.
  unfold exec, downStep_Run.
  destruct (StepDownload_Run d _) as [act w']. eauto.
Qed.

(** Every path of [Run] after a successful version query. *)
Lemma Run_after_version (s : t) (w : World) (version : string) :
  bag w !! "driver" = Some VDriver ->
  bag w !! "ui" = Some VUi ->
  GuestAdditionsMode s <> GuestAdditionsModeDisable ->
  Version driver (trace w) = Ok version ->
  let s1 := set_Ctx_Data {| TemplateVersion := template_version version |} s in
  (exists w1 evs msg,
     exec Run s w = (Returned ActionHalt, s1, w1)
     /\ trace w1 = trace w ++ evs
     /\ bag w1 = <["error" := VError msg]> (bag w)
     /\ downloads evs = []
     /\ put_keys evs = ["error"])
  \/ (exists d w1 evs,
        guest_tools_request s d
        /\ exec Run s w = exec (downStep_Run d) s1 w1
        /\ trace w1 = trace w ++ evs
        /\ bag w1 = bag w
        /\ downloads evs = []
        /\ put_keys evs = []).
Proof.
  intros Hd Hu Hmode Hver s1. subst s1. unfold template_version.
  destruct (interpolate_Render (GuestAdditionsURL s)
              (Ctx (set_Ctx_Data
                      {| TemplateVersion := default version (additionsVersionMap !! version) |} s)))
    as [url0|e] eqn:Hrender.
  2: { left.
       unfold Run. unfold_step. simpl. rewrite Hd, Hu. simpl.
       destruct (decide (_ = GuestAdditionsModeDisable)); [done|].
       simpl. rewrite Hver. simpl.
       destruct (additionsVersionMap !! _) as [nv|];
         simpl in *; rewrite Hrender; simpl.
       all: eexists (mkWorld _ _), _, _; split_and!;
         [ reflexivity | trace_eq | reflexivity .. ]. }
  unfold guest_tools_request, request.
  unfold Run. unfold_step.
  simpl; rewrite Hd, Hu; simpl.
  destruct (decide (_ = GuestAdditionsModeDisable)); [done|].
  simpl; rewrite Hver; simpl.
  destruct (additionsVersionMap !! _) as [nv|];
    simpl in *; rewrite Hrender; simpl.
  all: destruct (decide (url0 = "")) as [->|Hurl]; simpl.
  all: try match goal with
    | |- context [GuestToolsIsoPath driver ?t] =>
      destruct (GuestToolsIsoPath driver t) as [[|c path]|e] eqn:Hr
    end; simpl.
  all: decide_all.
  all: first
    [ left; eexists (mkWorld _ _), _, _; split_and!;
      [ reflexivity | trace_eq | reflexivity .. ]
    | right; eexists _, (mkWorld _ _), _;
      (split; [|split; [reflexivity|split; [trace_eq|split_and!; reflexivity]]]) ].
  all: eexists; (split; [|first [left; reflexivity
                                 | right; split; [eassumption|reflexivity]]]).
  all: first [assumption | discriminate].
Qed.

(** [Run] without the driver or the UI in the state bag. *)
Lemma Run_without_driver_or_ui (s : t) (w : World) :
  ~ (bag w !! "driver" = Some VDriver /\ bag w !! "ui" = Some VUi) ->
  exec Run s w = (Panicked, s, w).
Proof.
  intros Hno. unfold Run. unfold_step. simpl.
  destruct (bag w !! "driver") as [[]|] eqn:Hd; try done.
  destruct (bag w !! "ui") as [[]|] eqn:Hu; try done.
  by destruct Hno.
Qed.

(** [Run] in mode "disabled". *)
Lemma Run_mode_disabled (s : t) (w : World) :
  bag w !! "driver" = Some VDriver ->
  bag w !! "ui" = Some VUi ->
  GuestAdditionsMode s = GuestAdditionsModeDisable ->
  exec Run s w
  = (Returned ActionContinue, s,
     mkWorld (bag w)
       (trace w ++ [ELog "Not downloading guest additions since it is disabled."])).
Proof.
  intros Hd Hu Hmode. unfold Run. unfold_step. simpl. rewrite Hd, Hu. simpl.
  destruct (decide (GuestAdditionsMode s = GuestAdditionsModeDisable)); done.
Qed.

(** X8.  The version handed to the URL template is the driver's, except
    that version 4.6.4 of UTM is rewritten to version 0.229.2 of the guest
    tools.  [Run] stores it in the template context of the receiver, keeps
    the user variables of that context, and the receiver stays so whatever
    happens afterwards (rendering failure, halt or download). *)
Theorem Run_template_version (s : t) (w : World) (version : string) :
  bag w !! "driver" = Some VDriver ->
  bag w !! "ui" = Some VUi ->
  GuestAdditionsMode s <> GuestAdditionsModeDisable ->
  Version driver (trace w) = Ok version ->
  exists out s' w',
    exec Run s w = (out, s', w')
    /\ s' = set_Ctx_Data {| TemplateVersion := template_version version |} s
    /\ Data (Ctx s')
       = Some {| TemplateVersion :=
                   if decide (version = "4.6.4") then "0.229.2" else version |}
    /\ UserVariables (Ctx s') = UserVariables (Ctx s).
Proof.
  intros Hd Hu Hmode Hver.
  assert (template_version version
          = if decide (version = "4.6.4") then "0.229.2" else version) as Htv.
  { unfold template_version, additionsVersionMap.
    destruct (decide (version = "4.6.4")) as [->|Hne]; [done|].
    by rewrite lookup_singleton_ne. }
  destruct (Run_after_version s w version Hd Hu Hmode Hver)
    as [(w1 & evs & msg & Hrun & _)|(d & w1 & evs & _ & Hrun & _)].
  - eexists _, _, _. split; [exact Hrun|]. split; [done|]. simpl.
    by rewrite Htv.
  - destruct (downStep_Run_receiver d
                (set_Ctx_Data {| TemplateVersion := template_version version |} s) w1)
      as (act & w' & Hdown).
    rewrite Hdown in Hrun.
    eexists _, _, _. split; [exact Hrun|]. split; [done|]. simpl.
    by rewrite Htv.
Qed.

(** X9.  With the driver and the UI in the state bag, every run ends in one
    of two ways.  Either no download is started: then [Run] returned
    continue in mode "disabled" with the state bag as before, or it halted
    with an error recorded under ["error"].  Or the last act of [Run] is one
    download, whose request gives exactly one URL, never the empty one, the
    result key ["guest_additions_path"], the extension ["iso"], the
    configured target path, and a checksum that is empty or the operator's
    behind ["sha256:"]; up to that download nothing was written into the
    state bag.  [Run] does not panic. *)
Theorem Run_download_request (s : t) (w : World) :
  bag w !! "driver" = Some VDriver ->
  bag w !! "ui" = Some VUi ->
  (exists out s' w' evs,
     exec Run s w = (out, s', w')
     /\ trace w' = trace w ++ evs
     /\ downloads evs = []
     /\ match out with
        | Returned ActionContinue =>
          GuestAdditionsMode s = GuestAdditionsModeDisable /\ bag w' = bag w
        | Returned ActionHalt =>
          exists msg, bag w' = <["error" := VError msg]> (bag w)
        | Panicked => False
        end)
  \/ (exists d s1 w1 evs,
        guest_tools_request s d
        /\ exec Run s w = exec (downStep_Run d) s1 w1
        /\ trace w1 = trace w ++ evs
        /\ bag w1 = bag w
        /\ downloads evs = []
        /\ put_keys evs = []).
Proof.
  intros Hd Hu.
  destruct (decide (GuestAdditionsMode s = GuestAdditionsModeDisable)) as [Hmode|Hmode].
  { left. eexists _, _, (mkWorld _ _), _.
    split; [exact (Run_mode_disabled s w Hd Hu Hmode)|]. split; [reflexivity|].
    split; [reflexivity|]. split; [assumption|reflexivity]. }
  destruct (Version driver (trace w)) as [version|e] eqn:Hver.
  - destruct (Run_after_version s w version Hd Hu Hmode Hver)
      as [(w1 & evs & msg & Hrun & Ht & Hb & Hdl & _)|(d & w1 & evs & Hrest)].
    + left. eexists _, _, _, _. split; [exact Hrun|]. eauto.
    + right. eauto.
  - left. eexists _, _, (mkWorld _ _), _.
    split; [exact (Run_version_failure_eq s w e Hd Hu Hmode Hver)|].
    split; [reflexivity|]. split; [reflexivity|]. simpl. eauto.
Qed.

(** X10.  [Run] panics exactly when the state bag lacks the driver or the
    UI, and this also in mode "disabled", where neither is used; the panic
    comes before anything is done. *)
Theorem Run_panics_without_driver_or_ui (s : t) (w : World) :
  ((exec Run s w).1.1 = Panicked <->
   ~ (bag w !! "driver" = Some VDriver /\ bag w !! "ui" = Some VUi))
  /\ ((exec Run s w).1.1 = Panicked -> exec Run s w = (Panicked, s, w)).
Proof.
  assert ((exec Run s w).1.1 = Panicked ->
          ~ (bag w !! "driver" = Some VDriver /\ bag w !! "ui" = Some VUi)) as Hp.
  { intros Hpanic [Hd Hu].
    destruct (decide (GuestAdditionsMode s = GuestAdditionsModeDisable)) as [Hmode|Hmode].
    { rewrite (Run_mode_disabled s w Hd Hu Hmode) in Hpanic. discriminate. }
    destruct (Version driver (trace w)) as [version|e] eqn:Hver.
    - destruct (Run_after_version s w version Hd Hu Hmode Hver)
        as [(w1 & evs & msg & Hrun & _)|(d & w1 & evs & _ & Hrun & _)].
      + rewrite Hrun in Hpanic. discriminate.
      + destruct (downStep_Run_receiver d
                    (set_Ctx_Data {| TemplateVersion := template_version version |} s) w1)
          as (act & w' & Hdown).
        rewrite Hrun, Hdown in Hpanic. discriminate.
    - rewrite (Run_version_failure_eq s w e Hd Hu Hmode Hver) in Hpanic.
      discriminate. }
  split; [split; [done|]|].
  - intros Hno. rewrite (Run_without_driver_or_ui s w Hno). reflexivity.
  - intros Hno%Hp. exact (Run_without_driver_or_ui s w Hno).
Qed.

End DownloadGuestAdditionsFurther.

(** ** [StepAttachISOs]: why a run halts *)

Section AttachISOsFurther.
Context {E : Env}.
Import StepAttachISOs.

(** The block that makes a path absolute, when it fails. *)
Lemma absolute_error (key p e : string) (s : t) (w : World) :
  filepath_IsAbs p = false ->
  filepath_Abs p = Err e ->
  absolute key p s w = (Return ActionHalt, s, halted w (conversion_error key e)).
Proof.
  intros Habs He. unfold absolute, conversion_error, halted. rewrite Habs, He. simpl.
  unfold_step. simpl. by rewrite <- app_assoc.
Qed.

(** A path is made absolute, or the conversion fails. *)
Lemma absolute_path_cases (p : string) :
  (exists a, absolute_path p = Some a)
  \/ (exists e, filepath_IsAbs p = false /\ filepath_Abs p = Err e).
Proof.
  unfold absolute_path. destruct (filepath_IsAbs p); [left; by eexists|].
  destruct (filepath_Abs p) as [a|e]; [left; by eexists|right; by eexists].
Qed.

(** The three blocks that fill [disksToMount]: each goes through, panics
    on the spot, or halts for a path that cannot be made absolute. *)
Lemma add_boot_iso_cases (ds : list diskToMount) (s : t) (w : World) :
  (exists ds', add_boot_iso ds s w = (Next ds', s, w))
  \/ add_boot_iso ds s w = (Panic, s, w)
  \/ (exists p e,
        AttachBootISO s = true
        /\ bag w !! "iso_path" = Some (VString p)
        /\ filepath_IsAbs p = false
        /\ filepath_Abs p = Err e
        /\ add_boot_iso ds s w
           = (Return ActionHalt, s, halted w (conversion_error "iso_path" e))).
Proof.
  unfold add_boot_iso, bind, self, state_Get_string.
  destruct (AttachBootISO s); [|left; by eexists].
  destruct (bag w !! "iso_path") as [[p| | | | | |]|]; try (right; left; reflexivity).
  destruct (absolute_path_cases p) as [[a Ha]|(e & Habs & He)].
  - rewrite (absolute_ok _ _ a) by done. left. by eexists.
  - rewrite (absolute_error _ _ e) by done. right. right. by exists p, e.
Qed.

Lemma add_cd_files_cases (ds : list diskToMount) (s : t) (w : World) :
  (exists ds', add_cd_files ds s w = (Next ds', s, w))
  \/ add_cd_files ds s w = (Panic, s, w)
  \/ (exists p e,
        bag w !! "cd_path" = Some (VString p)
        /\ filepath_IsAbs p = false
        /\ filepath_Abs p = Err e
        /\ add_cd_files ds s w
           = (Return ActionHalt, s, halted w (conversion_error "cd_path" e))).
Proof.
  unfold add_cd_files, bind, state_GetOk, assert_string, ret, panic.
  destruct (bag w !! "cd_path") as [[p| | | | | |]|];
    try (right; left; reflexivity); [|left; by eexists].
  destruct (absolute_path_cases p) as [[a Ha]|(e & Habs & He)].
  - rewrite (absolute_ok _ _ a) by done. left. by eexists.
  - rewrite (absolute_error _ _ e) by done. right. right. by exists p, e.
Qed.

Lemma add_guest_additions_cases (ds : list diskToMount) (s : t) (w : World) :
  (exists ds' w', add_guest_additions ds s w = (Next ds', s, w'))
  \/ add_guest_additions ds s w = (Panic, s, w)
  \/ (exists p e,
        GuestAdditionsMode s = GuestAdditionsModeAttach
        /\ bag w !! "guest_additions_path" = Some (VString p)
        /\ filepath_IsAbs p = false
        /\ filepath_Abs p = Err e
        /\ add_guest_additions ds s w
           = (Return ActionHalt, s,
              halted w (conversion_error "guest_additions_path" e))).
Proof.
  unfold add_guest_additions, bind, self, state_Get_string.
  destruct (decide (GuestAdditionsMode s <> GuestAdditionsModeAttach)) as [Hm|Hm].
  { left. unfold_step. simpl. by eexists _, (mkWorld _ _). }
  apply dec_stable in Hm.
  destruct (bag w !! "guest_additions_path") as [[p| | | | | |]|];
    try (right; left; reflexivity).
  destruct (absolute_path_cases p) as [[a Ha]|(e & Habs & He)].
  - rewrite (absolute_ok _ _ a) by done. left. by eexists _, _.
  - rewrite (absolute_error _ _ e) by done. right. right. by exists p, e.
Qed.

Lemma applicable_boot (s : t) (w : World) :
  AttachBootISO s = true -> "boot_iso" ∈ applicable s w.
Proof.
  intros Hb. unfold applicable. rewrite Hb.
  apply elem_of_app. left. by apply list_elem_of_singleton.
Qed.

Lemma applicable_cd (s : t) (w : World) :
  is_Some (bag w !! "cd_path") -> "cd_files" ∈ applicable s w.
Proof.
  intros [v Hv]. unfold applicable. rewrite Hv.
  apply elem_of_app. right. apply elem_of_app. left.
  by apply list_elem_of_singleton.
Qed.

Lemma applicable_guest (s : t) (w : World) :
  GuestAdditionsMode s = GuestAdditionsModeAttach ->
  "guest_additions" ∈ applicable s w.
Proof.
  intros Hm. unfold applicable.
  destruct (decide (GuestAdditionsMode s = GuestAdditionsModeAttach)); [|done].
  apply elem_of_app. right. apply elem_of_app. right.
  by apply list_elem_of_singleton.
Qed.

(** The part of [Run] before the loop, when it does not go through: it
    panics with the world as it was, or it halts for a path that cannot
    be made absolute. *)
Lemma collect_disks_failure (s : t) (w : World) :
  match collect_disks s w with
  | (Next _, _, _) => True
  | (Return _, _, w') =>
    exists cat p e,
      cat ∈ applicable s w
      /\ bag w !! source_key cat = Some (VString p)
      /\ filepath_IsAbs p = false
      /\ filepath_Abs p = Err e
      /\ w' = halted w (conversion_error (source_key cat) e)
  | (Panic, _, w') => w' = w
  end.
Proof.
  unfold collect_disks. unfold bind at 1.
  destruct (add_boot_iso_cases [] s w)
    as [[ds1 ->]|[->|(p & e & Hb & Hp & Habs & He & ->)]]; [|done|].
  2: { exists "boot_iso", p, e. split; [by apply applicable_boot|]. done. }
  unfold bind at 1.
  destruct (add_cd_files_cases ds1 s w)
    as [[ds2 ->]|[->|(p & e & Hp & Habs & He & ->)]]; [|done|].
  2: { exists "cd_files", p, e. split; [apply applicable_cd; by eexists|]. done. }
  destruct (add_guest_additions_cases ds2 s w)
    as [(ds3 & w3 & ->)|[->|(p & e & Hm & Hp & Habs & He & ->)]]; [done|done|].
  exists "guest_additions", p, e. split; [by apply applicable_guest|]. done.
Qed.

(** One iteration of the loop, with the reason when it halts. *)
Lemma attach_disk_failure (vmId : string) (d : diskToMount) (s : t) (w : World) :
  exists fl tbl' w' evs,
    attach_disk vmId d s w = (fl, set_diskUnmountCommands tbl' s, w')
    /\ trace w' = trace w ++ evs
    /\ match fl with
       | Next _ =>
         bag w' = bag w
         /\ put_keys evs = []
         /\ List.filter successful evs = driver_calls evs
         /\ length (driver_calls evs) = 1
       | Return act =>
         act = ActionHalt
         /\ exists msg,
             bag w' = <["error" := VError msg]> (bag w)
             /\ last evs = Some (EUiError msg)
             /\ put_keys evs = ["error"]
             /\ List.filter successful evs = []
             /\ attach_failure s d (driver_calls evs) msg
       | Panic => False
       end.
Proof.
  unfold attach_failure, attach_disk, controller_of, interface_of, no_uuid_error.
  destruct (filepath_EvalSymlinks (isoPath d)) as [p|e].
  2: { eexists _, _, (mkWorld _ _), _. rewrite set_diskUnmountCommands_id.
       unfold_step. simpl. split; [reflexivity|]. split; [trace_eq|].
       split; [reflexivity|]. eexists. split; [reflexivity|].
       split; [reflexivity|]. split; [reflexivity|]. split; [reflexivity|].
       left. eexists. split; [reflexivity|]. split; reflexivity. }
  unfold_step. simpl.
  decide_all.
  all: match goal with
       | |- context [GetControllerEnumCode ?c] =>
         destruct (GetControllerEnumCode c) as [code|?]
       end; simpl.
  all: try match goal with
       | |- context [ExecuteOsaScript driver ?t ?c] =>
         destruct (ExecuteOsaScript driver t c) as [output|?] eqn:Hr
       end; simpl.
  all: try match goal with
       | |- context [FindStringSubmatch ?o] =>
         destruct (FindStringSubmatch o) as [uuid|] eqn:Hu
       end; simpl.
  all: first
    [ eexists _, (diskUnmountCommands s), (mkWorld _ _), _;
      rewrite set_diskUnmountCommands_id; split; [reflexivity|]
    | eexists _, _, (mkWorld _ _), _; split; [reflexivity|] ].
  all: (split; [trace_eq|]).
  all: first
    [ (* attached *)
      split; [reflexivity|]; split; [reflexivity|]; simpl; rewrite Hu; simpl;
      rewrite ?bool_decide_eq_true_2 by (by eexists); split; reflexivity
    | (* halted *)
      split; [reflexivity|]; eexists; split; [reflexivity|];
      split; [reflexivity|]; split; [reflexivity|];
      split; [simpl; rewrite ?Hu; simpl;
              rewrite ?bool_decide_eq_false_2 by (by intros [? [=]]); reflexivity|];
      first
        [ right; left; eexists _, _; split; [reflexivity|];
          split; [reflexivity|]; split; reflexivity
        | right; right; left; eexists _, _; split; reflexivity
        | right; right; right; eexists _, _; split; [reflexivity|];
          split; [eassumption|reflexivity] ] ].
Qed.

(** The loop, with the reason when it halts: all candidates before the
    failing one were attached, and these successful attachments are all the
    driver calls made before those of the failing attachment. *)
Lemma attach_loop_failure (vmId : string) (disks : list diskToMount) (s : t)
    (w : World) :
  exists fl tbl' w' evs,
    for_each disks (attach_disk vmId) s w = (fl, set_diskUnmountCommands tbl' s, w')
    /\ trace w' = trace w ++ evs
    /\ match fl with
       | Next _ =>
         bag w' = bag w
         /\ put_keys evs = []
         /\ List.filter successful evs = driver_calls evs
         /\ length (driver_calls evs) = length disks
       | Return act =>
         act = ActionHalt
         /\ exists msg pre d post calls,
             disks = pre ++ d :: post
             /\ bag w' = <["error" := VError msg]> (bag w)
             /\ last evs = Some (EUiError msg)
             /\ put_keys evs = ["error"]
             /\ length (List.filter successful evs) = length pre
             /\ driver_calls evs = List.filter successful evs ++ calls
             /\ attach_failure s d calls msg
       | Panic => False
       end.
Proof.
  revert s w. induction disks as [|d disks IH]; intros s w.
  - exists (Next tt), (diskUnmountCommands s), w, [].
    rewrite set_diskUnmountCommands_id, app_nil_r. done.
  - simpl. unfold bind at 1.
    destruct (attach_disk_failure vmId d s w) as (fl1 & tbl1 & w1 & evs1 & -> & Ht1 & Hcase).
    destruct fl1 as [[]|act|]; [| |done].
    + destruct Hcase as (Hb1 & Hp1 & Hs1 & Hl1).
      destruct (IH (set_diskUnmountCommands tbl1 s) w1)
        as (fl & tbl' & w' & evs2 & -> & Ht2 & Hfl).
      exists fl, tbl', w', (evs1 ++ evs2).
      split; [done|]. split; [by rewrite Ht2, Ht1, app_assoc|].
      rewrite put_keys_app, List.filter_app, driver_calls_app, Hp1, Hs1.
      destruct fl as [[]|act|]; [| |done].
      * destruct Hfl as (Hb2 & Hp2 & Hs2 & Hl2).
        rewrite Hb2, Hp2, Hs2, length_app, Hl1, Hl2. done.
      * destruct Hfl as (-> & msg & pre & d' & post & calls & -> & Hb2 & Hlast & Hp2
                         & Hc2 & Hd2 & Hwhy).
        split; [done|]. exists msg, (d :: pre), d', post, calls.
        split; [done|]. split; [by rewrite Hb2, Hb1|].
        split; [by rewrite last_app, Hlast|]. split; [by rewrite Hp2|].
        split; [rewrite length_app, Hc2, Hl1; done|].
        split; [by rewrite Hd2, app_assoc|]. done.
    + destruct Hcase as (-> & msg & Hb1 & Hlast & Hp1 & Hs1 & Hwhy).
      exists (Return ActionHalt), tbl1, w1, evs1.
      split; [done|]. split; [done|]. split; [done|].
      exists msg, [], d, disks, (driver_calls evs1).
      rewrite Hs1. done.
Qed.

(** X11.  Every halt of [Run] is accounted for.  A run that halts has
    written exactly one key into the state bag, ["error"], and has shown the
    same message on the UI as its last act; the message tells the reason:
    a path of an applicable category that could not be made absolute (then
    the driver was not called at all), or a failure in the attachment of the
    first category not yet attached, namely a symbolic link that could not
    be resolved, an interface without controller code (the error of
    [GetControllerEnumCode], as it is), a failed driver call, or a driver
    answer without drive identifier; the driver calls made before are the
    successful attachments.  A run that returns continue has not written
    ["error"], and all its driver calls, one per applicable category, were
    successful attachments.  A run that panics has called no driver method
    and has left the state bag as it was. *)
Theorem Run_halt_reason (s : t) (w : World) :
  exists out s' w' evs,
    exec Run s w = (out, s', w')
    /\ trace w' = trace w ++ evs
    /\ match out with
       | Returned ActionHalt =>
         exists msg,
           bag w' = <["error" := VError msg]> (bag w)
           /\ put_keys evs = ["error"]
           /\ last evs = Some (EUiError msg)
           /\ halt_reason s w evs msg
       | Returned ActionContinue =>
         ("error" ∉ put_keys evs)
         /\ driver_calls evs = List.filter successful evs
         /\ length (driver_calls evs) = length (applicable s w)
       | Panicked =>
         bag w' = bag w /\ put_keys evs = [] /\ driver_calls evs = []
       end.
Proof.
  unfold exec, Run. unfold bind at 1. unfold state_Get_ui.
  destruct (bag w !! "ui") as [v|] eqn:Hui.
  2: { exists Panicked, s, w, []. by rewrite app_nil_r. }
  assert (v = VUi \/ v <> VUi) as [->|Hv] by (destruct v; (by left) || (by right)).
  2: { exists Panicked, s, w, []. rewrite app_nil_r. split; [by destruct v|]. done. }
  unfold bind at 1. unfold ui_Say, emit. unfold bind at 1. unfold self.
  unfold bind at 1. unfold set_self. unfold bind at 1.
  set (s0 := set_diskUnmountCommands ∅ s).
  set (w1 := mkWorld (bag w) (trace w ++ [EUiSay "Mounting ISOs..."])).
  pose proof (collect_disks_spec s0 w1) as (Hs1 & evs0 & Ht0 & Hd0 & Hfl).
  pose proof (collect_disks_failure s0 w1) as Hfail.
  change (applicable s0 w1) with (applicable s w) in Hfl, Hfail.
  change (candidate w1) with (candidate w) in Hfl.
  change (bag w1) with (bag w) in Hfail.
  destruct (collect_disks s0 w1) as [[fl s1] w2]. simpl in Hs1, Ht0, Hfl. subst s1.
  assert (trace w2 = trace w ++ EUiSay "Mounting ISOs..." :: evs0) as Ht0'.
  { rewrite Ht0. subst w1. simpl. by rewrite <- app_assoc. }
  assert (List.filter successful evs0 = []) as Hs0
    by (by apply successful_no_driver_calls).
  destruct fl as [disks|act|].
  2: { destruct Hfail as (cat & p & e & Hcat & Hp & Habs & He & ->).
       destruct Hfl as (-> & _).
       exists (Returned ActionHalt), s0,
         (halted w1 (conversion_error (source_key cat) e)),
         [EUiSay "Mounting ISOs...";
          EPut "error" (VError (conversion_error (source_key cat) e));
          EUiError (conversion_error (source_key cat) e)].
       split; [done|]. split; [simpl; by rewrite <- app_assoc|].
       eexists. split; [reflexivity|]. split; [reflexivity|]. split; [reflexivity|].
       left. by exists cat, p, e. }
  2: { subst w2. exists Panicked, s0, w1, [EUiSay "Mounting ISOs..."]. done. }
  clear Hfail.
  destruct Hfl as (Hb0 & Hp0 & Hcand).
  change (bag w1) with (bag w) in Hb0.
  pose proof (Forall2_length _ _ _ Hcand) as Hlen2.
  destruct (decide (length disks = 0)) as [Hlen|Hlen].
  { apply length_zero_iff_nil in Hlen as ->.
    apply Forall2_nil_inv_r in Hcand.
    eexists (Returned ActionContinue), s0, (mkWorld _ _),
      (EUiSay "Mounting ISOs..."
       :: evs0 ++ [EUiMessage "No ISOs to mount; continuing..."]).
    unfold_step. simpl. split; [reflexivity|].
    split; [rewrite Ht0'; by rewrite <- app_assoc|].
    rewrite put_keys_app, driver_calls_app, List.filter_app, Hp0, Hd0, Hs0, Hcand.
    simpl. split; [apply not_elem_of_nil|done]. }
  unfold bind at 1. unfold state_Get_driver. rewrite Hb0.
  destruct (bag w !! "driver") as [v|] eqn:Hdrv.
  2: { exists Panicked, s0, w2, (EUiSay "Mounting ISOs..." :: evs0). done. }
  assert (v = VDriver \/ v <> VDriver) as [->|Hv]
    by (destruct v; (by left) || (by right)).
  2: { exists Panicked, s0, w2, (EUiSay "Mounting ISOs..." :: evs0).
       split; [by destruct v|]. done. }
  unfold bind at 1. unfold state_Get_string. rewrite Hb0.
  destruct (bag w !! "vmId") as [v|] eqn:Hvm.
  2: { exists Panicked, s0, w2, (EUiSay "Mounting ISOs..." :: evs0). done. }
  assert ((exists vmId, v = VString vmId) \/ ~ (exists vmId, v = VString vmId))
    as [[vmId ->]|Hv]
    by (destruct v; (left; by eexists) || (right; by intros [? [=]])).
  2: { exists Panicked, s0, w2, (EUiSay "Mounting ISOs..." :: evs0).
       split; [destruct v; try done; destruct Hv; by eexists|]. done. }
  unfold bind at 1.
  destruct (attach_loop_failure vmId disks s0 w2)
    as (fl & tbl' & w3 & evsl & -> & Htl & Hfl).
  destruct fl as [[]|act|]; [| |done].
  - destruct Hfl as (Hb3 & Hp3 & Hs3 & Hl3).
    eexists (Returned ActionContinue), _, (mkWorld _ _),
      (EUiSay "Mounting ISOs..."
       :: evs0 ++ evsl ++ [EPut "disk_unmount_commands" (VCommands tbl')]).
    unfold_step. simpl. split; [reflexivity|].
    split; [rewrite Htl, Ht0'; simpl; by rewrite <- !app_assoc|].
    rewrite !put_keys_app, !driver_calls_app, !List.filter_app, Hp0, Hd0, Hs0, Hp3, Hs3.
    simpl. rewrite !app_nil_r.
    split; [by intros ?%list_elem_of_singleton|]. split; [done|lia].
  - destruct Hfl as (-> & msg & pre & d & post & calls & -> & Hb3 & Hlast & Hp3
                     & Hc3 & Hd3 & Hwhy).
    exists (Returned ActionHalt), (set_diskUnmountCommands tbl' s0), w3,
      (EUiSay "Mounting ISOs..." :: evs0 ++ evsl).
    split; [done|].
    split; [rewrite Htl, Ht0'; simpl; by rewrite <- !app_assoc|].
    exists msg. split; [by rewrite Hb3, Hb0|].
    split; [simpl; by rewrite put_keys_app, Hp0, Hp3|].
    split.
    { change (EUiSay "Mounting ISOs..." :: evs0 ++ evsl)
        with ((EUiSay "Mounting ISOs..." :: evs0) ++ evsl).
      by rewrite last_app, Hlast. }
    right.
    assert ((pre ++ d :: post) !! length pre = Some d) as Hd.
    { by rewrite list_lookup_middle. }
    destruct (Forall2_lookup_r _ _ _ _ _ Hcand Hd) as (cat & Hcat & Hcd).
    exists (length pre), cat, d, calls.
    split; [done|]. split; [done|]. simpl.
    rewrite driver_calls_app, List.filter_app, Hd0, Hs0. simpl.
    split; [done|]. split; [done|]. exact Hwhy.
Qed.

(** ** [StepAttachISOs]: the reversal table and the round trip with [Cleanup] *)

Lemma attached_drives_app (t1 t2 : list Event) :
  attached_drives (t1 ++ t2) = attached_drives t1 ++ attached_drives t2.
Proof. apply omap_app. Qed.

Lemma attached_drives_driver_calls (evs : list Event) :
  attached_drives (driver_calls evs) = attached_drives evs.
Proof.
  induction evs as [|e evs IH]; [done|].
  destruct e as [cmd [o|m]| | | | | | | |]; simpl; rewrite ?IH; done.
Qed.

Lemma attached_drives_successful (evs : list Event) :
  length (attached_drives evs) = length (List.filter successful evs).
Proof.
  induction evs as [|e evs IH]; [done|].
  destruct e as [cmd [o|m]| | | | | | | |]; simpl; try done.
  destruct (FindStringSubmatch o) as [uuid|] eqn:Hu; simpl; by rewrite ?IH.
Qed.

(** The table after the loop: one entry more for each successful
    attachment, under the category of its candidate. *)
Lemma attach_loop_table (vmId : string) (disks : list diskToMount) (s : t)
    (w : World) :
  NoDup (map category disks) ->
  exists fl tbl' w' evs,
    for_each disks (attach_disk vmId) s w = (fl, set_diskUnmountCommands tbl' s, w')
    /\ trace w' = trace w ++ evs
    /\ tbl' = list_to_map (zip (map category disks)
                             (map (unmount_command vmId) (attached_drives evs)))
              ∪ diskUnmountCommands s
    /\ length (attached_drives evs) <= length disks
    /\ (attached_drives evs = [] \/ disks <> [])
    /\ match fl with
       | Next _ => bag w' = bag w
       | Return _ => exists msg, bag w' = <["error" := VError msg]> (bag w)
       | Panic => False
       end.
Proof.
  revert s w. induction disks as [|d disks IH]; intros s w Hnd.
  - exists (Next tt), (diskUnmountCommands s), w, [].
    rewrite set_diskUnmountCommands_id, app_nil_r. simpl.
    rewrite (left_id ∅ (∪)). split_and!; try done. by left.
  - simpl in Hnd. apply NoDup_cons in Hnd as [Hd Hnd].
    cbn [for_each]. unfold bind at 1.
    destruct (attach_disk_spec vmId d s w) as (fl1 & tbl1 & w1 & evs1 & -> & Ht1 & Hcase).
    destruct Hcase as
      [(-> & Hb1 & Hp1 & cmd1 & out1 & uuid1 & Hcall1 & Hfind1 & Hd1 & ->)
      |(-> & Hp1 & -> & msg1 & Hb1 & Hd1)].
    + destruct (IH (set_diskUnmountCommands
                      (<[category d := unmount_command vmId uuid1]>
                         (diskUnmountCommands s)) s) w1 Hnd)
        as (fl & tbl' & w' & evs2 & -> & Ht2 & Htbl & Hlen2 & _ & Hfl).
      simpl in Htbl.
      exists fl, tbl', w', (evs1 ++ evs2).
      split; [reflexivity|]. split; [by rewrite Ht2, Ht1, app_assoc|].
      assert (attached_drives evs1 = [uuid1]) as Ha1.
      { rewrite <- attached_drives_driver_calls, Hd1. simpl. by rewrite Hfind1. }
      rewrite attached_drives_app, Ha1, Htbl. simpl.
      split_and!.
      * rewrite <- insert_union_l. symmetry. apply insert_union_r.
        apply not_elem_of_list_to_map_1.
        intros Hin. apply Hd.
        apply list_elem_of_fmap in Hin as ([cat cmd] & -> & Hin).
        by apply elem_of_zip_l in Hin.
      * lia.
      * by right.
      * destruct fl as [[]|act|]; [congruence| |done].
        destruct Hfl as [msg Hb2]. exists msg. by rewrite Hb2, Hb1.
    + exists (Return ActionHalt), (diskUnmountCommands s), w1, evs1.
      split; [done|]. split; [done|].
      assert (attached_drives evs1 = []) as ->.
      { rewrite <- attached_drives_driver_calls.
        destruct Hd1 as [->|(cmd & r & _ & -> & Hns & _)]; [done|].
        simpl in *. destruct r as [o|m]; [|done].
        by destruct (FindStringSubmatch o). }
      simpl. rewrite (left_id ∅ (∪)).
      split_and!; [done|lia|by left|by exists msg1].
Qed.

Lemma NoDup_fst_zip {A B} (l : list A) (k : list B) :
  NoDup l -> NoDup (zip l k).*1.
Proof.
  revert k. induction l as [|x l IH]; intros k Hnd; [constructor|].
  apply NoDup_cons in Hnd as [Hx Hnd].
  destruct k as [|y k]; [constructor|]. simpl. apply NoDup_cons. split; [|auto].
  intros Hin. apply Hx.
  apply list_elem_of_fmap in Hin as ([a b] & -> & Hin).
  by apply elem_of_zip_l in Hin.
Qed.

(** The table that [Run] leaves, given the UI and the VM identifier: the
    pairs of the applicable categories, in order, with the commands that
    remove the drives attached, in order. *)
Lemma Run_table_spec (s : t) (w : World) (vmId : string) :
  bag w !! "ui" = Some VUi ->
  bag w !! "vmId" = Some (VString vmId) ->
  exists out s' w' evs,
    exec Run s w = (out, s', w')
    /\ trace w' = trace w ++ evs
    /\ diskUnmountCommands s'
       = list_to_map (zip (applicable s w)
                        (map (unmount_command vmId) (attached_drives evs)))
    /\ length (attached_drives evs) <= length (applicable s w)
    /\ (attached_drives evs <> [] -> bag w !! "driver" = Some VDriver)
    /\ (bag w' = bag w
        \/ (exists v, bag w' = <["error" := v]> (bag w))
        \/ (exists v, bag w' = <["disk_unmount_commands" := v]> (bag w))).
Proof.
  intros Hui Hvm.
  unfold exec, Run. unfold bind at 1. unfold state_Get_ui. rewrite Hui.
  unfold bind at 1. unfold ui_Say, emit. unfold bind at 1. unfold self.
  unfold bind at 1. unfold set_self. unfold bind at 1.
  set (s0 := set_diskUnmountCommands ∅ s).
  set (w1 := mkWorld (bag w) (trace w ++ [EUiSay "Mounting ISOs..."])).
  pose proof (collect_disks_spec s0 w1) as (Hs1 & evs0 & Ht0 & Hd0 & Hfl).
  pose proof (collect_disks_failure s0 w1) as Hfail.
  change (applicable s0 w1) with (applicable s w) in Hfl, Hfail.
  change (candidate w1) with (candidate w) in Hfl.
  change (bag w1) with (bag w) in Hfail.
  destruct (collect_disks s0 w1) as [[fl s1] w2]. simpl in Hs1, Ht0, Hfl. subst s1.
  assert (trace w2 = trace w ++ EUiSay "Mounting ISOs..." :: evs0) as Ht0'.
  { rewrite Ht0. subst w1. simpl. by rewrite <- app_assoc. }
  assert (attached_drives evs0 = []) as Ha0.
  { by rewrite <- attached_drives_driver_calls, Hd0. }
  assert (forall l : list string,
            (∅ : gmap string (list string))
            = list_to_map (zip l (map (unmount_command vmId) []))) as Hnil.
  { intros l. by destruct l. }
  destruct fl as [disks|act|].
  2: { destruct Hfail as (cat & p & e & _ & _ & _ & _ & ->).
       exists (Returned act), s0, (halted w1 (conversion_error (source_key cat) e)),
         (EUiSay "Mounting ISOs..." :: evs0).
       split; [done|]. split; [done|]. simpl. rewrite Ha0.
       split; [apply Hnil|]. split; [simpl; lia|]. split; [done|].
       right. left. by eexists. }
  2: { subst w2. exists Panicked, s0, w1, (EUiSay "Mounting ISOs..." :: evs0).
       split; [done|]. split; [done|]. simpl. rewrite Ha0.
       split; [apply Hnil|]. split; [simpl; lia|]. split; [done|]. by left. }
  clear Hfail.
  destruct Hfl as (Hb0 & Hp0 & Hcand).
  change (bag w1) with (bag w) in Hb0.
  pose proof (candidates_categories _ _ _ Hcand) as Hmap.
  destruct (decide (length disks = 0)) as [Hlen|Hlen].
  { eexists (Returned ActionContinue), s0, (mkWorld _ _),
      (EUiSay "Mounting ISOs..."
       :: evs0 ++ [EUiMessage "No ISOs to mount; continuing..."]).
    unfold_step. simpl. split; [reflexivity|].
    split; [rewrite Ht0'; by rewrite <- app_assoc|].
    rewrite attached_drives_app, Ha0. simpl.
    split; [apply Hnil|]. split; [simpl; lia|]. split; [done|]. by left. }
  unfold bind at 1. unfold state_Get_driver. rewrite Hb0.
  destruct (bag w !! "driver") as [v|] eqn:Hdrv.
  2: { exists Panicked, s0, w2, (EUiSay "Mounting ISOs..." :: evs0).
       split; [done|]. split; [done|]. simpl. rewrite Ha0.
       split; [apply Hnil|]. split; [simpl; lia|]. split; [done|]. by left. }
  assert (v = VDriver \/ v <> VDriver) as [->|Hv]
    by (destruct v; (by left) || (by right)).
  2: { exists Panicked, s0, w2, (EUiSay "Mounting ISOs..." :: evs0).
       split; [by destruct v|]. split; [done|]. simpl. rewrite Ha0.
       split; [apply Hnil|]. split; [simpl; lia|]. split; [done|]. by left. }
  unfold bind at 1. unfold state_Get_string. rewrite Hb0, Hvm.
  unfold bind at 1.
  destruct (attach_loop_table vmId disks s0 w2)
    as (fl & tbl' & w3 & evsl & -> & Htl & Htbl & Hlenl & _ & Hfl).
  { rewrite Hmap. apply applicable_NoDup. }
  rewrite Hmap in Htbl. simpl in Htbl. rewrite (right_id ∅ (∪)) in Htbl.
  pose proof (Forall2_length _ _ _ Hcand) as Hlen2.
  destruct fl as [[]|act|]; [| |done].
  - eexists (Returned ActionContinue), _, (mkWorld _ _),
      (EUiSay "Mounting ISOs..."
       :: evs0 ++ evsl ++ [EPut "disk_unmount_commands" (VCommands tbl')]).
    unfold_step. simpl. split; [reflexivity|].
    split; [rewrite Htl, Ht0'; simpl; by rewrite <- !app_assoc|].
    rewrite !attached_drives_app, Ha0. simpl. rewrite app_nil_r.
    split; [done|]. split; [lia|]. split; [done|].
    right. right. eexists. by rewrite Hfl, Hb0.
  - destruct Hfl as [msg Hb3].
    exists (Returned act), (set_diskUnmountCommands tbl' s0), w3,
      (EUiSay "Mounting ISOs..." :: evs0 ++ evsl).
    split; [done|].
    split; [rewrite Htl, Ht0'; simpl; by rewrite <- !app_assoc|].
    simpl. rewrite !attached_drives_app, Ha0. simpl.
    split; [done|]. split; [lia|]. split; [done|].
    right. left. eexists. by rewrite Hb3, Hb0.
Qed.

Lemma zip_applicable (s : t) (w : World) (cmds : list (list string)) :
  length cmds <= length (applicable s w) ->
  NoDup (zip (applicable s w) cmds).*1
  /\ (zip (applicable s w) cmds).*2 = cmds
  /\ length (zip (applicable s w) cmds) = length cmds.
Proof.
  intros Hlen. split; [apply NoDup_fst_zip, applicable_NoDup|].
  split; [by apply snd_zip|]. rewrite length_zip. lia.
Qed.

(** X12.  Whatever table the receiver held before, after [Run] (with the
    UI and the VM identifier in the state bag) the reversal table holds
    exactly one entry for each successful attachment of this run: the k-th
    applicable category is mapped to the command [remove_drive.applescript]
    with the VM identifier and the drive identifier found in the k-th
    successful answer of the driver.  Nothing of an earlier run remains in
    it, and it has as many entries as there were successful attachments. *)
Theorem Run_records_attached (s : t) (w : World) (vmId : string) :
  bag w !! "ui" = Some VUi ->
  bag w !! "vmId" = Some (VString vmId) ->
  exists out s' w' evs,
    exec Run s w = (out, s', w')
    /\ trace w' = trace w ++ evs
    /\ map_to_list (diskUnmountCommands s')
       ≡ₚ zip (applicable s w) (map (unmount_command vmId) (attached_drives evs))
    /\ size (diskUnmountCommands s') = length (List.filter successful evs)
    /\ length (List.filter successful evs) <= length (applicable s w).
Proof.
  intros Hui Hvm.
  destruct (Run_table_spec s w vmId Hui Hvm)
    as (out & s' & w' & evs & Hrun & Ht & Htbl & Hlen & _).
  destruct (zip_applicable s w (map (unmount_command vmId) (attached_drives evs)))
    as (Hnd & _ & Hzl); [by rewrite length_map|].
  exists out, s', w', evs. split; [done|]. split; [done|].
  rewrite Htbl. split; [by apply map_to_list_to_map|].
  rewrite map_size_list_to_map by done.
  rewrite Hzl, length_map, <- attached_drives_successful. done.
Qed.

(** X13.  [Run] and then [Cleanup].  With the UI and the VM identifier in
    the state bag and no ["detached_isos"] marker, the [Cleanup] that follows
    a run returns, and its driver calls are, up to the order in which the
    table is ranged over, one [remove_drive.applescript] command for each
    drive that this run attached: as many detachments as successful
    attachments, whether the run returned continue, halted or panicked. *)
Theorem Run_then_Cleanup (s : t) (w : World) (vmId : string) :
  bag w !! "ui" = Some VUi ->
  bag w !! "vmId" = Some (VString vmId) ->
  bag w !! "detached_isos" = None ->
  (forall m, map_range m ≡ₚ map_to_list m) ->
  exists out s' w' evs evs_c,
    exec Run s w = (out, s', w')
    /\ trace w' = trace w ++ evs
    /\ exec_unit Cleanup s' w' = (true, s', mkWorld (bag w') (trace w' ++ evs_c))
    /\ osa_calls evs_c ≡ₚ map (unmount_command vmId) (attached_drives evs)
    /\ length (driver_calls evs_c) = length (List.filter successful evs).
Proof.
  intros Hui Hvm Hmark Hrange.
  destruct (Run_table_spec s w vmId Hui Hvm)
    as (out & s' & w' & evs & Hrun & Ht & Htbl & Hlen & Hdrv & Hbag).
  destruct (zip_applicable s w (map (unmount_command vmId) (attached_drives evs)))
    as (Hnd & Hsnd & Hzl); [by rewrite length_map|].
  assert (forall k, k <> "error" -> k <> "disk_unmount_commands" ->
                    bag w' !! k = bag w !! k) as Hsame.
  { intros k H1 H2. destruct Hbag as [->|[[v ->]|[v ->]]]; [done|..];
      by rewrite lookup_insert_ne. }
  assert (attached_drives evs = [] -> diskUnmountCommands s' = ∅) as Hempty.
  { intros Ha. rewrite Htbl, Ha. simpl. by destruct (applicable s w). }
  destruct (Cleanup_spec s' w') as (evs_c & Hclean & _ & _ & Hcalls).
  { intros Hne. rewrite Hsame by done. apply Hdrv. intros Ha. by apply Hne, Hempty. }
  exists out, s', w', evs, evs_c. split; [done|]. split; [done|]. split; [done|].
  rewrite <- attached_drives_successful.
  destruct (decide (diskUnmountCommands s' = ∅)) as [He|Hne].
  - subst evs_c. rewrite Htbl in He.
    apply (f_equal size) in He.
    rewrite map_size_list_to_map, Hzl, length_map, map_size_empty in He by done.
    apply length_zero_iff_nil in He. by rewrite He.
  - rewrite Hsame, Hmark in Hcalls by done. destruct Hcalls as [Ho Hl].
    rewrite Ho, Hl, (Hrange _), Htbl, map_to_list_to_map by done.
    rewrite Hsnd, Hzl, length_map. done.
Qed.

(** X14.  With nothing to attach (no boot image declared, no ["cd_path"] in
    the state bag, a mode other than "attach") [Run] needs the UI only:
    neither the driver nor the VM identifier is read.  It says what it
    does, returns continue, empties the reversal table of the receiver and
    leaves the state bag as it was. *)
Theorem Run_nothing_to_attach (s : t) (w : World) :
  bag w !! "ui" = Some VUi ->
  applicable s w = [] ->
  exec Run s w
  = (Returned ActionContinue, set_diskUnmountCommands ∅ s,
     mkWorld (bag w)
       (trace w ++ [EUiSay "Mounting ISOs...";
                    ELog "Not attaching guest additions since we're uploading.";
                    EUiMessage "No ISOs to mount; continuing..."])).
Proof.
  intros Hui Hnil. unfold applicable in Hnil.
  destruct (AttachBootISO s) eqn:Hboot; [done|].
  destruct (bag w !! "cd_path") eqn:Hcd; [done|].
  destruct (decide (GuestAdditionsMode s = GuestAdditionsModeAttach)) as [|Hm]; [done|].
  unfold Run, collect_disks, add_boot_iso, add_cd_files, add_guest_additions.
  unfold_step. simpl. rewrite Hui, Hboot. simpl. rewrite Hcd. simpl.
  destruct (decide (GuestAdditionsMode s <> GuestAdditionsModeAttach)); [|done].
  simpl. by rewrite <- !app_assoc.
Qed.

(** X15.  [Cleanup] with reversal commands recorded reads the driver first:
    without the driver in the state bag it panics before it does anything,
    also when the ["detached_isos"] marker is set and no detachment would
    be made. *)
Theorem Cleanup_without_driver (s : t) (w : World) :
  diskUnmountCommands s <> ∅ ->
  bag w !! "driver" <> Some VDriver ->
  exec_unit Cleanup s w = (false, s, w).
Proof.
  intros Hne Hdrv. unfold Cleanup. unfold_step. simpl.
  destruct (decide (size (diskUnmountCommands s) = 0)) as [Hz|_].
  { by apply map_size_empty_iff in Hz. }
  simpl. destruct (bag w !! "driver") as [[]|]; done.
Qed.

(** ** [StepAttachISOs.Cleanup]: what is logged *)

Lemma log_lines_app (t1 t2 : list Event) :
  log_lines (t1 ++ t2) = log_lines t1 ++ log_lines t2.
Proof. apply omap_app. Qed.

Lemma driver_errors_app (t1 t2 : list Event) :
  driver_errors (t1 ++ t2) = driver_errors t1 ++ driver_errors t2.
Proof. apply omap_app. Qed.

(** The loop of [Cleanup], by what it logs. *)
Lemma detach_loop_logs (l : list (string * list string)) (s : t) (w : World) :
  exists evs,
    for_each l
      (fun entry =>
         r <- driver_ExecuteOsaScript entry.2 ;;
         match r with
         | Err e => log_Print ("error detaching iso: " +:+ e)
         | Ok _ => ret tt
         end) s w
    = (Next tt, s, mkWorld (bag w) (trace w ++ evs))
    /\ log_lines evs = map (fun m => "error detaching iso: " +:+ m) (driver_errors evs)
    /\ length (driver_calls evs) + length (log_lines evs) = length evs.
Proof.
  revert w. induction l as [|[cat cmd] l IH]; intros w.
  - exists []. rewrite app_nil_r. by destruct w.
  - simpl. unfold bind at 1. unfold bind at 1. unfold driver_ExecuteOsaScript at 1.
    set (r := ExecuteOsaScript driver (trace w) cmd).
    set (w1 := mkWorld (bag w) (trace w ++ [EOsa cmd r])).
    assert (exists evs1,
              match r with
              | Ok _ => ret tt
              | Err e => log_Print ("error detaching iso: " +:+ e)
              end s w1
              = (Next tt, s, mkWorld (bag w) (trace w ++ EOsa cmd r :: evs1))
              /\ log_lines (EOsa cmd r :: evs1)
                 = map (fun m => "error detaching iso: " +:+ m)
                     (driver_errors (EOsa cmd r :: evs1))
              /\ driver_errors evs1 = []
              /\ length (driver_calls evs1) + length (log_lines evs1) = length evs1)
      as (evs1 & -> & Hl1 & He1 & Hn1).
    { destruct r as [o|e].
      - exists []. by rewrite <- (app_nil_r (trace w ++ _)), <- app_assoc.
      - eexists [_]. unfold_step. simpl. by rewrite <- app_assoc. }
    cbv beta iota.
    destruct (IH (mkWorld (bag w) (trace w ++ EOsa cmd r :: evs1)))
      as (evs2 & Hloop & Hl2 & Hn2).
    rewrite Hloop.
    exists ((EOsa cmd r :: evs1) ++ evs2).
    split; [simpl; by rewrite <- app_assoc|].
    split; [by rewrite log_lines_app, driver_errors_app, List.map_app, Hl1, Hl2|].
    rewrite driver_calls_app, log_lines_app, !length_app.
    change (log_lines (EOsa cmd r :: evs1)) with (log_lines evs1).
    change (driver_calls (EOsa cmd r :: evs1)) with (EOsa cmd r :: driver_calls evs1).
    simpl. lia.
Qed.

(** X16.  [Cleanup] logs every failed detachment and nothing else: its
    events are driver calls and log lines only, and the log lines are, in
    the order of the calls, "error detaching iso: e" for each error [e] that
    the driver returned. *)
Theorem Cleanup_logs_failures (s : t) (w : World) :
  (diskUnmountCommands s <> ∅ -> bag w !! "driver" = Some VDriver) ->
  exists evs,
    exec_unit Cleanup s w = (true, s, mkWorld (bag w) (trace w ++ evs))
    /\ log_lines evs = map (fun m => "error detaching iso: " +:+ m) (driver_errors evs)
    /\ length (driver_calls evs) + length (log_lines evs) = length evs.
Proof.
  intros Hdrv. unfold exec_unit, Cleanup. unfold bind at 1. unfold self.
  destruct (decide (size (diskUnmountCommands s) = 0)) as [Hz|Hnz].
  - exists []. rewrite app_nil_r. by destruct w.
  - rewrite map_size_empty_iff in Hnz.
    unfold bind at 1. unfold state_Get_driver. rewrite (Hdrv Hnz).
    unfold bind at 1. unfold state_GetOk.
    destruct (bag w !! "detached_isos") as [v|].
    + exists []. rewrite app_nil_r. by destruct w.
    + destruct (detach_loop_logs (map_range (diskUnmountCommands s)) s w)
        as (evs & -> & Hl & Hn).
      by exists evs.
Qed.

End AttachISOsFurther.

(** ** The regular expression for the drive identifier *)

Lemma append_cons (c : ascii) (a b : string) :
  String c a +:+ b = String c (a +:+ b).
Proof. reflexivity. Qed.

Lemma append_nil_l (b : string) : "" +:+ b = b.
Proof. reflexivity. Qed.

Lemma match_class_prefix_spec (n : nat) (s m : string) :
  match_class_prefix n s = Some m <->
  exists post,
    s = m +:+ post
    /\ String.length m = n
    /\ Forall (fun c => uuid_class c = true) (list_ascii_of_string m).
Proof.
  revert s m. induction n as [|n IH]; intros s m; cbn [match_class_prefix].
  - split.
    + intros [= <-]. exists s. by repeat split.
    + intros (post & -> & Hl & _). destruct m; [done|discriminate].
  - destruct s as [|c s].
    + split; [done|]. intros (post & Heq & Hl & _).
      destruct m; [discriminate|]. rewrite append_cons in Heq. discriminate.
    + destruct (uuid_class c) eqn:Hc.
      * split.
        -- intros Hm. apply fmap_Some in Hm as (m' & Hm' & ->).
           apply IH in Hm' as (post & -> & Hl & Hall).
           exists post. rewrite append_cons. split; [done|].
           split; [simpl; by rewrite Hl|]. simpl. by constructor.
        -- intros (post & Heq & Hl & Hall).
           destruct m as [|c' m]; [discriminate|].
           rewrite append_cons in Heq. injection Heq as <- ->.
           simpl in Hl, Hall. apply Forall_cons in Hall as [_ Hall].
           apply fmap_Some. exists m. split; [|done].
           apply IH. exists post. split; [done|]. split; [lia|done].
      * split; [done|]. intros (post & Heq & Hl & Hall).
        destruct m as [|c' m]; [discriminate|].
        rewrite append_cons in Heq. injection Heq as <- ->.
        simpl in Hall. apply Forall_cons in Hall as [Hc' _]. congruence.
Qed.

(** The identifier found is the leftmost text of the kind, and none is
    found only when there is none. *)
Lemma FindStringSubmatch_spec (s : string) :
  match FindStringSubmatch s with
  | Some m =>
    exists pre post,
      s = pre +:+ m +:+ post
      /\ identifier_text m
      /\ forall pre' m' post',
           s = pre' +:+ m' +:+ post' ->
           identifier_text m' ->
           String.length pre <= String.length pre'
  | None => forall pre m post, s = pre +:+ m +:+ post -> ~ identifier_text m
  end.
Proof.
  induction s as [|c s IH]; cbn [FindStringSubmatch].
  - change (match_class_prefix 36 "") with (@None string).
    intros pre m post Heq [Hl _].
    destruct pre; [|discriminate]. rewrite append_nil_l in Heq.
    destruct m; discriminate.
  - destruct (match_class_prefix 36 (String c s)) as [m|] eqn:Hm.
    + apply match_class_prefix_spec in Hm as (post & Heq & Hl & Hall).
      exists "", post. rewrite append_nil_l. split; [done|]. split; [done|].
      intros. simpl. lia.
    + assert (forall m' post', String c s = m' +:+ post' -> ~ identifier_text m')
        as Hnot.
      { intros m' post' Heq [Hl Hall].
        assert (match_class_prefix 36 (String c s) = Some m') as Hsome.
        { apply match_class_prefix_spec. by exists post'. }
        congruence. }
      destruct (FindStringSubmatch s) as [m|].
      * destruct IH as (pre & post & -> & Hid & Hleft).
        exists (String c pre), post. rewrite append_cons. split; [done|].
        split; [done|]. intros pre' m' post' Heq Hid'.
        destruct pre' as [|c' pre'].
        { rewrite append_nil_l in Heq. by destruct (Hnot m' post' Heq). }
        rewrite append_cons in Heq. injection Heq as <- Heq.
        simpl. apply le_n_S. by eapply Hleft.
      * intros pre m post Heq Hid.
        destruct pre as [|c' pre].
        { rewrite append_nil_l in Heq. by destruct (Hnot m post Heq). }
        rewrite append_cons in Heq. injection Heq as <- Heq.
        by eapply IH.
Qed.

Lemma length_append (a b : string) :
  String.length (a +:+ b) = String.length a + String.length b.
Proof.
  induction a as [|c a IH]; [done|]. rewrite append_cons. simpl. by rewrite IH.
Qed.

(** X17.  The drive identifier that [Run] takes from an answer of the
    driver is the leftmost text of 36 characters in it that are hexadecimal
    digits or hyphens, and there is none exactly when the answer holds no
    such text, as every answer shorter than 36 characters. *)
Theorem FindStringSubmatch_leftmost (s : string) :
  match FindStringSubmatch s with
  | Some m =>
    exists pre post,
      s = pre +:+ m +:+ post
      /\ identifier_text m
      /\ forall pre' m' post',
           s = pre' +:+ m' +:+ post' ->
           identifier_text m' ->
           String.length pre <= String.length pre'
  | None => forall pre m post, s = pre +:+ m +:+ post -> ~ identifier_text m
  end
  /\ (String.length s < 36 -> FindStringSubmatch s = None).
Proof.
  pose proof (FindStringSubmatch_spec s) as Hspec.
  split; [exact Hspec|]. intros Hlen.
  destruct (FindStringSubmatch s) as [m|]; [|done].
  destruct Hspec as (pre & post & -> & [Hl _] & _).
  rewrite !length_append in Hlen. lia.
Qed.

(** * Examples and instances *)

(** The run of the test [TestStepConfigureQemuArgs_withArgs]. *)
Example Run_with_args_test :
  let r := exec (StepConfigureQemuArgs.Run (E := env_ok))
             {| StepConfigureQemuArgs.QemuArgs := [["-accel"; "hvf"]; ["-cpu"; "host"]] |}
             mock_world in
  r.1.1 = Returned ActionContinue
  /\ osa_calls (trace r.2)
     = [["add_qemu_additional_args.applescript"; "test-vm-id"; "--args";
         "-accel hvf"; "-cpu host"]]
  /\ bag r.2 !! "userQemuArgs" = Some (VStrings ["-accel hvf"; "-cpu host"])
  /\ bag r.2 !! "error" = None.
Proof. vm_compute. done. Qed.

(** The run of the test [TestStepConfigureQemuArgs_driverError]. *)
Example Run_with_args_driver_error :
  let r := exec (StepConfigureQemuArgs.Run (E := env_fails))
             {| StepConfigureQemuArgs.QemuArgs := [["-cpu"; "host"]] |}
             mock_world in
  r.1.1 = Returned ActionHalt
  /\ bag r.2 !! "error"
     = Some (VError "error adding user QEMU additional arguments: boom")
  /\ bag r.2 !! "userQemuArgs" = None.
Proof. vm_compute. done. Qed.

(** White space "as defined by Unicode": ASCII blanks, the no-break space
    (C2 A0) and the em space (E2 80 83) are trimmed, the euro sign (E2 82 AC)
    and a truncated encoding are not. *)
Example TrimSpace_examples :
  strings_TrimSpace "  -cpu host  " = "-cpu host"
  /\ strings_TrimSpace (String "009" (String "010" " ")) = ""
  /\ strings_TrimSpace (String "194" (String "160" (String "226" (String "128"
        (String "131" "x")))))
     = "x"
  /\ strings_TrimSpace (String "226" (String "130" (String "172" " ")))
     = String "226" (String "130" (String "172" ""))
  /\ strings_TrimSpace (String " " (String "226" (String "128" " ")))
     = String "226" (String "128" "").
Proof. vm_compute. done. Qed.

(** The tests of [QemuConfig.Prepare]. *)
Example Prepare_tests :
  QemuConfig.Prepare {| QemuConfig.QemuArgs := [] |} = []
  /\ QemuConfig.Prepare
       {| QemuConfig.QemuArgs := [["-accel"; "hvf"]; ["-cpu"; "host"]] |} = []
  /\ QemuConfig.Prepare {| QemuConfig.QemuArgs := [[]] |}
     = ["qemuargs[0]: empty argument list"]
  /\ QemuConfig.Prepare {| QemuConfig.QemuArgs := [[" "; "  "]] |}
     = ["qemuargs[0]: argument resolves to empty string"].
Proof. vm_compute. done. Qed.

(** All three media attached, in the fixed order, then detached by
    [Cleanup]. *)
Example Run_three_media :
  let r := exec (StepAttachISOs.Run (E := env_ok)) attach_all media_world in
  r.1.1 = Returned ActionContinue
  /\ osa_calls (trace r.2)
     = [ StepAttachISOs.attach_command "test-vm-id" "QdIu" "/isos/boot.iso";
         StepAttachISOs.attach_command "test-vm-id" "QdIu" "/cwd/cd.iso";
         StepAttachISOs.attach_command "test-vm-id" "QdIi" "/ga.iso" ]
  /\ map_to_list (StepAttachISOs.diskUnmountCommands r.1.2)
     ≡ₚ [ ("boot_iso", StepAttachISOs.unmount_command "test-vm-id" uuid_boot);
          ("cd_files", StepAttachISOs.unmount_command "test-vm-id" uuid_cd);
          ("guest_additions", StepAttachISOs.unmount_command "test-vm-id" uuid_tools) ]
  /\ bag r.2 !! "disk_unmount_commands"
     = Some (VCommands (StepAttachISOs.diskUnmountCommands r.1.2)).
Proof.
  vm_compute. split_and!; try done.
  apply (bool_decide_unpack _). by vm_compute.
Qed.

(** In that build nothing fails: the state bag holds all that [Run] reads,
    the attach command of every applicable category can be formed, and the
    driver carries out every attachment. *)
Example Run_three_media_nothing_fails :
  let r := exec (StepAttachISOs.Run (E := env_ok)) attach_all media_world in
  ready (E := env_ok) attach_all media_world
  /\ (forall cat d vmId,
        cat ∈ applicable (E := env_ok) attach_all media_world ->
        bag media_world !! "vmId" = Some (VString vmId) ->
        candidate (E := env_ok) media_world cat = Some d ->
        is_Some (attach_call (E := env_ok) attach_all vmId d))
  /\ Forall (fun e => successful e = true) (driver_calls (trace r.2)).
Proof.
  split; [|split].
  - split; [vm_compute; reflexivity|].
    split; [vm_compute; reflexivity|].
    split; [eexists; vm_compute; reflexivity|].
    apply (bool_decide_unpack _). vm_compute. exact I.
  - intros cat d vmId Hin Hvm Hc.
    vm_compute in Hvm. injection Hvm as <-.
    vm_compute in Hin.
    repeat (apply elem_of_cons in Hin as [->|Hin]);
      [..|by apply elem_of_nil in Hin];
      vm_compute in Hc; injection Hc as <-;
      apply (bool_decide_unpack _); vm_compute; exact I.
  - apply (bool_decide_unpack _). vm_compute. exact I.
Qed.

(** The version remapping and the fall-back chain of the download step: the
    driver knows no tools path, the operator gave a checksum. *)
Example Run_download_default :
  let r := exec (StepDownloadGuestAdditions.Run (E := env_ok))
             (download_step "attach" "" "abc") mock_world in
  r.1.1 = Returned ActionContinue
  /\ downloads (trace r.2)
     = [EDownload {| Checksum := "sha256:abc";
                     Description := "Guest additions";
                     ResultKey := "guest_additions_path";
                     TargetPath := "/tmp/tools.iso";
                     Url := [default_url];
                     Extension := "iso" |}]
  /\ In (ELog "Rewriting guest additions version: 4.6.4 to 0.229.2") (trace r.2).
Proof. vm_compute. split_and!; try done. tauto. Qed.

(** A run that halts on the third attachment, and its cleanup: the two
    images attached before the halt are detached, nothing is published. *)
Example Run_halt_then_Cleanup :
  let r := exec (StepAttachISOs.Run (E := env_tools_fail)) attach_all media_world in
  let c := exec_unit (StepAttachISOs.Cleanup (E := env_tools_fail)) r.1.2 r.2 in
  r.1.1 = Returned ActionHalt
  /\ bag r.2 !! "error" = Some (VError "error attaching ISO: boom")
  /\ bag r.2 !! "disk_unmount_commands" = None
  /\ c.1.1 = true
  /\ osa_calls (drop (length (trace r.2)) (trace c.2))
     ≡ₚ [ StepAttachISOs.unmount_command "test-vm-id" uuid_boot;
          StepAttachISOs.unmount_command "test-vm-id" uuid_cd ].
Proof.
  vm_compute. split_and!; try done.
  apply (bool_decide_unpack _). by vm_compute.
Qed.

(** ** Instances of the theorems *)

(** C8 at the input of the test [TestStepConfigureQemuArgs_noArgs]. *)
Lemma Run_no_args_witness :
  let s := {| StepConfigureQemuArgs.QemuArgs := [] |} in
  length (StepConfigureQemuArgs.QemuArgs s) = 0
  /\ exists evs,
      exec (StepConfigureQemuArgs.Run (E := env_ok)) s mock_world
      = (Returned ActionContinue, s,
         mkWorld (bag mock_world) (trace mock_world ++ evs))
      /\ driver_calls evs = []
      /\ put_keys evs = [].
Proof.
  split; [reflexivity|].
  apply (Run_no_args (E := env_ok)). reflexivity.
Defined.

(** C7 at the input of the test [TestStepConfigureQemuArgs_withArgs]. *)
Lemma Run_with_args_witness :
  let s := {| StepConfigureQemuArgs.QemuArgs :=
                [["-accel"; "hvf"]; ["-cpu"; "host"]] |} in
  let command := ["add_qemu_additional_args.applescript"; "test-vm-id"; "--args";
                  "-accel hvf"; "-cpu host"] in
  StepConfigureQemuArgs.QemuArgs s <> []
  /\ exists out w' evs r,
      exec (StepConfigureQemuArgs.Run (E := env_ok)) s mock_world = (out, s, w')
      /\ trace w' = trace mock_world ++ evs
      /\ driver_calls evs = [EOsa command r]
      /\ (forall output, r = Ok output ->
            out = Returned ActionContinue
            /\ bag w'
               = <["userQemuArgs" := VStrings ["-accel hvf"; "-cpu host"]]>
                   (bag mock_world)).
Proof.
  split; [discriminate|].
  exact (Run_with_args (E := env_ok)
           {| StepConfigureQemuArgs.QemuArgs := [["-accel"; "hvf"]; ["-cpu"; "host"]] |}
           mock_world "test-vm-id" ltac:(discriminate) eq_refl eq_refl eq_refl).
Defined.

(** C9 in mode "disabled". *)
Lemma Run_disabled_witness :
  let s := download_step "disabled" "" "" in
  StepDownloadGuestAdditions.GuestAdditionsMode s
  = GuestAdditionsModeDisable (Env := env_ok)
  /\ exists evs,
      exec (StepDownloadGuestAdditions.Run (E := env_ok)) s mock_world
      = (Returned ActionContinue, s,
         mkWorld (bag mock_world) (trace mock_world ++ evs))
      /\ driver_calls evs = []
      /\ downloads evs = []
      /\ put_keys evs = [].
Proof.
  split; [reflexivity|].
  apply (Run_disabled (E := env_ok)); reflexivity.
Defined.

(** C5 with a blank URL template and a driver that resolves the default
    tools path to the empty string: the step halts. *)
Lemma Run_blank_url_witness :
  let s := download_step "attach" "" "abc" in
  let s1 := StepDownloadGuestAdditions.set_Ctx_Data
              {| TemplateVersion := "0.229.2" |} s in
  Version (driver (Env := env_hex)) (trace mock_world) = Ok "4.6.4"
  /\ interpolate_Render (Env := env_hex)
       (StepDownloadGuestAdditions.GuestAdditionsURL s)
       (StepDownloadGuestAdditions.Ctx s1) = Ok ""
  /\ exists r,
      let calls := [EVersion (Ok "4.6.4"); EGuestToolsIsoPath r] in
      match r with
      | Ok "" => halts_with (E := env_hex) s mock_world s1 calls no_url_error
      | Ok path =>
        exists d, Url d = [path] /\ hands_over (E := env_hex) s mock_world s1 calls d
      | Err _ =>
        exists d, Url d = [default_url]
                  /\ hands_over (E := env_hex) s mock_world s1 calls d
      end.
Proof.
  split; [reflexivity|]. split; [reflexivity|].
  apply (Run_blank_url (E := env_hex) (download_step "attach" "" "abc")
           mock_world "4.6.4"); [reflexivity| reflexivity| discriminate| reflexivity..].
Defined.

(** C6 with an operator URL and an operator checksum. *)
Lemma Run_checksum_witness :
  let s := download_step "attach" "https://example.org/tools.iso" "abc" in
  let s1 := StepDownloadGuestAdditions.set_Ctx_Data
              {| TemplateVersion := "0.229.2" |} s in
  Version (driver (Env := env_ok)) (trace mock_world) = Ok "4.6.4"
  /\ interpolate_Render (Env := env_ok)
       (StepDownloadGuestAdditions.GuestAdditionsURL s)
       (StepDownloadGuestAdditions.Ctx s1) = Ok "https://example.org/tools.iso"
  /\ hands_over (E := env_ok) s mock_world s1 [EVersion (Ok "4.6.4")]
       (request s "https://example.org/tools.iso" "sha256:abc").
Proof.
  split; [reflexivity|]. split; [reflexivity|].
  apply (Run_checksum (E := env_ok)
           (download_step "attach" "https://example.org/tools.iso" "abc")
           mock_world "4.6.4" "https://example.org/tools.iso");
    [reflexivity| reflexivity| discriminate| reflexivity..].
Defined.

(** C4 after two successful attachments, no marker in the state bag. *)
Lemma Cleanup_detaches_witness :
  bag mock_world !! "driver" = Some VDriver
  /\ map_range (Env := env_fails) (StepAttachISOs.diskUnmountCommands attached_two)
     ≡ₚ map_to_list (StepAttachISOs.diskUnmountCommands attached_two)
  /\ exists evs,
      exec_unit (StepAttachISOs.Cleanup (E := env_fails)) attached_two mock_world
      = (true, attached_two, mkWorld (bag mock_world) (trace mock_world ++ evs))
      /\ put_keys evs = []
      /\ osa_calls evs
         ≡ₚ (map_to_list (StepAttachISOs.diskUnmountCommands attached_two)).*2
      /\ length (driver_calls evs) = 2.
Proof.
  split; [reflexivity|]. split; [reflexivity|].
  destruct (Cleanup_detaches (E := env_fails) attached_two mock_world)
    as (evs & Hc & Hp & Hcalls); [reflexivity..|].
  exists evs. split; [exact Hc|]. split; [exact Hp|].
  destruct (decide (StepAttachISOs.diskUnmountCommands attached_two = ∅)) as [He|_].
  - apply (f_equal size) in He. vm_compute in He. discriminate He.
  - change (bag mock_world !! "detached_isos") with (@None Value) in Hcalls.
    destruct Hcalls as (Ho & Hl & _). split; [exact Ho|exact Hl].
Defined.

(** ** Counterexamples to the wording of the specification *)


(** C2 as stated: the driver answers without error with 36 hexadecimal
    digits, which contain no UUID in canonical form, yet the run continues
    and records no error. *)
Lemma Run_needs_identifier_counterexample :
  let r := exec (StepAttachISOs.Run (E := env_hex)) attach_boot media_world in
  contains_uuid hex36 = false
  /\ trace r.2
     = [ EUiSay "Mounting ISOs...";
         ELog "Not attaching guest additions since we're uploading.";
         EUiMessage "Mounting boot ISO...";
         EOsa (StepAttachISOs.attach_command "test-vm-id" "QdIu" "/isos/boot.iso")
              (Ok hex36);
         EUiMessage "Mounting cd_files ISO...";
         EOsa (StepAttachISOs.attach_command "test-vm-id" "QdIu" "/cwd/cd.iso")
              (Ok hex36);
         EPut "disk_unmount_commands"
              (VCommands (StepAttachISOs.diskUnmountCommands r.1.2)) ]
  /\ r.1.1 = Returned ActionContinue
  /\ bag r.2 !! "error" = None.
Proof. vm_compute. done. Qed.

(** C3 as stated, first part: with no candidate at all, every candidate
    attachment succeeded (there is none) and the run returns continue, yet
    nothing is written under ["disk_unmount_commands"].  Second part: with
    the ["detached_isos"] marker in the state bag, the cleanup after a run
    that halted on the third attachment issues no detach at all, although
    two attachments had succeeded. *)
Lemma Run_publishes_table_counterexample :
  (let r := exec (StepAttachISOs.Run (E := env_ok)) attach_none mock_world in
   applicable (E := env_ok) attach_none mock_world = []
   /\ r.1.1 = Returned ActionContinue
   /\ put_keys (trace r.2) = []
   /\ bag r.2 !! "disk_unmount_commands" = None)
  /\ (let r := exec (StepAttachISOs.Run (E := env_tools_fail)) attach_all
                 marked_world in
      let c := exec_unit (StepAttachISOs.Cleanup (E := env_tools_fail)) r.1.2 r.2 in
      r.1.1 = Returned ActionHalt
      /\ length (List.filter successful (trace r.2)) = 2
      /\ trace c.2 = trace r.2).
Proof. vm_compute. done. Qed.

(** ** Instances of the further properties *)

(** X3 at the input of the test [TestStepConfigureQemuArgs_driverError]. *)
Lemma Run_driver_failure_witness :
  StepConfigureQemuArgs.QemuArgs one_arg <> []
  /\ exists out w' r rest,
      exec (StepConfigureQemuArgs.Run (E := env_fails)) one_arg mock_world
      = (out, one_arg, w')
      /\ trace w'
         = trace mock_world ++ announcement one_arg
           ++ EOsa (add_args_command one_arg "test-vm-id") r :: rest
      /\ driver_calls (announcement one_arg) = []
      /\ put_keys (announcement one_arg) = []
      /\ forall e, r = Err e ->
           let msg := "error adding user QEMU additional arguments: " +:+ e in
           out = Returned ActionHalt
           /\ rest = [EPut "error" (VError msg); EUiError msg]
           /\ bag w' = <["error" := VError msg]> (bag mock_world).
Proof.
  split; [discriminate|].
  exact (Run_driver_failure (E := env_fails) one_arg mock_world "test-vm-id"
           ltac:(discriminate) eq_refl eq_refl eq_refl).
Defined.

(** X5 at the groups of the test [TestQemuConfigPrepare_validArgs]. *)
Lemma Prepare_then_Run_witness :
  let c := {| QemuConfig.QemuArgs := [["-accel"; "hvf"]; ["-cpu"; "host"]] |} in
  let s := {| StepConfigureQemuArgs.QemuArgs := [["-accel"; "hvf"]; ["-cpu"; "host"]] |} in
  QemuConfig.Prepare c = []
  /\ exists out w' evs,
      exec (StepConfigureQemuArgs.Run (E := env_ok)) s mock_world = (out, s, w')
      /\ trace w' = trace mock_world ++ evs
      /\ forall cmd,
           cmd ∈ osa_calls evs ->
           exists vmId args,
             cmd = ["add_qemu_additional_args.applescript"; vmId; "--args"] ++ args
             /\ length args = length (QemuConfig.QemuArgs c)
             /\ Forall has_non_space args.
Proof.
  split; [vm_compute; reflexivity|].
  exact (Prepare_then_Run (E := env_ok)
           {| QemuConfig.QemuArgs := [["-accel"; "hvf"]; ["-cpu"; "host"]] |}
           {| StepConfigureQemuArgs.QemuArgs := [["-accel"; "hvf"]; ["-cpu"; "host"]] |}
           mock_world eq_refl ltac:(vm_compute; reflexivity)).
Defined.

(** X6 with a driver that cannot tell its version. *)
Lemma Run_version_failure_witness :
  let s := download_step "attach" "" "" in
  let msg := "error reading version for guest additions download: UTM is not installed" in
  Version (driver (Env := env_no_version)) (trace mock_world)
  = Err "UTM is not installed"
  /\ exists w' evs,
      exec (StepDownloadGuestAdditions.Run (E := env_no_version)) s mock_world
      = (Returned ActionHalt, s, w')
      /\ trace w' = trace mock_world ++ evs
      /\ evs = [EVersion (Err "UTM is not installed"); EPut "error" (VError msg)]
      /\ bag w' = <["error" := VError msg]> (bag mock_world).
Proof.
  split; [reflexivity|].
  exact (Run_version_failure (E := env_no_version) (download_step "attach" "" "")
           mock_world "UTM is not installed"
           eq_refl eq_refl ltac:(discriminate) eq_refl).
Defined.

(** X7 with a template that cannot be rendered. *)
Lemma Run_render_failure_witness :
  let s := download_step "attach" "{{ .Version" "" in
  let s1 := StepDownloadGuestAdditions.set_Ctx_Data
              {| TemplateVersion := "0.229.2" |} s in
  let msg := "error preparing guest additions url: template: unexpected EOF" in
  interpolate_Render (Env := env_bad_template)
    (StepDownloadGuestAdditions.GuestAdditionsURL s)
    (StepDownloadGuestAdditions.Ctx s1) = Err "template: unexpected EOF"
  /\ exists w1 evs,
      exec (StepDownloadGuestAdditions.Run (E := env_bad_template)) s mock_world
      = (Returned ActionHalt, s1, w1)
      /\ trace w1 = trace mock_world ++ evs ++ [EPut "error" (VError msg); EUiError msg]
      /\ bag w1 = <["error" := VError msg]> (bag mock_world)
      /\ driver_calls evs = [EVersion (Ok "4.6.4")]
      /\ downloads evs = []
      /\ put_keys evs = [].
Proof.
  split; [reflexivity|].
  exact (Run_render_failure (E := env_bad_template)
           (download_step "attach" "{{ .Version" "") mock_world
           "4.6.4" "template: unexpected EOF"
           eq_refl eq_refl ltac:(discriminate) eq_refl eq_refl).
Defined.

(** X8 with version 4.6.4 of UTM. *)
Lemma Run_template_version_witness :
  let s := download_step "attach" "" "abc" in
  Version (driver (Env := env_ok)) (trace mock_world) = Ok "4.6.4"
  /\ exists out s' w',
      exec (StepDownloadGuestAdditions.Run (E := env_ok)) s mock_world = (out, s', w')
      /\ s' = StepDownloadGuestAdditions.set_Ctx_Data
                {| TemplateVersion := template_version "4.6.4" |} s
      /\ Data (StepDownloadGuestAdditions.Ctx s')
         = Some {| TemplateVersion :=
                     if decide ("4.6.4" = "4.6.4") then "0.229.2" else "4.6.4" |}
      /\ UserVariables (StepDownloadGuestAdditions.Ctx s')
         = UserVariables (StepDownloadGuestAdditions.Ctx s).
Proof.
  split; [reflexivity|].
  exact (Run_template_version (E := env_ok) (download_step "attach" "" "abc")
           mock_world "4.6.4" eq_refl eq_refl ltac:(discriminate) eq_refl).
Defined.

(** X9 with the driver and the UI of the test state. *)
Lemma Run_download_request_witness :
  let s := download_step "attach" "" "abc" in
  bag mock_world !! "driver" = Some VDriver
  /\ bag mock_world !! "ui" = Some VUi
  /\ ((exists out s' w' evs,
         exec (StepDownloadGuestAdditions.Run (E := env_ok)) s mock_world = (out, s', w')
         /\ trace w' = trace mock_world ++ evs
         /\ downloads evs = []
         /\ match out with
            | Returned ActionContinue =>
              StepDownloadGuestAdditions.GuestAdditionsMode s
              = GuestAdditionsModeDisable (Env := env_ok)
              /\ bag w' = bag mock_world
            | Returned ActionHalt =>
              exists msg, bag w' = <["error" := VError msg]> (bag mock_world)
            | Panicked => False
            end)
      \/ (exists d s1 w1 evs,
            guest_tools_request s d
            /\ exec (StepDownloadGuestAdditions.Run (E := env_ok)) s mock_world
               = exec (downStep_Run (E := env_ok) d) s1 w1
            /\ trace w1 = trace mock_world ++ evs
            /\ bag w1 = bag mock_world
            /\ downloads evs = []
            /\ put_keys evs = [])).
Proof.
  split; [reflexivity|]. split; [reflexivity|].
  exact (Run_download_request (E := env_ok) (download_step "attach" "" "abc")
           mock_world eq_refl eq_refl).
Defined.

(** X12 for a run that halts on the third attachment. *)
Lemma Run_records_attached_witness :
  bag media_world !! "ui" = Some VUi
  /\ bag media_world !! "vmId" = Some (VString "test-vm-id")
  /\ exists out s' w' evs,
      exec (StepAttachISOs.Run (E := env_tools_fail)) attach_all media_world
      = (out, s', w')
      /\ trace w' = trace media_world ++ evs
      /\ map_to_list (StepAttachISOs.diskUnmountCommands s')
         ≡ₚ zip (applicable (E := env_tools_fail) attach_all media_world)
              (map (StepAttachISOs.unmount_command "test-vm-id") (attached_drives evs))
      /\ size (StepAttachISOs.diskUnmountCommands s')
         = length (List.filter successful evs)
      /\ length (List.filter successful evs)
         <= length (applicable (E := env_tools_fail) attach_all media_world).
Proof.
  split; [reflexivity|]. split; [reflexivity|].
  exact (Run_records_attached (E := env_tools_fail) attach_all media_world
           "test-vm-id" eq_refl eq_refl).
Defined.

(** X13 for a run that halts on the third attachment. *)
Lemma Run_then_Cleanup_witness :
  bag media_world !! "detached_isos" = None
  /\ (forall m, map_range (Env := env_tools_fail) m ≡ₚ map_to_list m)
  /\ exists out s' w' evs evs_c,
      exec (StepAttachISOs.Run (E := env_tools_fail)) attach_all media_world
      = (out, s', w')
      /\ trace w' = trace media_world ++ evs
      /\ exec_unit (StepAttachISOs.Cleanup (E := env_tools_fail)) s' w'
         = (true, s', mkWorld (bag w') (trace w' ++ evs_c))
      /\ osa_calls evs_c
         ≡ₚ map (StepAttachISOs.unmount_command "test-vm-id") (attached_drives evs)
      /\ length (driver_calls evs_c) = length (List.filter successful evs).
Proof.
  split; [reflexivity|]. split; [intros m; reflexivity|].
  exact (Run_then_Cleanup (E := env_tools_fail) attach_all media_world
           "test-vm-id" eq_refl eq_refl eq_refl (fun m => reflexivity _)).
Defined.

(** X14 without boot image, without ["cd_path"], in mode "upload". *)
Lemma Run_nothing_to_attach_witness :
  applicable (E := env_ok) attach_none mock_world = []
  /\ exec (StepAttachISOs.Run (E := env_ok)) attach_none mock_world
     = (Returned ActionContinue, StepAttachISOs.set_diskUnmountCommands ∅ attach_none,
        mkWorld (bag mock_world)
          (trace mock_world
           ++ [EUiSay "Mounting ISOs...";
               ELog "Not attaching guest additions since we're uploading.";
               EUiMessage "No ISOs to mount; continuing..."])).
Proof.
  split; [vm_compute; reflexivity|].
  exact (Run_nothing_to_attach (E := env_ok) attach_none mock_world
           eq_refl ltac:(vm_compute; reflexivity)).
Defined.

(** X15 after two attachments, with a state bag that lacks the driver. *)
Lemma Cleanup_without_driver_witness :
  StepAttachISOs.diskUnmountCommands attached_two <> ∅
  /\ bag bare_world !! "driver" <> Some VDriver
  /\ exec_unit (StepAttachISOs.Cleanup (E := env_ok)) attached_two bare_world
     = (false, attached_two, bare_world).
Proof.
  assert (StepAttachISOs.diskUnmountCommands attached_two <> ∅) as Hne.
  { intros He. apply (f_equal size) in He. vm_compute in He. discriminate He. }
  assert (bag bare_world !! "driver" <> Some VDriver) as Hno.
  { intros Hd. vm_compute in Hd. discriminate Hd. }
  split; [exact Hne|]. split; [exact Hno|].
  exact (Cleanup_without_driver (E := env_ok) attached_two bare_world Hne Hno).
Defined.

(** X16 after two attachments, with a driver whose every command fails. *)
Lemma Cleanup_logs_failures_witness :
  bag mock_world !! "driver" = Some VDriver
  /\ exists evs,
      exec_unit (StepAttachISOs.Cleanup (E := env_fails)) attached_two mock_world
      = (true, attached_two, mkWorld (bag mock_world) (trace mock_world ++ evs))
      /\ log_lines evs
         = map (fun m => "error detaching iso: " +:+ m) (driver_errors evs)
      /\ length (driver_calls evs) + length (log_lines evs) = length evs.
Proof.
  split; [reflexivity|].
  exact (Cleanup_logs_failures (E := env_fails) attached_two mock_world
           (fun _ => eq_refl)).
Defined.
